(** * Telegram private chat relay: lease locks, rate limits, thread health, self-healing router

    A shallow embedding of the coordination core of the relay bot:

    - [RateLimitDO]: the Durable Object of [src/do/rate-limit-do.js]
      (SQLite tables [rate_limits] and [user_locks], plus the in-memory cache);
    - [UserLock]: [services/user-lock.js] ([acquireUserLock], [releaseUserLock],
      [withUserLock] with its heartbeat coroutine);
    - [RateLimit]: [services/rate-limit.js] ([checkRateLimit]);
    - [TopicUtils]: [services/topic-utils.js] ([probeForumThread]);
    - [Verification]: [services/verification.js];
    - [MessageFlow]: [services/message-flow.js].

    Conventions.  JavaScript numbers that hold counts, identifiers and
    millisecond timestamps are integers ([Z]).  In the Durable Object and the
    lock, [Date.now()] is an explicit argument [now] of every operation that
    reads the clock; the services run in the monad [Worker.M], whose state
    carries the environment, the trace of Telegram calls and log lines, and the
    answers, clock readings, faults and random draws the run will see.  A call
    that can throw returns an [outcome]. *)

From stdpp Require Import gmap strings list pretty.
From Stdlib Require Import ZArith Lia Ascii.

Open Scope Z_scope.

(** ** JavaScript outcomes *)

(** The exceptions the modelled code raises or receives. *)
Inductive js_error : Type :=
| Error (message : string)
| UserLockTimeoutError (message : string)
| UserLockLostError (message : string)
| RpcError (retryable overloaded : bool) (message : string).

Inductive outcome (A : Type) : Type :=
| Returned (a : A)
| Thrown (e : js_error).
Arguments Returned {A} a.
Arguments Thrown {A} e.

Definition is_thrown {A} (o : outcome A) : bool :=
  match o with Thrown _ => true | Returned _ => false end.

(** [!s] for a JavaScript string. *)
Definition falsy_str (s : string) : bool := String.eqb s "".

(** * The Durable Object: [RateLimitDO] *)

Module RateLimitDO.

(** ** Tables *)

(** A row of [user_locks]. *)
Record lock_row : Type := LockRow {
  lock_key : string;
  owner_token : string;
  expires_at : Z;
  created_at : Z;
  updated_at : Z
}.

(** A row of [rate_limits]. *)
Record rate_row : Type := RateRow {
  key : string;
  count : Z;
  rl_expires_at : Z;
  rl_created_at : Z;
  rl_updated_at : Z
}.

(** An entry of [this.cache]: [{ count, expiresAt }]. *)
Record cache_entry : Type := CacheEntry {
  c_count : Z;
  c_expiresAt : Z
}.

(** The object's state: the two SQLite tables, as the lists of their rows, and
    the in-memory [Map]. *)
Record state : Type := State {
  user_locks : list lock_row;
  rate_limits : list rate_row;
  cache : gmap string cache_entry
}.

(** The state after the constructor ran on fresh storage:
    [CREATE TABLE IF NOT EXISTS] twice and [new Map()]. *)
Definition init : state := State [] [] ∅.

(** The constructor on existing storage (the instance was evicted and is
    started again): the tables persist, the cache is a new [Map]. *)
Definition restart (s : state) : state :=
  State (user_locks s) (rate_limits s) ∅.

(** ** SQL statements *)

(** [SELECT owner_token, expires_at FROM user_locks WHERE lock_key = ?] followed
    by [.one()].  The code tests the result with [row && ...] and [!row]: it
    takes [.one()] to yield a falsy value when no row matches, which is [None]
    here. *)
Definition select_lock (k : string) (t : list lock_row) : option lock_row :=
  List.find (fun r => String.eqb (lock_key r) k) t.

(** [INSERT INTO user_locks (...) VALUES (k, tok, exp, now, now)
     ON CONFLICT(lock_key) DO UPDATE SET owner_token = excluded.owner_token,
     expires_at = excluded.expires_at, updated_at = excluded.updated_at]. *)
Fixpoint upsert_lock (k tok : string) (exp now : Z) (t : list lock_row)
  : list lock_row :=
  match t with
  | [] => [LockRow k tok exp now now]
  | r :: t' =>
      if String.eqb (lock_key r) k
      then LockRow k tok exp (created_at r) now :: t'
      else r :: upsert_lock k tok exp now t'
  end.

(** [DELETE FROM user_locks WHERE lock_key = ? AND owner_token = ?]. *)
Definition lock_matches (k tok : string) (r : lock_row) : bool :=
  String.eqb (lock_key r) k && String.eqb (owner_token r) tok.

Definition delete_lock (k tok : string) (t : list lock_row) : list lock_row :=
  List.filter (fun r => negb (lock_matches k tok r)) t.

(** [meta.changes] of a statement: the number of rows it touched. *)
Definition changes {A} (p : A -> bool) (t : list A) : Z :=
  Z.of_nat (length (List.filter p t)).

(** [UPDATE user_locks SET expires_at = ?, updated_at = ?
     WHERE lock_key = ? AND owner_token = ?]. *)
Definition update_lock (exp now : Z) (k tok : string) (t : list lock_row)
  : list lock_row :=
  List.map (fun r =>
    if lock_matches k tok r
    then LockRow (lock_key r) (owner_token r) exp (created_at r) now
    else r) t.

(** [DELETE FROM user_locks WHERE expires_at < ?]. *)
Definition delete_expired_locks (now : Z) (t : list lock_row) : list lock_row :=
  List.filter (fun r => negb (expires_at r <? now)) t.

(** [SELECT count, expires_at FROM rate_limits WHERE key = ?] and [.one()]. *)
Definition select_rate (k : string) (t : list rate_row) : option rate_row :=
  List.find (fun r => String.eqb (key r) k) t.

(** [INSERT INTO rate_limits (...) VALUES (k, c, exp, now, now)
     ON CONFLICT(key) DO UPDATE SET count = count + 1, updated_at = ?]. *)
Fixpoint upsert_rate_incr (k : string) (c exp now : Z) (t : list rate_row)
  : list rate_row :=
  match t with
  | [] => [RateRow k c exp now now]
  | r :: t' =>
      if String.eqb (key r) k
      then RateRow (key r) (count r + 1) (rl_expires_at r) (rl_created_at r) now :: t'
      else r :: upsert_rate_incr k c exp now t'
  end.

(** [UPDATE rate_limits SET count = count + 1, updated_at = ? WHERE key = ?]. *)
Definition update_rate_incr (now : Z) (k : string) (t : list rate_row)
  : list rate_row :=
  List.map (fun r =>
    if String.eqb (key r) k
    then RateRow (key r) (count r + 1) (rl_expires_at r) (rl_created_at r) now
    else r) t.

(** [INSERT INTO rate_limits (...) VALUES (k, 1, exp, now, now)
     ON CONFLICT(key) DO UPDATE SET count = 1, expires_at = ?, updated_at = ?]. *)
Fixpoint upsert_rate_reset (k : string) (exp now : Z) (t : list rate_row)
  : list rate_row :=
  match t with
  | [] => [RateRow k 1 exp now now]
  | r :: t' =>
      if String.eqb (key r) k
      then RateRow (key r) 1 exp (rl_created_at r) now :: t'
      else r :: upsert_rate_reset k exp now t'
  end.

(** [DELETE FROM rate_limits WHERE expires_at < ?]. *)
Definition delete_expired_rates (now : Z) (t : list rate_row) : list rate_row :=
  List.filter (fun r => negb (rl_expires_at r <? now)) t.

(** [DELETE FROM rate_limits WHERE key = ?]. *)
Definition delete_rate (k : string) (t : list rate_row) : list rate_row :=
  List.filter (fun r => negb (String.eqb (key r) k)) t.

(** ** RPC results *)

Record acquire_result : Type := AcquireResult {
  acquired : bool;
  acq_ownerToken : option string;
  acq_expiresAt : option Z;
  retryAfterMs : option Z
}.

Record release_result : Type := ReleaseResult { released : bool }.

Record renew_result : Type := RenewResult {
  renewed : bool;
  ren_expiresAt : option Z
}.

Record check_result : Type := CheckResult {
  allowed : bool;
  remaining : Z
}.

Record cleanup_result : Type := CleanupResult {
  deletedRateLimits : Z;
  deletedLocks : Z
}.

(** [Math.max(1000, Number(ttlMs || 15000))]. *)
Definition effective_ttl (ttlMs : Z) : Z :=
  Z.max 1000 (if ttlMs =? 0 then 15000 else ttlMs).

Definition missing_lock_params : js_error :=
  Error "Missing parameters: lockKey, ownerToken".

(** ** [acquireLock] *)
Definition acquireLock (lockKey ownerToken : string) (ttlMs now : Z) (s : state)
  : outcome acquire_result * state :=
  if falsy_str lockKey || falsy_str ownerToken
  then (Thrown missing_lock_params, s)
  else
    let ttl := effective_ttl ttlMs in
    let nextExpiresAt := now + ttl in
    let row := select_lock lockKey (user_locks s) in
    match row with
    | Some r =>
        if (expires_at r >? now) && negb (String.eqb (owner_token r) ownerToken)
        then (Returned (AcquireResult false None None
                          (Some (Z.max 50 (expires_at r - now)))), s)
        else (Returned (AcquireResult true (Some ownerToken) (Some nextExpiresAt) None),
              State (upsert_lock lockKey ownerToken nextExpiresAt now (user_locks s))
                    (rate_limits s) (cache s))
    | None =>
        (Returned (AcquireResult true (Some ownerToken) (Some nextExpiresAt) None),
         State (upsert_lock lockKey ownerToken nextExpiresAt now (user_locks s))
               (rate_limits s) (cache s))
    end.

(** ** [releaseLock] *)
Definition releaseLock (lockKey ownerToken : string) (s : state)
  : outcome release_result * state :=
  if falsy_str lockKey || falsy_str ownerToken
  then (Thrown missing_lock_params, s)
  else
    let n := changes (lock_matches lockKey ownerToken) (user_locks s) in
    (Returned (ReleaseResult (n >? 0)),
     State (delete_lock lockKey ownerToken (user_locks s)) (rate_limits s) (cache s)).

(** ** [renewLock] *)
Definition renewLock (lockKey ownerToken : string) (ttlMs now : Z) (s : state)
  : outcome renew_result * state :=
  if falsy_str lockKey || falsy_str ownerToken
  then (Thrown missing_lock_params, s)
  else
    let ttl := effective_ttl ttlMs in
    let nextExpiresAt := now + ttl in
    match select_lock lockKey (user_locks s) with
    | None => (Returned (RenewResult false None), s)
    | Some r =>
        if negb (String.eqb (owner_token r) ownerToken) || (expires_at r <=? now)
        then (Returned (RenewResult false None), s)
        else (Returned (RenewResult true (Some nextExpiresAt)),
              State (update_lock nextExpiresAt now lockKey ownerToken (user_locks s))
                    (rate_limits s) (cache s))
    end.

(** ** [check] *)

(** The fast path's guard: [cached && cached.expiresAt > now]. *)
Definition cache_hit (k : string) (now : Z) (s : state) : option cache_entry :=
  match cache s !! k with
  | Some c => if c_expiresAt c >? now then Some c else None
  | None => None
  end.

(** The cold path: everything after the fast path's [if]. *)
Definition check_cold (k : string) (limit expiresAt now : Z) (s : state)
  : outcome check_result * state :=
  let fresh :=
    (Returned (CheckResult true (limit - 1)),
     State (user_locks s)
           (upsert_rate_reset k expiresAt now (rate_limits s))
           (<[k := CacheEntry 1 expiresAt]> (cache s))) in
  match select_rate k (rate_limits s) with
  | Some r =>
      if rl_expires_at r >? now then
        if count r >=? limit then
          (Returned (CheckResult false 0),
           State (user_locks s) (rate_limits s)
                 (<[k := CacheEntry (count r) (rl_expires_at r)]> (cache s)))
        else
          let newCount := count r + 1 in
          (Returned (CheckResult true (limit - newCount)),
           State (user_locks s)
                 (update_rate_incr now k (rate_limits s))
                 (<[k := CacheEntry newCount (rl_expires_at r)]> (cache s)))
      else fresh
  | None => fresh
  end.

Definition check (k : string) (limit window now : Z) (s : state)
  : outcome check_result * state :=
  if falsy_str k || (limit =? 0) || (window =? 0)
  then (Thrown (Error "Missing parameters: key, limit, window"), s)
  else
    let expiresAt := now + window * 1000 in
    match cache_hit k now s with
    | Some cached =>
        if c_count cached >=? limit
        then (Returned (CheckResult false 0), s)
        else
          let n := c_count cached + 1 in
          (Returned (CheckResult true (limit - n)),
           State (user_locks s)
                 (upsert_rate_incr k (c_count cached + 1) expiresAt now (rate_limits s))
                 (<[k := CacheEntry n expiresAt]> (cache s)))
    | None => check_cold k limit expiresAt now s
    end.

(** ** [cleanupExpired] *)
Definition cleanupExpired (now : Z) (s : state) : cleanup_result * state :=
  (CleanupResult
     (changes (fun r => rl_expires_at r <? now) (rate_limits s))
     (changes (fun r => expires_at r <? now) (user_locks s)),
   State (delete_expired_locks now (user_locks s))
         (delete_expired_rates now (rate_limits s))
         (filter (fun kv : string * cache_entry => ¬ (c_expiresAt kv.2 < now)) (cache s))).

(** ** [reset] *)
Definition reset (k : string) (s : state) : state :=
  State (user_locks s) (delete_rate k (rate_limits s)) (delete k (cache s)).

(** ** Serial executions

    A Durable Object runs one call at a time.  An execution is a list of calls,
    each with the clock value it reads. *)
Inductive op : Type :=
| OpAcquire (lockKey ownerToken : string) (ttlMs now : Z)
| OpRenew (lockKey ownerToken : string) (ttlMs now : Z)
| OpRelease (lockKey ownerToken : string)
| OpCheck (k : string) (limit window now : Z)
| OpCleanup (now : Z)
| OpReset (k : string)
| OpRestart.

Definition step (o : op) (s : state) : state :=
  match o with
  | OpAcquire k tok ttl now => (acquireLock k tok ttl now s).2
  | OpRenew k tok ttl now => (renewLock k tok ttl now s).2
  | OpRelease k tok => (releaseLock k tok s).2
  | OpCheck k limit window now => (check k limit window now s).2
  | OpCleanup now => (cleanupExpired now s).2
  | OpReset k => reset k s
  | OpRestart => restart s
  end.

Definition run (ops : list op) (s : state) : state :=
  fold_left (fun s o => step o s) ops s.





(** ** Runs of [check] on one key *)





(** ** The reference algorithm of the specification

    Follows the specification's wording, on the durable record alone: absent
    or expired, create with count 1 and a new window; in the window and at the
    limit, refuse without touching the record; otherwise increment. *)
Definition check_spec (k : string) (limit window now : Z) (t : list rate_row)
  : check_result * list rate_row :=
  match select_rate k t with
  | Some r =>
      if rl_expires_at r >? now then
        if count r >=? limit then (CheckResult false 0, t)
        else (CheckResult true (limit - (count r + 1)), update_rate_incr now k t)
      else (CheckResult true (limit - 1), upsert_rate_reset k (now + window * 1000) now t)
  | None => (CheckResult true (limit - 1), upsert_rate_reset k (now + window * 1000) now t)
  end.

(** The cache agrees with the table on [k]: an entry the fast path would use
    at [now] carries the count and the window end of the row. *)
Definition cache_coherent (k : string) (now : Z) (s : state) : Prop :=
  forall c, cache_hit k now s = Some c ->
    exists r, select_rate k (rate_limits s) = Some r /\
              count r = c_count c /\ rl_expires_at r = c_expiresAt c.


(** ** One key among the object's other traffic *)




End RateLimitDO.

(** * The worker's environment *)

Module Env.

(** The state of a verification challenge, stored under [chal:<verifyId>]. *)
Record challenge : Type := Challenge {
  answerIndex : Z;
  options : list string;
  pending_ids : option (list Z);   (* [None]: the field is not an array *)
  pending : option Z;              (* the single-message field of older states *)
  ch_userId : option Z
}.

(** A user's topic record, stored under [user:<userId>]. *)
Record topic_rec : Type := TopicRec {
  thread_id : option Z;
  title : option string;
  closed : bool
}.

(** What a key of the [TOPIC_MAP] namespace holds.  Each key family holds one
    shape of value: a plain string, a decimal counter, or the JSON text of one
    of the records; the JSON text is kept as the record it encodes. *)
Inductive kv_value : Type :=
| VStr (s : string)
| VNum (n : Z)
| VChallenge (c : challenge)
| VTopicRec (r : topic_rec)
| VMsgMap (targetChatId : string) (targetMsgId : option Z) (createdAt : Z).

(** A row of the D1 table [users]. *)
Record user_row : Type := UserRow {
  u_thread_id : option Z;
  u_title : option string;
  u_closed : bool;
  u_verify_state : option string;
  u_verify_expires_at : option Z;
  u_is_blocked : bool
}.

(** The D1 database [TG_BOT_DB]: [users] by [user_id], [threads] by
    [thread_id], [messages] by source chat and message. *)
Record d1 : Type := D1 {
  users : gmap string user_row;
  threads : gmap Z string;
  messages : gmap (string * Z) (string * option Z * Z)
}.

Record env : Type := MkEnv {
  RATE_LIMIT_DO : option (gmap string RateLimitDO.state);
  TOPIC_MAP : gmap string kv_value;
  TG_BOT_DB : option d1;
  SUPERGROUP_ID : Z
}.

(** [String(n)] and [${n}] for a number. *)
Definition String_of (n : Z) : string := pretty n.

(** [env.RATE_LIMIT_DO.getByName(name)]: the object of that name, created on
    first use. *)
Definition getByName (ns : gmap string RateLimitDO.state) (name : string)
  : RateLimitDO.state :=
  default RateLimitDO.init (ns !! name).

Definition set_TOPIC_MAP (kv : gmap string kv_value) (e : env) : env :=
  MkEnv (RATE_LIMIT_DO e) kv (TG_BOT_DB e) (SUPERGROUP_ID e).

Definition set_RATE_LIMIT_DO (ns : gmap string RateLimitDO.state) (e : env) : env :=
  MkEnv (Some ns) (TOPIC_MAP e) (TG_BOT_DB e) (SUPERGROUP_ID e).

Definition set_TG_BOT_DB (db : d1) (e : env) : env :=
  MkEnv (RATE_LIMIT_DO e) (TOPIC_MAP e) (Some db) (SUPERGROUP_ID e).

(** [env.TOPIC_MAP.put / delete].  Expiry by [expirationTtl] is a deletion by
    the platform, see [env_event]. *)
Definition kv_put (k : string) (v : kv_value) (e : env) : env :=
  set_TOPIC_MAP (<[k := v]> (TOPIC_MAP e)) e.

Definition kv_delete (k : string) (e : env) : env :=
  set_TOPIC_MAP (delete k (TOPIC_MAP e)) e.

(** Truthiness of what [env.TOPIC_MAP.get(key)] returns: [null] and the empty
    string are falsy. *)
Definition kv_truthy (v : option kv_value) : bool :=
  match v with
  | None => false
  | Some (VStr s) => negb (falsy_str s)
  | Some _ => true
  end.

(** [env.TOPIC_MAP.get(key) === s] for a string [s]. *)
Definition kv_is_str (v : option kv_value) (s : string) : bool :=
  match v with
  | Some (VStr s') => String.eqb s' s
  | _ => false
  end.

(** What other requests and the platform do to the environment between two
    steps of the request under study. *)
Inductive env_event : Type :=
| DoCall (name : string) (o : RateLimitDO.op)
| KvPut (k : string) (v : kv_value)
| KvDelete (k : string).

Definition apply_event (ev : env_event) (e : env) : env :=
  match ev with
  | DoCall name o =>
      match RATE_LIMIT_DO e with
      | Some ns => set_RATE_LIMIT_DO (<[name := RateLimitDO.step o (getByName ns name)]> ns) e
      | None => e
      end
  | KvPut k v => kv_put k v e
  | KvDelete k => kv_delete k e
  end.

Definition apply_events (evs : list env_event) (e : env) : env :=
  fold_left (fun e ev => apply_event ev e) evs e.

End Env.

(** * [services/user-lock.js] *)

Module UserLock.
Import Env.

(** The [config] argument; an absent field is [None]. *)
Record raw_config : Type := RawConfig {
  rc_lockKey : option string;
  rc_ttlMs : option Z;
  rc_acquireTimeoutMs : option Z;
  rc_retryIntervalMs : option Z;
  rc_heartbeatIntervalMs : option Z
}.

Record lock_config : Type := LockConfig {
  lockKey : string;
  ttlMs : Z;
  acquireTimeoutMs : Z;
  retryIntervalMs : Z;
  heartbeatIntervalMs : Z
}.

(** [Number(x || d)] for an optional number. *)
Definition num_or (x : option Z) (d : Z) : Z :=
  match x with
  | Some n => if n =? 0 then d else n
  | None => d
  end.

(** [s || d] for an optional string. *)
Definition str_or (x : option string) (d : string) : string :=
  match x with
  | Some s => if falsy_str s then d else s
  | None => d
  end.

Definition normalizeLockConfig (config : raw_config) : lock_config :=
  LockConfig (str_or (rc_lockKey config) "private_flow")
             (num_or (rc_ttlMs config) 15000)
             (num_or (rc_acquireTimeoutMs config) 6000)
             (num_or (rc_retryIntervalMs config) 120)
             (num_or (rc_heartbeatIntervalMs config) 5000).

(** A normalised configuration passed where a [config] is expected. *)
Definition as_raw (cfg : lock_config) : raw_config :=
  RawConfig (Some (lockKey cfg)) (Some (ttlMs cfg)) (Some (acquireTimeoutMs cfg))
            (Some (retryIntervalMs cfg)) (Some (heartbeatIntervalMs cfg)).

Inductive lock_mode : Type := ModeDO | ModeKV.

(** What [acquireUserLock] returns. *)
Record lock_state : Type := LockState {
  ls_ownerToken : string;
  ls_lockKey : string;
  ls_acquiredAt : Z;
  ls_mode : lock_mode
}.

(** What the module does to the outside, in order. *)
Inductive action : Type :=
| ActSleep (ms : Z)
| ActAcquireLock (name lockKey ownerToken : string) (ttlMs : Z)
| ActRenewLock (name lockKey ownerToken : string) (ttlMs : Z)
| ActReleaseLock (name lockKey ownerToken : string)
| ActKvGet (k : string)
| ActKvPut (k : string) (v : string) (expirationTtl : Z)
| ActKvDelete (k : string)
| ActWarn (event : string).

Record world : Type := World {
  w_env : env;
  w_log : list action
}.

Definition log (a : action) (w : world) : world :=
  World (w_env w) (w_log w ++ [a]).

Definition with_env (f : env -> env) (w : world) : world :=
  World (f (w_env w)) (w_log w).

(** A call of the user's Durable Object.  [fault] is an exception of the
    transport or of the runtime, raised instead of an answer. *)
Definition do_call {A} (name : string) (fault : option js_error)
    (f : RateLimitDO.state -> outcome A * RateLimitDO.state)
    (ns : gmap string RateLimitDO.state) (w : world) : outcome A * world :=
  match fault with
  | Some err => (Thrown err, w)
  | None =>
      let '(res, obj) := f (getByName ns name) in
      (res, with_env (set_RATE_LIMIT_DO (<[name := obj]> ns)) w)
  end.

(** [Math.ceil(ms / 1000)]. *)
Definition ceil_seconds (ms : Z) : Z := - ((- ms) / 1000).

(** The key of the fallback lock in the key-value store. *)
Definition kv_lock_key (lockKey : string) (userId : Z) : string :=
  "lock:" +:+ lockKey +:+ ":" +:+ String_of userId.

(** ** [acquireUserLock] *)

(** What one iteration of the loop meets: what others did since the previous
    iteration, the clock at the loop test, the clock inside the object, a
    failure of the call, what others did between the [put] and the confirming
    [get] of the fallback, and the clock on success. *)
Record attempt : Type := Attempt {
  at_before : list env_event;
  at_now : Z;
  at_do_now : Z;
  at_fault : option js_error;
  at_between : list env_event;
  at_acquired : Z
}.

(** The [while] loop.  The list of attempts is the schedule; [None] when it
    ends before the loop does. *)
Fixpoint acquire_loop (cfg : lock_config) (userId : Z) (ownerToken : string)
    (deadline : Z) (atts : list attempt) (w : world)
  : option (outcome lock_state) * world :=
  match atts with
  | [] => (None, w)
  | a :: rest =>
      let w := with_env (apply_events (at_before a)) w in
      if at_now a <? deadline then
        match RATE_LIMIT_DO (w_env w) with
        | Some ns =>
            let name := String_of userId in
            let w := log (ActAcquireLock name (lockKey cfg) ownerToken (ttlMs cfg)) w in
            let '(res, w) :=
              do_call name (at_fault a)
                (RateLimitDO.acquireLock (lockKey cfg) ownerToken (ttlMs cfg) (at_do_now a))
                ns w in
            match res with
            | Thrown err => (Some (Thrown err), w)
            | Returned r =>
                if RateLimitDO.acquired r
                then (Some (Returned (LockState ownerToken (lockKey cfg) (at_acquired a) ModeDO)), w)
                else
                  let waitMs :=
                    Z.max 40 (Z.min (retryIntervalMs cfg)
                                (num_or (RateLimitDO.retryAfterMs r) (retryIntervalMs cfg))) in
                  acquire_loop cfg userId ownerToken deadline rest (log (ActSleep waitMs) w)
            end
        | None =>
            let kvKey := kv_lock_key (lockKey cfg) userId in
            let existing := TOPIC_MAP (w_env w) !! kvKey in
            let w := log (ActKvGet kvKey) w in
            if kv_truthy existing
            then acquire_loop cfg userId ownerToken deadline rest
                   (log (ActSleep (retryIntervalMs cfg)) w)
            else
              let w := with_env (kv_put kvKey (VStr ownerToken)) w in
              let w := log (ActKvPut kvKey ownerToken (ceil_seconds (ttlMs cfg))) w in
              let w := with_env (apply_events (at_between a)) w in
              let confirmed := TOPIC_MAP (w_env w) !! kvKey in
              let w := log (ActKvGet kvKey) w in
              if kv_is_str confirmed ownerToken
              then (Some (Returned (LockState ownerToken (lockKey cfg) (at_acquired a) ModeKV)), w)
              else acquire_loop cfg userId ownerToken deadline rest
                     (log (ActSleep (retryIntervalMs cfg)) w)
        end
      else
        (Some (Thrown (UserLockTimeoutError
                         ("获取用户锁超时: userId=" +:+ String_of userId))), w)
  end.

(** [ownerToken] is the value of [secureRandomId(20)], [startedAt] the first
    reading of the clock. *)
Definition acquireUserLock (userId : Z) (config : raw_config) (ownerToken : string)
    (startedAt : Z) (atts : list attempt) (w : world)
  : option (outcome lock_state) * world :=
  let cfg := normalizeLockConfig config in
  let deadline := startedAt + acquireTimeoutMs cfg in
  acquire_loop cfg userId ownerToken deadline atts w.

(** ** [releaseUserLock] *)
Definition releaseUserLock (fault : option js_error) (userId : Z)
    (lockState : option lock_state) (w : world) : outcome bool * world :=
  match lockState with
  | None => (Returned false, w)
  | Some ls =>
      if falsy_str (ls_ownerToken ls) then (Returned false, w)
      else
        match RATE_LIMIT_DO (w_env w), ls_mode ls with
        | Some ns, ModeDO =>
            let name := String_of userId in
            let w := log (ActReleaseLock name (ls_lockKey ls) (ls_ownerToken ls)) w in
            let '(res, w) :=
              do_call name fault
                (RateLimitDO.releaseLock (ls_lockKey ls) (ls_ownerToken ls)) ns w in
            match res with
            | Thrown err => (Thrown err, w)
            | Returned r => (Returned (RateLimitDO.released r), w)
            end
        | _, _ =>
            let kvKey := kv_lock_key (ls_lockKey ls) userId in
            let existing := TOPIC_MAP (w_env w) !! kvKey in
            let w := log (ActKvGet kvKey) w in
            if kv_is_str existing (ls_ownerToken ls)
            then (Returned true, log (ActKvDelete kvKey) (with_env (kv_delete kvKey) w))
            else (Returned false, w)
        end
  end.

(** ** [withUserLock]

    The function starts two coroutines on one event loop: the heartbeat, and
    the body that awaits the critical section [fn].  They interleave at their
    [await]s.  The model is a machine whose events are the resumptions of the
    coroutines; a schedule is a list of events. *)

(** The heartbeat coroutine: asleep in [sleep(intervalMs)], waiting for the
    answer to [renewLock] (the object has already run the call, the answer is
    on its way), or returned. *)
Inductive hb_state : Type :=
| HbSleeping
| HbRenewing (reply : outcome RateLimitDO.renew_result)
| HbFinished.

Section WithUserLock.

(** [E]: the externally visible side effects of the critical section;
    [R]: its result. *)
Context {E R : Type}.

(** The main coroutine: inside [await fn()] with the side effects [fn] has
    still to perform, inside [await heartbeatPromise] of the [finally] block
    with the outcome of the [try] block, or settled. *)
Inductive main_state : Type :=
| InSection (todo : list E)
| AwaitingHeartbeat (body : outcome R)
| Finished (result : outcome R).

(** One call of [withUserLock] after its lock was acquired. *)
Record call : Type := Call {
  c_userId : Z;
  c_cfg : lock_config;
  c_lockState : lock_state;
  c_fn_result : outcome R;            (* how [fn] settles after its side effects *)
  c_release_fault : option js_error   (* a failure of the final [releaseLock] call *)
}.

Record wl : Type := WL {
  wl_world : world;
  wl_stop : bool;                     (* [stopHeartbeat] *)
  wl_hbError : option js_error;       (* [heartbeatError] *)
  wl_hb : hb_state;
  wl_main : main_state;
  wl_effects : list E                 (* side effects performed by [fn] so far *)
}.

Inductive event : Type :=
| EvSection                                   (* [fn] runs to its next [await] *)
| EvTimer (now : Z) (fault : option js_error) (* the heartbeat's sleep is over *)
| EvReply                                     (* the answer to [renewLock] arrives *)
| EvOther (ev : env_event).                   (* another request acts *)

Definition lost_error (userId : Z) : js_error :=
  UserLockLostError ("用户锁续期失败: userId=" +:+ String_of userId).

(** [Math.max(1000, Math.min(cfg.heartbeatIntervalMs, Math.floor(cfg.ttlMs / 2)))]. *)
Definition intervalMs (cfg : lock_config) : Z :=
  Z.max 1000 (Z.min (heartbeatIntervalMs cfg) (ttlMs cfg / 2)).

(** The head of the heartbeat's loop: [while (!stopHeartbeat) { await sleep(...) ]. *)
Definition hb_loop (k : call) (c : wl) : wl :=
  if wl_stop c
  then WL (wl_world c) (wl_stop c) (wl_hbError c) HbFinished (wl_main c) (wl_effects c)
  else WL (log (ActSleep (intervalMs (c_cfg k))) (wl_world c)) (wl_stop c) (wl_hbError c)
          HbSleeping (wl_main c) (wl_effects c).

(** The [finally] block after [await heartbeatPromise]: the release, and the
    outcome of the whole call. *)
Definition release_of (k : call) (c : wl) : outcome bool * world :=
  releaseUserLock (c_release_fault k) (c_userId k) (Some (c_lockState k)) (wl_world c).

Definition finalize (k : call) (body : outcome R) (c : wl) : wl :=
  let result :=
    match (release_of k c).1 with
    | Thrown err => Thrown err
    | Returned _ => body
    end in
  WL (release_of k c).2 (wl_stop c) (wl_hbError c) (wl_hb c) (Finished result)
     (wl_effects c).

(** The outcome of the [try] block when [fn] settles:
    [const result = await fn(); if (heartbeatError) throw heartbeatError;
     return result]. *)
Definition try_result (k : call) (c : wl) : outcome R :=
  match c_fn_result k with
  | Returned v =>
      match wl_hbError c with
      | Some err => Thrown err
      | None => Returned v
      end
  | Thrown err => Thrown err
  end.

(** The main coroutine resumes from [await heartbeatPromise] once the
    heartbeat has returned. *)
Definition resume_main (k : call) (c : wl) : wl :=
  match wl_main c, wl_hb c with
  | AwaitingHeartbeat body, HbFinished => finalize k body c
  | _, _ => c
  end.

(** The state when [await fn()] starts: the lock is held, the heartbeat has
    run to its first [await]. *)
Definition start (k : call) (steps : list E) (w : world) : wl :=
  match ls_mode (c_lockState k), RATE_LIMIT_DO (w_env w) with
  | ModeDO, Some _ => hb_loop k (WL w false None HbSleeping (InSection steps) [])
  | _, _ => WL w false None HbFinished (InSection steps) []
  end.

Definition wl_step (k : call) (ev : event) (c : wl) : wl :=
  match ev with
  | EvSection =>
      match wl_main c with
      | InSection (e :: todo) =>
          WL (wl_world c) (wl_stop c) (wl_hbError c) (wl_hb c)
             (InSection todo) (wl_effects c ++ [e])
      | InSection [] =>
          (* [fn] settles; then [finally]: [stopHeartbeat = true;
             await heartbeatPromise] *)
          resume_main k
            (WL (wl_world c) true (wl_hbError c) (wl_hb c)
                (AwaitingHeartbeat (try_result k c)) (wl_effects c))
      | _ => c
      end
  | EvTimer now fault =>
      match wl_hb c with
      | HbSleeping =>
          if wl_stop c
          then resume_main k
                 (WL (wl_world c) (wl_stop c) (wl_hbError c) HbFinished
                     (wl_main c) (wl_effects c))
          else
            let ls := c_lockState k in
            let name := String_of (c_userId k) in
            match RATE_LIMIT_DO (w_env (wl_world c)) with
            | Some ns =>
                let w := log (ActRenewLock name (ls_lockKey ls) (ls_ownerToken ls)
                                (ttlMs (c_cfg k))) (wl_world c) in
                let '(reply, w) :=
                  do_call name fault
                    (RateLimitDO.renewLock (ls_lockKey ls) (ls_ownerToken ls)
                       (ttlMs (c_cfg k)) now) ns w in
                WL w (wl_stop c) (wl_hbError c) (HbRenewing reply) (wl_main c) (wl_effects c)
            | None =>
                WL (wl_world c) (wl_stop c) (wl_hbError c)
                   (HbRenewing (Thrown (Error "TypeError"))) (wl_main c) (wl_effects c)
            end
      | _ => c
      end
  | EvReply =>
      match wl_hb c with
      | HbRenewing (Returned r) =>
          if RateLimitDO.renewed r
          then resume_main k (hb_loop k c)
          else resume_main k
                 (WL (wl_world c) true (Some (lost_error (c_userId k))) HbFinished
                     (wl_main c) (wl_effects c))
      | HbRenewing (Thrown _) =>
          resume_main k
            (hb_loop k (WL (log (ActWarn "user_lock_renew_failed") (wl_world c))
                           (wl_stop c) (wl_hbError c) (wl_hb c) (wl_main c) (wl_effects c)))
      | _ => c
      end
  | EvOther ev =>
      WL (with_env (apply_event ev) (wl_world c)) (wl_stop c) (wl_hbError c)
         (wl_hb c) (wl_main c) (wl_effects c)
  end.

Definition wl_run (k : call) (sched : list event) (c : wl) : wl :=
  fold_left (fun c ev => wl_step k ev c) sched c.

(** The outcome of the call, once it has settled. *)
Definition wl_result (c : wl) : option (outcome R) :=
  match wl_main c with
  | Finished r => Some r
  | _ => None
  end.

(** The whole function: acquire, then run [fn] under the heartbeat.  [steps]
    and [fn_result] are the critical section; [ownerToken], [startedAt],
    [atts], [release_fault] and [sched] are what the run meets.  The result is
    [None] when a schedule ends before the call settles. *)
Definition withUserLock (userId : Z) (config : raw_config)
    (steps : list E) (fn_result : outcome R)
    (ownerToken : string) (startedAt : Z) (atts : list attempt)
    (release_fault : option js_error) (sched : list event) (w : world)
  : option (outcome R) * world * list E :=
  let cfg := normalizeLockConfig config in
  match acquireUserLock userId (as_raw cfg) ownerToken startedAt atts w with
  | (None, w) => (None, w, [])
  | (Some (Thrown err), w) => (Some (Thrown err), w, [])
  | (Some (Returned lockState), w) =>
      let k := Call userId cfg lockState fn_result release_fault in
      let c := wl_run k sched (start k steps w) in
      (wl_result c, wl_world c, wl_effects c)
  end.

(** A schedule that lets a call settle from any state: the critical section
    runs to its end, a pending answer arrives, a pending timer fires. *)
Definition settle (n : nat) (now : Z) : list event :=
  repeat EvSection (S n) ++ [EvReply; EvTimer now None].

(** The heartbeat observed a refused renewal while [fn] was still running. *)
Definition lost_in_section (c : wl) : Prop :=
  wl_hbError c <> None /\ exists todo, wl_main c = InSection todo.

(** How a call fails once its lease was lost during the critical section: with
    the error of the release if that fails, else with the error of [fn] if it
    threw, else with [UserLockLostError]. *)
Definition lost_failure (k : call) (rel : outcome bool) : outcome R :=
  match rel with
  | Thrown err => Thrown err
  | Returned _ =>
      match c_fn_result k with
      | Thrown err => Thrown err
      | Returned _ => Thrown (lost_error (c_userId k))
      end
  end.

(** The lease was lost during the critical section, and the machine has gone
    on from there. *)
Definition after_loss (k : call) (c : wl) : Prop :=
  wl_hbError c = Some (lost_error (c_userId k)) /\
  wl_hb c = HbFinished /\
  match wl_main c with
  | InSection _ => True
  | AwaitingHeartbeat _ => False
  | Finished r => exists rel, r = lost_failure k rel
  end.

(** The Durable Object binding is configured. *)
Definition has_do (e : env) : bool :=
  match RATE_LIMIT_DO e with Some _ => true | None => false end.

(** The log of [w] ends with the actions of a [releaseUserLock] for the lock
    state of the call. *)
Definition release_logged (k : call) (w : world) : Prop :=
  exists w0,
    has_do (w_env w0) = has_do (w_env w) /\
    w_log w = w_log (releaseUserLock (c_release_fault k) (c_userId k)
                       (Some (c_lockState k)) w0).2.

(** What holds of every state of a call: the side effects performed and those
    still to come make up [steps]; a recorded loss has stopped the heartbeat;
    the main coroutine waits only for a running heartbeat; a settled call has
    stopped the heartbeat and ended its log with the actions of the release. *)
Definition wl_inv (k : call) (steps : list E) (c : wl) : Prop :=
  (wl_hbError c <> None ->
     wl_hbError c = Some (lost_error (c_userId k)) /\
     wl_hb c = HbFinished /\ wl_stop c = true) /\
  match wl_main c with
  | InSection todo => wl_effects c ++ todo = steps
  | AwaitingHeartbeat _ =>
      wl_effects c = steps /\ wl_stop c = true /\ wl_hb c <> HbFinished
  | Finished _ =>
      wl_effects c = steps /\ wl_stop c = true /\ wl_hb c = HbFinished /\
      release_logged k (wl_world c)
  end.

Definition in_section (c : wl) : bool :=
  match wl_main c with InSection _ => true | _ => false end.

(** The claim that a lost lease stops the critical section, at one state:
    once the loss is recorded, no event adds a side effect. *)
Definition no_effect_after_loss (k : call) (c : wl) : Prop :=
  lost_in_section c -> forall ev, wl_effects (wl_step k ev c) = wl_effects c.


End WithUserLock.

Arguments main_state : clear implicits.
Arguments call : clear implicits.
Arguments wl : clear implicits.


(** An attempt during which nobody else touches the environment and the call
    of the object goes through, before [expiry] on the object's clock. *)
Definition quiet_before (expiry : Z) (a : attempt) : Prop :=
  at_before a = [] /\ at_fault a = None /\ at_do_now a < expiry.

(** What [acquire_loop] adds to the log while it waits: a call of
    [acquireLock], or a sleep between 40 ms and the retry interval. *)
Definition waiting_action (cfg : lock_config) (userId : Z) (ownerToken : string)
    (a : action) : Prop :=
  a = ActAcquireLock (String_of userId) (lockKey cfg) ownerToken (ttlMs cfg) \/
  exists ms, a = ActSleep ms /\ 40 <= ms <= Z.max 40 (retryIntervalMs cfg).

End UserLock.

(** * The worker: effects, Telegram, logging *)

Module Worker.
Import Env.

(** The [result] of a Telegram answer, with the two fields the code reads. *)
Record tg_result : Type := TgResult {
  message_id : option Z;
  message_thread_id : option Z
}.

(** What [tgCall] returns.  It never throws: transport errors and timeouts
    come back as [{ ok: false, description }]. *)
Record tg_response : Type := TgResponse {
  ok : bool;
  result : option tg_result;
  description : option string
}.

(** The Telegram calls of the modelled code. *)
Inductive tg_call : Type :=
| SendMessage (chat_id : Z) (thread : option Z) (text : string)
| SendKeyboard (chat_id : Z) (text : string) (keyboard : list (list (string * string)))
| DeleteMessage (chat_id : Z) (msg_id : Z)
| CopyMessage (chat_id from_chat_id : Z) (msg_id : option Z) (thread : option Z)
| AnswerCallbackQuery (callback_query_id : string) (text : string) (show_alert : bool)
| EditMessageText (chat_id : Z) (msg_id : Z) (text : string).

Inductive log_level : Type := LDebug | LInfo | LWarn | LError.

(** What the random source returns for one challenge: the question drawn from
    [LOCAL_QUESTIONS], its answers after [shuffleArray], the verify id. *)
Record draw : Type := Draw {
  d_question : string;
  d_correct : string;
  d_options : list string;
  d_verifyId : string
}.

(** What a request does, in order: Telegram calls with their answers, log
    lines, and the pending messages whose [forwardToTopic] returned. *)
Inductive trace_event : Type :=
| Tg (c : tg_call) (r : tg_response)
| Log (l : log_level) (event : string)
| Forwarded (userId messageId : Z).

(** The state a request runs in: the bindings, the in-process
    [threadHealthCache], the trace, and what the run will meet: Telegram's
    next answers, the next clock readings, the next failures of Durable
    Object calls, the next random draws. *)
Record state : Type := St {
  st_env : env;
  st_threadHealthCache : gmap Z (Z * bool);
  st_trace : list trace_event;
  st_replies : list tg_response;
  st_clock : list Z;
  st_do_faults : list (option js_error);
  st_draws : list draw
}.

Definition M (A : Type) : Type := state -> outcome A * state.

Definition ret {A} (a : A) : M A := fun s => (Returned a, s).

Definition throw {A} (e : js_error) : M A := fun s => (Thrown e, s).

Definition bind {A B} (m : M A) (f : A -> M B) : M B :=
  fun s =>
    match m s with
    | (Returned a, s') => f a s'
    | (Thrown e, s') => (Thrown e, s')
    end.

(** [try { m } catch (e) { h e }]. *)
Definition try_catch {A} (m : M A) (h : js_error -> M A) : M A :=
  fun s =>
    match m s with
    | (Returned a, s') => (Returned a, s')
    | (Thrown e, s') => h e s'
    end.

Notation "'let*' x ':=' m 'in' k" := (bind m (fun x => k))
  (at level 10, x pattern, m at level 100, k at level 200).
Notation "m ';;' k" := (bind m (fun _ => k))
  (at level 100, k at level 200, right associativity).

Definition with_env (f : env -> env) : M unit :=
  fun s => (Returned tt,
            St (f (st_env s)) (st_threadHealthCache s) (st_trace s) (st_replies s)
               (st_clock s) (st_do_faults s) (st_draws s)).

Definition with_cache (f : gmap Z (Z * bool) -> gmap Z (Z * bool)) : M unit :=
  fun s => (Returned tt,
            St (st_env s) (f (st_threadHealthCache s)) (st_trace s) (st_replies s)
               (st_clock s) (st_do_faults s) (st_draws s)).

Definition emit (ev : trace_event) : M unit :=
  fun s => (Returned tt,
            St (st_env s) (st_threadHealthCache s) (st_trace s ++ [ev]) (st_replies s)
               (st_clock s) (st_do_faults s) (st_draws s)).

Definition get_env : M env := fun s => (Returned (st_env s), s).

(** [Logger.debug / info / warn / error]. *)
Definition Logger (l : log_level) (event : string) : M unit := emit (Log l event).

(** [Date.now()]. *)
Definition now : M Z :=
  fun s =>
    match st_clock s with
    | t :: rest =>
        (Returned t, St (st_env s) (st_threadHealthCache s) (st_trace s) (st_replies s)
                        rest (st_do_faults s) (st_draws s))
    | [] => (Returned 0, s)
    end.

Definition next_fault : M (option js_error) :=
  fun s =>
    match st_do_faults s with
    | f :: rest =>
        (Returned f, St (st_env s) (st_threadHealthCache s) (st_trace s) (st_replies s)
                        (st_clock s) rest (st_draws s))
    | [] => (Returned None, s)
    end.

Definition no_draw : draw := Draw "" "" [] "".

Definition next_draw : M draw :=
  fun s =>
    match st_draws s with
    | d :: rest =>
        (Returned d, St (st_env s) (st_threadHealthCache s) (st_trace s) (st_replies s)
                        (st_clock s) (st_do_faults s) rest)
    | [] => (Returned no_draw, s)
    end.

(** The answer of [tgCall] when Telegram does not answer in time. *)
Definition timeout_response : tg_response :=
  TgResponse false None (Some "Request timeout").

(** The answer the next [tgCall] gets. *)
Definition next_reply (s : state) : tg_response :=
  match st_replies s with
  | r :: _ => r
  | [] => timeout_response
  end.

(** [tgCall(env, method, body)]. *)
Definition tgCall (c : tg_call) : M tg_response :=
  fun s =>
    let r := next_reply s in
    (Returned r,
     St (st_env s) (st_threadHealthCache s) (st_trace s ++ [Tg c r]) (tl (st_replies s))
        (st_clock s) (st_do_faults s) (st_draws s)).

(** [env.TOPIC_MAP.get / put / delete]. *)
Definition kvGet (k : string) : M (option kv_value) :=
  fun s => (Returned (TOPIC_MAP (st_env s) !! k), s).

Definition kvPut (k : string) (v : kv_value) : M unit := with_env (kv_put k v).

Definition kvDelete (k : string) : M unit := with_env (kv_delete k).

(** A computation keeps the invariant [I] of the state, however it ends. *)
Definition preserves {A} (I : state -> Prop) (m : M A) : Prop :=
  forall s, I s -> I (m s).2.

(** From a state in [P], the computation returns a value and a state in [Q],
    or throws in a state in [X]. *)
Definition hoare {A} (P : state -> Prop) (m : M A)
    (Q : A -> state -> Prop) (X : state -> Prop) : Prop :=
  forall s, P s ->
    match m s with
    | (Returned a, s') => Q a s'
    | (Thrown _, s') => X s'
    end.

(** [hasD1(env)]. *)
Definition hasD1 (e : env) : bool :=
  match TG_BOT_DB e with Some _ => true | None => false end.

(** A call of the Durable Object [name]: the next failure of the transport, if
    any, is raised instead of the answer. *)
Definition doCall {A} (name : string)
    (f : RateLimitDO.state -> outcome A * RateLimitDO.state) : M A :=
  let* fault := next_fault in
  match fault with
  | Some err => throw err
  | None =>
      let* e := get_env in
      match RATE_LIMIT_DO e with
      | None => throw (Error "TypeError")
      | Some ns =>
          let '(res, obj) := f (getByName ns name) in
          with_env (set_RATE_LIMIT_DO (<[name := obj]> ns)) ;;
          match res with
          | Returned a => ret a
          | Thrown err => throw err
          end
      end
  end.

(** ** Strings *)

Definition lower_ascii (c : Ascii.ascii) : Ascii.ascii :=
  let n := Ascii.nat_of_ascii c in
  if ((65 <=? n)%nat && (n <=? 90)%nat)%bool then Ascii.ascii_of_nat (n + 32) else c.

(** [s.toLowerCase()], on the ASCII letters. *)
Fixpoint toLowerCase (s : string) : string :=
  match s with
  | EmptyString => EmptyString
  | String c s' => String (lower_ascii c) (toLowerCase s')
  end.

(** [s.includes(sub)]. *)
Definition includes (s sub : string) : bool :=
  match String.index 0 sub s with Some _ => true | None => false end.

(** [s.startsWith(p)]. *)
Fixpoint has_prefix (p s : string) : bool :=
  match p with
  | EmptyString => true
  | String a p' =>
      match s with
      | String b s' => Ascii.eqb a b && has_prefix p' s'
      | EmptyString => false
      end
  end.

Definition startsWith (s p : string) : bool := has_prefix p s.

(** Truthiness of an optional number: [undefined], [null] and [0] are falsy. *)
Definition truthy_num (x : option Z) : bool :=
  match x with
  | Some n => negb (n =? 0)
  | None => false
  end.

(** The constants of [config/constants.js] the modelled code reads. *)
Module CONFIG.
Definition VERIFY_EXPIRE_SECONDS : Z := 300.
Definition VERIFIED_EXPIRE_SECONDS : Z := 2592000.
Definition PENDING_MAX_MESSAGES : nat := 10.
Definition NEEDS_REVERIFY_TTL_SECONDS : Z := 600.
Definition THREAD_HEALTH_TTL_MS : Z := 60000.
Definition RATE_LIMIT_MESSAGE : Z := 45.
Definition RATE_LIMIT_VERIFY : Z := 3.
Definition RATE_LIMIT_WINDOW : Z := 60.
Definition BUTTON_COLUMNS : nat := 2.
Definition MAX_RETRY_ATTEMPTS : Z := 3.
Definition MAX_TITLE_LENGTH : nat := 128.
Definition MAX_NAME_LENGTH : nat := 30.
End CONFIG.

End Worker.

(** * [services/rate-limit.js] *)

Module RateLimit.
Import Env Worker.

(** [parseInt(countStr || '0')] on a key of the family [ratelimit:], whose
    only writer stores decimal counters. *)
Definition kv_count (v : option kv_value) : Z :=
  match v with
  | Some (VNum n) => n
  | _ => 0
  end.

(** [stub.check(key, limit, window)] on the user's object. *)
Definition stub_check (userId : Z) (action : string) (limit window : Z)
  : M RateLimitDO.check_result :=
  let* t := now in
  doCall (String_of userId)
    (RateLimitDO.check (action +:+ ":" +:+ String_of userId) limit window t).

(** The log line of the [catch] block. *)
Definition degradation_log (e : js_error) : trace_event :=
  match e with
  | RpcError true _ _ => Log LWarn "rate_limit_do_retryable_error"
  | RpcError false true _ => Log LWarn "rate_limit_do_overloaded"
  | _ => Log LError "rate_limit_do_call_failed"
  end.

Definition checkRateLimit (userId : Z) (action : string) (limit window : Z)
  : M RateLimitDO.check_result :=
  let* e := get_env in
  match RATE_LIMIT_DO e with
  | None =>
      Logger LWarn "rate_limit_do_not_configured" ;;
      let key := "ratelimit:" +:+ action +:+ ":" +:+ String_of userId in
      let* countStr := kvGet key in
      let count := kv_count countStr in
      if count >=? limit
      then ret (RateLimitDO.CheckResult false 0)
      else
        kvPut key (VNum (count + 1)) ;;
        ret (RateLimitDO.CheckResult true (limit - count - 1))
  | Some _ =>
      try_catch
        (let* result := stub_check userId action limit window in
         ret (RateLimitDO.CheckResult (RateLimitDO.allowed result)
                                      (RateLimitDO.remaining result)))
        (fun e =>
           emit (degradation_log e) ;;
           ret (RateLimitDO.CheckResult true limit))
  end.

(** [n] calls of [checkRateLimit] for the same user and action, one after the
    other, with their results in call order. *)
Fixpoint checkRateLimit_n (n : nat) (userId : Z) (action : string) (limit window : Z)
  : M (list RateLimitDO.check_result) :=
  match n with
  | O => ret []
  | S n' =>
      let* r := checkRateLimit userId action limit window in
      let* rs := checkRateLimit_n n' userId action limit window in
      ret (r :: rs)
  end.


(** The state after the warning that no Durable Object is configured. *)
Definition kv_logged (s : state) : state :=
  St (st_env s) (st_threadHealthCache s)
     (st_trace s ++ [Log LWarn "rate_limit_do_not_configured"]) (st_replies s)
     (st_clock s) (st_do_faults s) (st_draws s).

(** The key of the fallback counter, and the key the Durable Object is asked
    with. *)
Definition kv_rate_key (userId : Z) (action : string) : string :=
  "ratelimit:" +:+ action +:+ ":" +:+ String_of userId.


End RateLimit.

(** * [services/topic-utils.js] *)

Module TopicUtils.
Import Env Worker.

(** [normalizeTgDescription]. *)
Definition normalizeTgDescription (description : option string) : string :=
  toLowerCase (default "" description).

Definition isTopicMissingOrDeleted (description : option string) : bool :=
  let desc := normalizeTgDescription description in
  includes desc "thread not found" ||
  includes desc "topic not found" ||
  includes desc "message thread not found" ||
  includes desc "topic deleted" ||
  includes desc "thread deleted" ||
  includes desc "forum topic not found" ||
  includes desc "topic closed permanently".

Definition isTestMessageInvalid (description : option string) : bool :=
  let desc := normalizeTgDescription description in
  includes desc "message text is empty" ||
  includes desc "bad request: message text is empty".

Inductive probe_status : Type :=
| StOk | StRedirected | StMissing | StMissingThreadId | StProbeInvalid | StUnknownError.

Record probe_result : Type := ProbeResult {
  status : probe_status;
  p_description : option string;
  actualThreadId : option Z
}.

Definition probe_status_eqb (a b : probe_status) : bool :=
  match a, b with
  | StOk, StOk | StRedirected, StRedirected | StMissing, StMissing
  | StMissingThreadId, StMissingThreadId | StProbeInvalid, StProbeInvalid
  | StUnknownError, StUnknownError => true
  | _, _ => false
  end.

(** [res.result?.message_thread_id] and [res.result?.message_id]. *)
Definition res_thread (res : tg_response) : option Z :=
  match result res with Some r => message_thread_id r | None => None end.

Definition res_message_id (res : tg_response) : option Z :=
  match result res with Some r => message_id r | None => None end.

(** The classification of [attemptOnce], from the answer to the probe. *)
Definition classify (expectedThreadId : Z) (res : tg_response) : probe_result :=
  if negb (ok res) then
    if isTopicMissingOrDeleted (description res)
    then ProbeResult StMissing (description res) None
    else if isTestMessageInvalid (description res)
    then ProbeResult StProbeInvalid (description res) None
    else ProbeResult StUnknownError (description res) None
  else
    match res_thread res with
    | None => ProbeResult StMissingThreadId None None
    | Some actual =>
        if negb (actual =? expectedThreadId)
        then ProbeResult StRedirected None (Some actual)
        else ProbeResult StOk None None
    end.

(** The probe message [attemptOnce] sends. *)
Definition probe_call (e : env) (expectedThreadId : Z) : tg_call :=
  SendMessage (SUPERGROUP_ID e) (Some expectedThreadId) "probe".

Definition attemptOnce (expectedThreadId : Z) : M probe_result :=
  let* e := get_env in
  let* res := tgCall (probe_call e expectedThreadId) in
  let probeMessageId := res_message_id res in
  (if ok res && truthy_num probeMessageId
   then
     match probeMessageId with
     | Some mid =>
         try_catch (let* _ := tgCall (DeleteMessage (SUPERGROUP_ID e) mid) in ret tt)
                   (fun _ => ret tt)
     | None => ret tt
     end
   else ret tt) ;;
  ret (classify expectedThreadId res).

Definition probeForumThread (expectedThreadId : Z) (doubleCheckOnMissingThreadId : bool)
  : M probe_result :=
  let* first := attemptOnce expectedThreadId in
  if negb (probe_status_eqb (status first) StMissingThreadId)
     || negb doubleCheckOnMissingThreadId
  then ret first
  else
    let* second := attemptOnce expectedThreadId in
    (if probe_status_eqb (status second) StMissingThreadId
     then Logger LWarn "probe_missing_thread_id_confirmed"
     else ret tt) ;;
    ret second.

(** The probe messages sent, among the events of a trace. *)
Definition is_probe_send (e : env) (expectedThreadId : Z) (ev : trace_event) : bool :=
  match ev with
  | Tg (SendMessage chat (Some th) text) _ =>
      (chat =? SUPERGROUP_ID e) && (th =? expectedThreadId) && String.eqb text "probe"
  | _ => false
  end.

Definition probe_sends (e : env) (expectedThreadId : Z) (tr : list trace_event) : nat :=
  length (List.filter (is_probe_send e expectedThreadId) tr).

(** The answer that decides a probe: the answer to the second attempt when the
    first one came back without a thread id and double-checking is on, else
    the answer to the first. *)
Definition decisive_ack (expectedThreadId : Z) (doubleCheck : bool) (s : state)
  : tg_response :=
  if probe_status_eqb (status (classify expectedThreadId (next_reply s))) StMissingThreadId
     && doubleCheck
  then next_reply (attemptOnce expectedThreadId s).2
  else next_reply s.

(** Every probe in [added] that Telegram acknowledged with a message id has
    its [deleteMessage] in [added] too. *)
Definition retracted (e : env) (expectedThreadId : Z) (added : list trace_event) : Prop :=
  forall ack mid,
    In (Tg (probe_call e expectedThreadId) ack) added ->
    ok ack = true -> res_message_id ack = Some mid -> mid <> 0 ->
    exists a, In (Tg (DeleteMessage (SUPERGROUP_ID e) mid) a) added.

(** The Telegram calls in [added] are probes of the thread and deletions in
    the supergroup, and nothing was forwarded. *)
Definition only_probe_traffic (e : env) (expectedThreadId : Z) (added : list trace_event)
  : Prop :=
  forall ev, In ev added ->
    match ev with
    | Tg c _ => c = probe_call e expectedThreadId \/
                exists mid, c = DeleteMessage (SUPERGROUP_ID e) mid
    | Log _ _ => True
    | Forwarded _ _ => False
    end.

End TopicUtils.

(** * [adapters/storage-d1.js] *)

Module StorageD1.
Import Env Worker.

(** The [data] argument of [dbUserUpdate]: the fields present, each with its
    new value. *)
Record user_update : Type := UserUpdate {
  up_thread_id : option (option Z);
  up_title : option (option string);
  up_closed : option bool;
  up_verify_state : option (option string);
  up_verify_expires_at : option (option Z);
  up_is_blocked : option bool
}.

Definition no_update : user_update := UserUpdate None None None None None None.

Definition empty_row : user_row := UserRow None None false None None false.

Definition apply_update (u : user_update) (r : user_row) : user_row :=
  UserRow (default (u_thread_id r) (up_thread_id u))
          (default (u_title r) (up_title u))
          (default (u_closed r) (up_closed u))
          (default (u_verify_state r) (up_verify_state u))
          (default (u_verify_expires_at r) (up_verify_expires_at u))
          (default (u_is_blocked r) (up_is_blocked u)).

Definition has_fields (u : user_update) : bool :=
  match u with
  | UserUpdate None None None None None None => false
  | _ => true
  end.

Definition with_db (f : d1 -> d1) : M unit :=
  with_env (fun e => match TG_BOT_DB e with
                     | Some db => set_TG_BOT_DB (f db) e
                     | None => e
                     end).

(** [ensureUserRow]: [INSERT OR IGNORE INTO users (user_id, ...)]. *)
Definition ensureUserRow (userId : Z) : M unit :=
  with_db (fun db =>
    match users db !! String_of userId with
    | Some _ => db
    | None => D1 (<[String_of userId := empty_row]> (users db)) (threads db) (messages db)
    end).

Definition dbUserGet (userId : Z) : M (option topic_rec) :=
  let* e := get_env in
  match TG_BOT_DB e with
  | None => ret None
  | Some db =>
      ret (match users db !! String_of userId with
           | Some row => Some (TopicRec (u_thread_id row) (u_title row) (u_closed row))
           | None => None
           end)
  end.

Definition dbUserUpdate (userId : Z) (data : user_update) : M unit :=
  let* e := get_env in
  if negb (hasD1 e) then ret tt
  else
    ensureUserRow userId ;;
    if negb (has_fields data) then ret tt
    else
      with_db (fun db =>
        D1 (alter (apply_update data) (String_of userId) (users db))
           (threads db) (messages db)).

Definition dbGetVerifyState (userId : Z) : M (option string) :=
  let* e := get_env in
  match TG_BOT_DB e with
  | None => ret None
  | Some db =>
      match users db !! String_of userId with
      | None => ret None
      | Some row =>
          match u_verify_state row with
          | None => ret None
          | Some st =>
              if falsy_str st then ret None
              else if String.eqb st "trusted" then ret (Some "trusted")
              else
                let expiresAt := default 0 (u_verify_expires_at row) in
                let* t := now in
                if negb (expiresAt =? 0) && (expiresAt <? t)
                then
                  dbUserUpdate userId
                    (UserUpdate None None None (Some None) (Some None) None) ;;
                  ret None
                else ret (Some st)
          end
      end
  end.

Definition dbSetVerifyState (userId : Z) (st : string) : M unit :=
  let* e := get_env in
  if negb (hasD1 e) then ret tt
  else if falsy_str st
  then dbUserUpdate userId (UserUpdate None None None (Some None) (Some None) None)
  else
    let* t := now in
    let expiresAt :=
      if String.eqb st "trusted" then None
      else Some (t + CONFIG.VERIFIED_EXPIRE_SECONDS * 1000) in
    dbUserUpdate userId (UserUpdate None None None (Some (Some st)) (Some expiresAt) None).

Definition dbIsBanned (userId : Z) : M bool :=
  let* e := get_env in
  match TG_BOT_DB e with
  | None => ret false
  | Some db =>
      ret (match users db !! String_of userId with
           | Some row => u_is_blocked row
           | None => false
           end)
  end.

Definition dbThreadPut (threadId : Z) (userId : string) : M unit :=
  with_db (fun db => D1 (users db) (<[threadId := userId]> (threads db)) (messages db)).

Definition dbThreadDelete (threadId : Z) : M unit :=
  with_db (fun db => D1 (users db) (delete threadId (threads db)) (messages db)).

(** [SELECT user_id FROM users WHERE thread_id = ?] and [.first()]. *)
Definition user_of_thread (threadId : Z) (db : d1) : option string :=
  match List.find (fun kv : string * user_row =>
                     match u_thread_id kv.2 with
                     | Some t => t =? threadId
                     | None => false
                     end) (map_to_list (users db)) with
  | Some kv => Some kv.1
  | None => None
  end.

Definition dbThreadGetUserId (threadId : Z) : M (option string) :=
  let* e := get_env in
  match TG_BOT_DB e with
  | None => ret None
  | Some db =>
      match threads db !! threadId with
      | Some uid => if falsy_str uid then ret None else ret (Some uid)
      | None =>
          match user_of_thread threadId db with
          | Some uid =>
              if falsy_str uid then ret None
              else dbThreadPut threadId uid ;; ret (Some uid)
          | None => ret None
          end
      end
  end.

Definition dbMessageMapPut (sourceChatId : Z) (sourceMsgId : Z) (targetChatId : Z)
    (targetMsgId : option Z) : M unit :=
  let* e := get_env in
  if negb (hasD1 e) then ret tt
  else
    let* t := now in
    with_db (fun db =>
      D1 (users db) (threads db)
         (<[(String_of sourceChatId, sourceMsgId) :=
              (String_of targetChatId, targetMsgId, t)]> (messages db))).

(** [dbSetBanned]. *)
Definition dbSetBanned (userId : Z) (isBanned : bool) : M unit :=
  let* e := get_env in
  if negb (hasD1 e) then ret tt
  else dbUserUpdate userId (UserUpdate None None None None None (Some isBanned)).

(** The row of [userId] in [users], and [empty_row] when there is none: the
    row [dbUserUpdate] works on after [ensureUserRow]. *)
Definition row_of (userId : Z) (db : d1) : user_row :=
  default empty_row (users db !! String_of userId).

End StorageD1.

(** * [services/verification.js] *)

Module Verification.
Import Env Worker.

(** A Telegram user, as far as the code reads it. *)
Record tg_user : Type := TgUser {
  tu_id : Z;
  tu_first_name : option string;
  tu_last_name : option string;
  tu_username : option string
}.

(** A message of a private chat. *)
Record message : Type := Message {
  msg_message_id : option Z;
  msg_chat_id : Z;
  msg_from : tg_user;
  msg_text : option string;
  msg_caption : option string;
  msg_media_group_id : option string
}.

(** A callback query. *)
Record callback_query : Type := CallbackQuery {
  q_id : string;
  q_data : string;
  q_from : tg_user;
  q_message_id : Z
}.

Definition user_challenge_key (userId : Z) : string :=
  "user_challenge:" +:+ String_of userId.

Definition chal_key (verifyId : string) : string := "chal:" +:+ verifyId.

Definition forwarded_key (userId pendingId : Z) : string :=
  "forwarded:" +:+ String_of userId +:+ ":" +:+ String_of pendingId.

(** [safeGetJSON(env, key, null)]: the stored object, or [null] for a missing
    key and, with a warning, for a value that is not an object. *)
Definition safeGetJSON (k : string) : M (option kv_value) :=
  let* v := kvGet k in
  match v with
  | None => ret None
  | Some (VStr _) | Some (VNum _) => Logger LWarn "kv_invalid_type" ;; ret None
  | Some obj => ret (Some obj)
  end.

Definition as_challenge (v : option kv_value) : option challenge :=
  match v with Some (VChallenge c) => Some c | _ => None end.

(** [l.includes(m)]. *)
Definition includes_id (l : list Z) (m : Z) : bool := existsb (Z.eqb m) l.

(** The pending list of a state: [state.pending_ids.slice()] when it is an
    array, else [[state.pending]] when that is set, else [[]]. *)
Definition current_pending (st : challenge) : list Z :=
  match pending_ids st with
  | Some l => l
  | None =>
      match pending st with
      | Some p => if p =? 0 then [] else [p]
      | None => []
      end
  end.

(** [if (l.length > MAX) l = l.slice(l.length - MAX)]. *)
Definition trim_pending (l : list Z) : list Z :=
  if (CONFIG.PENDING_MAX_MESSAGES <? length l)%nat
  then drop (length l - CONFIG.PENDING_MAX_MESSAGES) l
  else l.

(** [pendingIds.push(pendingMsgId)] and the trim. *)
Definition push_pending (l : list Z) (m : Z) : list Z := trim_pending (l ++ [m]).

(** [arr.indexOf(x)]. *)
Fixpoint indexOf (l : list string) (x : string) (i : Z) : Z :=
  match l with
  | [] => -1
  | y :: l' => if String.eqb y x then i else indexOf l' x (i + 1)
  end.

(** The rows of the keyboard: [buttons.slice(i, i + cols)] for
    [i = 0, cols, 2 cols, ...]. *)
Fixpoint chunk_rows {A} (fuel cols : nat) (l : list A) : list (list A) :=
  match fuel, l with
  | _, [] => []
  | O, _ => []
  | S fuel', _ => take cols l :: chunk_rows fuel' cols (drop cols l)
  end.

Fixpoint buttons_of (verifyId : string) (opts : list string) (idx : Z)
  : list (string * string) :=
  match opts with
  | [] => []
  | opt :: rest =>
      (opt, "verify:" +:+ verifyId +:+ ":" +:+ String_of idx)
        :: buttons_of verifyId rest (idx + 1)
  end.

Definition too_frequent_text : string := "⚠️ 验证请求过于频繁，请5分钟后再试。".

(** ** [sendVerificationChallengeImpl] *)

(** The branch for a user who already has a challenge: queue the message on
    it.  Returns [true] when the function is done, [false] when the stored
    challenge is unusable and a new one has to be made. *)
Definition queue_on_existing (userId : Z) (pendingMsgId : option Z)
    (existingChallenge : option kv_value) : M bool :=
  match existingChallenge with
  | Some (VStr verifyId) =>
      if falsy_str verifyId then ret false
      else
        let chalKey := chal_key verifyId in
        let* stored := safeGetJSON chalKey in
        match as_challenge stored with
        | Some st =>
            if match ch_userId st with Some u => u =? userId | None => false end
            then
              (if truthy_num pendingMsgId
               then
                 let m := default 0 pendingMsgId in
                 let pendingIds := current_pending st in
                 if includes_id pendingIds m then ret tt
                 else
                   kvPut chalKey
                     (VChallenge (Challenge (answerIndex st) (options st)
                                    (Some (push_pending pendingIds m)) None (ch_userId st)))
               else ret tt) ;;
              Logger LDebug "verification_duplicate_skipped" ;;
              ret true
            else kvDelete (user_challenge_key userId) ;; ret false
        | None => kvDelete (user_challenge_key userId) ;; ret false
        end
  | Some _ => kvDelete (user_challenge_key userId) ;; ret false
  | None => ret false
  end.

Definition sendVerificationChallengeImpl
    (checkRateLimit : Z -> string -> Z -> Z -> M RateLimitDO.check_result)
    (userId : Z) (pendingMsgId : option Z) : M unit :=
  let* existingChallenge := kvGet (user_challenge_key userId) in
  let* done := queue_on_existing userId pendingMsgId existingChallenge in
  if done then ret tt
  else
    let* verifyLimit := checkRateLimit userId "verify" CONFIG.RATE_LIMIT_VERIFY 300 in
    if negb (RateLimitDO.allowed verifyLimit)
    then let* _ := tgCall (SendMessage userId None too_frequent_text) in ret tt
    else
      let* d := next_draw in
      let verifyId := d_verifyId d in
      let answer := indexOf (d_options d) (d_correct d) 0 in
      let st := Challenge answer (d_options d)
                  (Some (if truthy_num pendingMsgId then [default 0 pendingMsgId] else []))
                  None (Some userId) in
      kvPut (chal_key verifyId) (VChallenge st) ;;
      kvPut (user_challenge_key userId) (VStr verifyId) ;;
      Logger LInfo "verification_sent" ;;
      let buttons := buttons_of verifyId (d_options d) 0 in
      let keyboard := chunk_rows (length buttons) CONFIG.BUTTON_COLUMNS buttons in
      let* _ := tgCall (SendKeyboard userId (d_question d) keyboard) in
      ret tt.

(** The function as [index.js] wires it. *)
Definition sendVerificationChallenge (userId : Z) (pendingMsgId : option Z) : M unit :=
  sendVerificationChallengeImpl RateLimit.checkRateLimit userId pendingMsgId.

(** ** [handleCallbackQueryImpl] *)

(** [s.split(':')]. *)
Fixpoint split_colon (s : string) (cur : string) : list string :=
  match s with
  | EmptyString => [cur]
  | String c s' =>
      if Ascii.eqb c ":"%char then cur :: split_colon s' ""
      else split_colon s' (cur +:+ String c "")
  end.

Definition digit_of (c : Ascii.ascii) : option Z :=
  let n := Ascii.nat_of_ascii c in
  if ((48 <=? n)%nat && (n <=? 57)%nat)%bool then Some (Z.of_nat n - 48) else None.

Fixpoint digits (s : string) (acc : option Z) : option Z :=
  match s with
  | EmptyString => acc
  | String c s' =>
      match digit_of c with
      | Some d => digits s' (Some (default 0 acc * 10 + d))
      | None => acc
      end
  end.

(** [parseInt(s)] for decimal text: an optional sign, then the leading digits;
    [None] is [NaN]. *)
Definition parseInt (s : string) : option Z :=
  match s with
  | String "-"%char s' => option_map Z.opp (digits s' None)
  | String "+"%char s' => digits s' None
  | _ => digits s None
  end.

(** The pending messages of a state that has some. *)
Definition has_pending (st : challenge) : bool :=
  match pending_ids st with
  | Some l => negb (length l =? 0)%nat || truthy_num (pending st)
  | None => truthy_num (pending st)
  end.

(** The loop over the pending ids.  [forwardToTopic] is the dependency the
    caller passes in; the trace gets [Forwarded] when it has returned. *)
Fixpoint replay_pending (forwardToTopic : message -> M unit) (from : tg_user)
    (userId : Z) (pendingIds : list Z) (forwardedCount : Z) : M Z :=
  match pendingIds with
  | [] => ret forwardedCount
  | pendingId :: rest =>
      if pendingId =? 0
      then replay_pending forwardToTopic from userId rest forwardedCount
      else
        let forwardedKey := forwarded_key userId pendingId in
        let* alreadyForwarded := kvGet forwardedKey in
        if kv_truthy alreadyForwarded
        then
          Logger LInfo "message_forward_duplicate_skipped" ;;
          replay_pending forwardToTopic from userId rest forwardedCount
        else
          let fakeMsg := Message (Some pendingId) userId from None None None in
          forwardToTopic fakeMsg ;;
          emit (Forwarded userId pendingId) ;;
          kvPut forwardedKey (VStr "1") ;;
          replay_pending forwardToTopic from userId rest (forwardedCount + 1)
  end.

(** The [if (hasPending)] block. *)
Definition replay (forwardToTopic : message -> M unit) (from : tg_user)
    (userId : Z) (st : challenge) : M unit :=
  if has_pending st
  then
    try_catch
      (let pendingIds := trim_pending (current_pending st) in
       let* forwardedCount := replay_pending forwardToTopic from userId pendingIds 0 in
       if forwardedCount >? 0
       then let* _ := tgCall (SendMessage userId None
                                ("📩 刚才的 " +:+ String_of forwardedCount
                                 +:+ " 条消息已帮您送达。")) in ret tt
       else ret tt)
      (fun _ =>
         Logger LError "pending_message_forward_failed" ;;
         let* _ := tgCall (SendMessage userId None
                             "⚠️ 自动发送失败，请重新发送您的消息。") in ret tt)
  else ret tt.

Definition alert (q : callback_query) (text : string) : M unit :=
  let* _ := tgCall (AnswerCallbackQuery (q_id q) text true) in ret tt.

Definition handleCallbackQueryImpl (forwardToTopic : message -> M unit)
    (query : callback_query) : M unit :=
  try_catch
    (let data := q_data query in
     if negb (startsWith data "verify:") then ret tt
     else
       match split_colon data "" with
       | [_; verifyId; idx] =>
           let selectedIndex := parseInt idx in
           let userId := tu_id (q_from query) in
           let* stateStr := kvGet (chal_key verifyId) in
           if negb (kv_truthy stateStr) then alert query "❌ 验证已过期，请重发消息"
           else
             match as_challenge stateStr with
             | None => alert query "❌ 数据错误"
             | Some st =>
                 if match ch_userId st with
                    | Some u => negb (u =? 0) && negb (u =? userId)
                    | None => false
                    end
                 then alert query "❌ 无效的验证"
                 else
                   match selectedIndex with
                   | None => alert query "❌ 无效选项"
                   | Some i =>
                       if (i <? 0) || (i >=? Z.of_nat (length (options st)))
                       then alert query "❌ 无效选项"
                       else if i =? answerIndex st
                       then
                         let* _ := tgCall (AnswerCallbackQuery (q_id query) "✅ 验证通过" false) in
                         Logger LInfo "verification_passed" ;;
                         let* e := get_env in
                         (if hasD1 e
                          then StorageD1.dbSetVerifyState userId "1"
                          else kvPut ("verified:" +:+ String_of userId) (VStr "1")) ;;
                         kvDelete ("needs_verify:" +:+ String_of userId) ;;
                         kvDelete (chal_key verifyId) ;;
                         kvDelete (user_challenge_key userId) ;;
                         let* _ := tgCall (EditMessageText userId (q_message_id query)
                                             "✅ **验证成功**\n\n您现在可以自由对话了。") in
                         replay forwardToTopic (q_from query) userId st
                       else
                         Logger LInfo "verification_failed" ;;
                         alert query "❌ 答案错误"
                   end
             end
       | _ => ret tt
       end)
    (fun _ =>
       Logger LError "callback_query_error" ;;
       alert query "⚠️ 系统错误，请重试").

(** ** The pending set *)

(** The pending list of a challenge is duplicate-free and within the bound. *)
Definition pending_ok (c : challenge) : Prop :=
  match pending_ids c with
  | Some l => List.NoDup l /\ (length l <= CONFIG.PENDING_MAX_MESSAGES)%nat
  | None => True
  end.

(** Every challenge in the store has a good pending list. *)
Definition store_ok (kv : gmap string kv_value) : Prop :=
  forall k c, kv !! k = Some (VChallenge c) -> pending_ok c.

(** How often the trace says that message [mid] of user [uid] was forwarded. *)
Definition is_forwarded (uid mid : Z) (ev : trace_event) : bool :=
  match ev with
  | Forwarded u m => (u =? uid) && (m =? mid)
  | _ => false
  end.

Definition forwards (uid mid : Z) (tr : list trace_event) : nat :=
  length (List.filter (is_forwarded uid mid) tr).



(** The key families [sendVerificationChallenge] writes. *)
Definition challenge_family (k : string) : bool :=
  has_prefix "user_challenge:" k || has_prefix "chal:" k
  || has_prefix "ratelimit:" k.

(** [s'] differs from [s] at most in the keys of the families [P] of the
    store, in the Durable Objects, in the trace apart from its [Forwarded]
    events, and in what was consumed of the run's inputs. *)
Definition frame (P : string -> bool) (s s' : state) : Prop :=
  TG_BOT_DB (st_env s') = TG_BOT_DB (st_env s) /\
  SUPERGROUP_ID (st_env s') = SUPERGROUP_ID (st_env s) /\
  st_threadHealthCache s' = st_threadHealthCache s /\
  (forall k, P k = false -> TOPIC_MAP (st_env s') !! k = TOPIC_MAP (st_env s) !! k) /\
  (forall uid mid, forwards uid mid (st_trace s') = forwards uid mid (st_trace s)).

(** A computation that only ever moves inside the frame [P], and does not
    throw. *)
Definition framed {A} (P : string -> bool) (m : M A) : Prop :=
  forall s, frame P s (m s).2 /\ exists a, (m s).1 = Returned a.






(** The events that are not [Forwarded]. *)
Definition not_forwarded (ev : trace_event) : Prop :=
  match ev with Forwarded _ _ => False | _ => True end.

(** A property of the store, as a property of the state. *)
Definition on_store (J : gmap string kv_value -> Prop) (s : state) : Prop :=
  J (TOPIC_MAP (st_env s)).

(** ** Callback data *)

(** [`verify:${verifyId}:${idx}`], the callback data of a button. *)
Definition callback_data (verifyId : string) (idx : Z) : string :=
  "verify:" +:+ verifyId +:+ ":" +:+ String_of idx.

(** The string has no colon. *)
Fixpoint no_colon (s : string) : bool :=
  match s with
  | EmptyString => true
  | String c s' => negb (Ascii.eqb c ":"%char) && no_colon s'
  end.

(** [secureRandomId(length)] of [core/random.js], on the bytes that
    [crypto.getRandomValues] delivered: [chars[b % chars.length]] for each. *)
Definition id_chars : string := "abcdefghijklmnopqrstuvwxyz0123456789".

Definition id_char (b : N) : Ascii.ascii :=
  default "a"%char (String.get (N.to_nat (b mod 36)) id_chars).

Fixpoint secureRandomId (bytes : list N) : string :=
  match bytes with
  | [] => EmptyString
  | b :: rest => String (id_char b) (secureRandomId rest)
  end.

(** The user passes as verified: the row of [users] says so in D1 mode (a
    state other than [trusted] with its expiry), the key [verified:<userId>]
    otherwise. *)
Definition verified_until (userId : Z) (expiry : option Z) (e : env) : Prop :=
  match TG_BOT_DB e with
  | Some db =>
      exists row, users db !! String_of userId = Some row /\
                  u_verify_state row = Some "1" /\ u_verify_expires_at row = expiry
  | None => TOPIC_MAP e !! ("verified:" +:+ String_of userId) = Some (VStr "1")
  end.

(** The callback may answer the challenge: it has no owner, or the owner is
    the sender. *)
Definition owner_ok (st : challenge) (userId : Z) : bool :=
  match ch_userId st with
  | Some u => (u =? 0) || (u =? userId)
  | None => true
  end.

End Verification.

(** * [services/message-flow.js] *)

Module MessageFlow.
Import Env Worker StorageD1 TopicUtils Verification.

Definition user_key (userId : Z) : string := "user:" +:+ String_of userId.
Definition verified_key (userId : Z) : string := "verified:" +:+ String_of userId.
Definition needs_verify_key (userId : Z) : string := "needs_verify:" +:+ String_of userId.
Definition retry_key (userId : Z) : string := "retry:" +:+ String_of userId.
Definition banned_key (userId : Z) : string := "banned:" +:+ String_of userId.
Definition thread_key (threadId : Z) : string := "thread:" +:+ String_of threadId.
Definition thread_ok_key (threadId : Z) : string := "thread_ok:" +:+ String_of threadId.

(** [${x}] for an optional number. *)
Definition String_of_opt (x : option Z) : string :=
  match x with Some n => String_of n | None => "undefined" end.

Definition msg_map_key (userId : Z) (messageId : option Z) : string :=
  "msg_map:" +:+ String_of userId +:+ ":" +:+ String_of_opt messageId.

(** [x || null] for an optional number. *)
Definition or_null (x : option Z) : option Z :=
  if truthy_num x then x else None.

Definition status_name (st : probe_status) : string :=
  match st with
  | StOk => "ok"
  | StRedirected => "redirected"
  | StMissing => "missing"
  | StMissingThreadId => "missing_thread_id"
  | StProbeInvalid => "probe_invalid"
  | StUnknownError => "unknown_error"
  end.


(** ** [resetUserVerificationAndRequireReverifyImpl] *)
Definition resetUserVerificationAndRequireReverifyImpl
    (sendVerificationChallenge : Z -> option Z -> M unit)
    (userId : Z) (userKey : option string) (oldThreadId : option Z)
    (pendingMsgId : option Z) (reason : string) : M unit :=
  let* e := get_env in
  (if hasD1 e
   then dbUserUpdate userId (UserUpdate None None None (Some None) (Some None) None)
   else kvDelete (verified_key userId)) ;;
  kvPut (needs_verify_key userId) (VStr "1") ;;
  kvDelete (retry_key userId) ;;
  (if hasD1 e
   then dbUserUpdate userId (UserUpdate (Some None) (Some None) (Some false) None None None)
   else
     match userKey with
     | Some k => if falsy_str k then ret tt else kvDelete k
     | None => ret tt
     end) ;;
  match oldThreadId with
  | Some old =>
      (if hasD1 e then dbThreadDelete old else kvDelete (thread_key old)) ;;
      kvDelete (thread_ok_key old) ;;
      with_cache (delete old)
  | None => ret tt
  end ;;
  Logger LInfo "verification_reset_due_to_topic_loss" ;;
  sendVerificationChallenge userId (or_null pendingMsgId).

(** The function as [index.js] wires it. *)
Definition resetUserVerificationAndRequireReverify
    (userId : Z) (userKey : option string) (oldThreadId : option Z)
    (pendingMsgId : option Z) (reason : string) : M unit :=
  resetUserVerificationAndRequireReverifyImpl sendVerificationChallenge
    userId userKey oldThreadId pendingMsgId reason.

(** ** String helpers of the router: [trim], [getFilterText] *)

Definition is_space (c : Ascii.ascii) : bool :=
  let n := Ascii.nat_of_ascii c in
  ((n =? 32) || ((9 <=? n) && (n <=? 13)))%nat.

Fixpoint trim_left (s : string) : string :=
  match s with
  | String c s' => if is_space c then trim_left s' else s
  | EmptyString => EmptyString
  end.

Fixpoint trim_right (s : string) : string :=
  match s with
  | EmptyString => EmptyString
  | String c s' =>
      match trim_right s' with
      | EmptyString => if is_space c then EmptyString else String c EmptyString
      | t => String c t
      end
  end.

(** [s.trim()], on the ASCII white space. *)
Definition trim (s : string) : string := trim_right (trim_left s).

(** [getFilterText]. *)
Definition getFilterText (msg : message) : string :=
  match msg_text msg with
  | Some t => if falsy_str t then default "" (msg_caption msg) else t
  | None => default "" (msg_caption msg)
  end.

(** [s && ...] for an optional string. *)
Definition truthy_str (x : option string) : bool :=
  match x with Some s => negb (falsy_str s) | None => false end.

Definition rec_thread (r : option topic_rec) : option Z :=
  match r with
  | Some r => or_null (thread_id r)
  | None => None
  end.

Section ForwardToTopic.

(** The dependencies that are passed in and are not modelled further: topic
    creation, the welcome card, media groups, the keyword filter. *)
Variable getOrCreateUserTopicRec : tg_user -> string -> Z -> M (option topic_rec).
Variable sendWelcomeCard : Z -> Z -> tg_user -> M unit.
Variable handleMediaGroup : message -> Z -> M unit.
Variable matchKeyword : string -> M (option string).

(** [if (copyResult.result?.message_id) try { deleteMessage } catch {}]. *)
Definition delete_copy (e : env) (copyResult : tg_response) : M unit :=
  match res_message_id copyResult with
  | Some mid =>
      if mid =? 0 then ret tt
      else try_catch (let* _ := tgCall (DeleteMessage (SUPERGROUP_ID e) mid) in ret tt)
                     (fun _ => ret tt)
  | None => ret tt
  end.

(** The health check of a bound thread.  Returns [true] when the thread was
    found lost and the function has returned after the reset. *)
Definition health_check (msg : message) (userId : Z) (key : string) (threadId : Z)
  : M bool :=
  let cacheKey := threadId in
  let* t := now in
  let* cached := (fun s => (Returned (st_threadHealthCache s !! cacheKey), s)) in
  let withinTTL :=
    match cached with
    | Some (ts, _) => t - ts <? CONFIG.THREAD_HEALTH_TTL_MS
    | None => false
    end in
  if withinTTL then ret false
  else
    let kvHealthKey := thread_ok_key threadId in
    let* kvHealthOk := kvGet kvHealthKey in
    if kv_is_str kvHealthOk "1"
    then with_cache (<[cacheKey := (t, true)]>) ;; ret false
    else
      let* probe := probeForumThread threadId true in
      match status probe with
      | StRedirected | StMissing | StMissingThreadId =>
          resetUserVerificationAndRequireReverify userId (Some key) (Some threadId)
            (msg_message_id msg) ("health_check:" +:+ status_name (status probe)) ;;
          ret true
      | StProbeInvalid =>
          Logger LWarn "topic_health_probe_invalid_message" ;;
          with_cache (<[cacheKey := (t, true)]>) ;;
          kvPut kvHealthKey (VStr "1") ;;
          ret false
      | StUnknownError =>
          Logger LWarn "topic_test_failed_unknown" ;;
          ret false
      | StOk =>
          kvDelete (retry_key userId) ;;
          with_cache (<[cacheKey := (t, true)]>) ;;
          kvPut kvHealthKey (VStr "1") ;;
          ret false
      end.

(** The end of the function: the record of the message mapping. *)
Definition record_mapping (msg : message) (userId : Z) (copyResult : tg_response)
  : M unit :=
  let* e := get_env in
  match result copyResult with
  | None => throw (Error "TypeError")
  | Some r =>
      if hasD1 e
      then dbMessageMapPut userId (default 0 (msg_message_id msg)) (SUPERGROUP_ID e)
             (message_id r)
      else
        let* t := now in
        kvPut (msg_map_key userId (msg_message_id msg))
              (VMsgMap (String_of (SUPERGROUP_ID e)) (message_id r) t)
  end.

(** The copy of the message into the thread, and what follows from its
    acknowledgment. *)
Definition forward_copy (msg : message) (userId : Z) (key : string) (threadId : Z)
  : M unit :=
  let* e := get_env in
  let* copyResult :=
    tgCall (CopyMessage (SUPERGROUP_ID e) userId (msg_message_id msg) (Some threadId)) in
  let resThreadId := res_thread copyResult in
  if ok copyResult &&
     match resThreadId with Some r => negb (r =? threadId) | None => false end
  then
    (* the copy went to another thread *)
    Logger LWarn "forward_redirected_to_general" ;;
    delete_copy e copyResult ;;
    resetUserVerificationAndRequireReverify userId (Some key) (Some threadId)
      (msg_message_id msg) "forward_redirected_to_general"
  else
    let* lost :=
      if ok copyResult && match resThreadId with None => true | Some _ => false end
      then
        let* probe := probeForumThread threadId true in
        if negb (probe_status_eqb (status probe) StOk)
        then
          Logger LWarn "forward_suspected_redirect_or_missing" ;;
          delete_copy e copyResult ;;
          resetUserVerificationAndRequireReverify userId (Some key) (Some threadId)
            (msg_message_id msg)
            ("forward_missing_thread_id:" +:+ status_name (status probe)) ;;
          ret true
        else ret false
      else ret false in
    if lost then ret tt
    else if negb (ok copyResult)
    then
      let desc := normalizeTgDescription (description copyResult) in
      if isTopicMissingOrDeleted (Some desc)
      then
        Logger LWarn "forward_failed_topic_missing" ;;
        resetUserVerificationAndRequireReverify userId (Some key) (Some threadId)
          (msg_message_id msg) "forward_failed_topic_missing"
      else if includes desc "chat not found"
      then throw (Error ("群组ID错误: " +:+ String_of (SUPERGROUP_ID e)))
      else if includes desc "not enough rights"
      then throw (Error "机器人权限不足 (需 Manage Topics)")
      else
        let* _ := tgCall (SendMessage userId None "❌ 消息发送失败，请稍后重试。") in
        ret tt
    else record_mapping msg userId copyResult.

(** The function from the health check on, for a user bound to [threadId]. *)
Definition forward_bound (msg : message) (userId : Z) (key : string) (threadId : Z)
  : M unit :=
  let* lost := health_check msg userId key threadId in
  if lost then ret tt
  else if truthy_str (msg_media_group_id msg)
  then handleMediaGroup msg threadId
  else forward_copy msg userId key threadId.

(** The mapping from the thread back to the user, added when it is missing. *)
Definition backfill_thread_mapping (userId threadId : Z) : M unit :=
  let* e := get_env in
  if hasD1 e
  then
    let* mappedUser := dbThreadGetUserId threadId in
    match mappedUser with
    | Some _ => ret tt
    | None => dbThreadPut threadId (String_of userId)
    end
  else
    let* mappedUser := kvGet (thread_key threadId) in
    if kv_truthy mappedUser then ret tt
    else kvPut (thread_key threadId) (VStr (String_of userId)).

Definition is_start (msg : message) : bool :=
  match msg_text msg with
  | Some t => negb (falsy_str t) && String.eqb (trim t) "/start"
  | None => false
  end.

(** ** [forwardToTopicImpl] *)
Definition forwardToTopicImpl (msg : message) : M unit :=
  let userId := msg_chat_id msg in
  let key := user_key userId in
  let* rateLimit :=
    RateLimit.checkRateLimit userId "message" CONFIG.RATE_LIMIT_MESSAGE
      CONFIG.RATE_LIMIT_WINDOW in
  if negb (RateLimitDO.allowed rateLimit)
  then let* _ := tgCall (SendMessage userId None "⚠️ 发送过于频繁，请稍后再试。") in ret tt
  else if match msg_text msg with
          | Some t => negb (falsy_str t) && startsWith t "/"
                      && negb (String.eqb (trim t) "/start")
          | None => false
          end
  then ret tt
  else
    let* e := get_env in
    let* isBanned :=
      if hasD1 e then dbIsBanned userId
      else let* v := kvGet (banned_key userId) in ret (kv_truthy v) in
    if isBanned then ret tt
    else
      let* verified :=
        if hasD1 e
        then let* v := dbGetVerifyState userId in ret (truthy_str v)
        else let* v := kvGet (verified_key userId) in ret (kv_truthy v) in
      if negb verified
      then sendVerificationChallenge userId
             (if is_start msg then None else msg_message_id msg)
      else
        let* needsVerify := kvGet (needs_verify_key userId) in
        if kv_truthy needsVerify
        then sendVerificationChallenge userId (or_null (msg_message_id msg))
        else
          let filterText := getFilterText msg in
          let* hitKeyword :=
            if falsy_str filterText then ret None else matchKeyword filterText in
          if truthy_str hitKeyword
          then
            let* _ := tgCall (SendMessage userId None "⚠️ 该消息触发过滤条件，已被拦截。") in
            Logger LInfo "keyword_blocked"
          else
            let* rec :=
              if hasD1 e then dbUserGet userId
              else
                let* v := safeGetJSON key in
                ret (match v with Some (VTopicRec r) => Some r | _ => None end) in
            if match rec with Some r => closed r | None => false end
            then let* _ := tgCall (SendMessage userId None "🚫 当前对话已被管理员关闭。") in ret tt
            else
              let* retryStr := kvGet (retry_key userId) in
              let retryCount := RateLimit.kv_count retryStr in
              if retryCount >? CONFIG.MAX_RETRY_ATTEMPTS
              then
                let* _ := tgCall (SendMessage userId None "❌ 系统繁忙，请稍后再试。") in
                kvDelete (retry_key userId)
              else
                let* threadId :=
                  match rec_thread rec with
                  | Some t => ret t
                  | None =>
                      let* created := getOrCreateUserTopicRec (msg_from msg) key userId in
                      match rec_thread created with
                      | None => throw (Error "创建话题失败")
                      | Some t => sendWelcomeCard t userId (msg_from msg) ;; ret t
                      end
                  end in
                backfill_thread_mapping userId threadId ;;
                forward_bound msg userId key threadId.

End ForwardToTopic.

(** ** The [Lost] transition *)




(** The state with another database, store or cache. *)
Definition set_db (db : d1) (s : state) : state :=
  St (set_TG_BOT_DB db (st_env s)) (st_threadHealthCache s) (st_trace s) (st_replies s)
     (st_clock s) (st_do_faults s) (st_draws s).

Definition set_kv (kv : gmap string kv_value) (s : state) : state :=
  St (set_TOPIC_MAP kv (st_env s)) (st_threadHealthCache s) (st_trace s) (st_replies s)
     (st_clock s) (st_do_faults s) (st_draws s).

(** The table [users] after [ensureUserRow]. *)
Definition ensured (userId : Z) (db : d1) : gmap string user_row :=
  match users db !! String_of userId with
  | Some _ => users db
  | None => <[String_of userId := empty_row]> (users db)
  end.

(** ** The gates of the router *)

(** The messages copied into the supergroup, among the events of a trace. *)
Definition is_copy (ev : trace_event) : bool :=
  match ev with
  | Tg (CopyMessage _ _ _ _) _ => true
  | _ => false
  end.

Definition copies (tr : list trace_event) : list trace_event := List.filter is_copy tr.

(** A computation that copies no message, however it ends. *)
Definition copy_free {A} (m : M A) : Prop :=
  forall s, copies (st_trace (m s).2) = copies (st_trace s).

(** The user is blocked: the row of [users] in D1 mode, the key
    [banned:<userId>] otherwise. *)
Definition is_banned (userId : Z) (e : env) : bool :=
  match TG_BOT_DB e with
  | Some db =>
      match users db !! String_of userId with
      | Some row => u_is_blocked row
      | None => false
      end
  | None => kv_truthy (TOPIC_MAP e !! banned_key userId)
  end.

(** No verification is recorded for the user: no row or no state in D1 mode,
    no key [verified:<userId>] otherwise. *)
Definition never_verified (userId : Z) (e : env) : bool :=
  match TG_BOT_DB e with
  | Some db =>
      match users db !! String_of userId with
      | Some row =>
          match u_verify_state row with
          | Some st => falsy_str st
          | None => true
          end
      | None => true
      end
  | None => negb (kv_truthy (TOPIC_MAP e !! verified_key userId))
  end.


(** The user's conversation is closed: the row of [users] in D1 mode, the
    record under [user:<userId>] otherwise. *)
Definition topic_closed (userId : Z) (e : env) : bool :=
  match TG_BOT_DB e with
  | Some db =>
      match users db !! String_of userId with
      | Some row => u_closed row
      | None => false
      end
  | None =>
      match TOPIC_MAP e !! user_key userId with
      | Some (VTopicRec r) => closed r
      | _ => false
      end
  end.

(** A dependency that only reads: it returns, leaves the bindings as they
    are and copies nothing. *)
Definition read_only {A} (m : M A) : Prop :=
  forall s, st_env (m s).2 = st_env s /\
            copies (st_trace (m s).2) = copies (st_trace s) /\
            exists a, (m s).1 = Returned a.

End MessageFlow.

(** * [services/message-flow.js]: the title of a topic *)

(** [buildTopicTitleImpl] works on the characters of the sender's names, so
    here a JavaScript string is the list of its UTF-16 code units, which is
    what [substring], [trim] and the regular expressions without the [u] flag
    operate on. *)
Module TopicTitle.
Import Worker.

Definition jsstring : Type := list N.

(** The names of [from]; [None] is an absent field. *)
Record sender : Type := Sender {
  first_name : option jsstring;
  last_name : option jsstring;
  username : option jsstring
}.

(** White space and line terminators: what [trim] strips and [\s] matches. *)
Definition is_space (c : N) : bool :=
  (((9 <=? c) && (c <=? 13)) || (c =? 32) || (c =? 160) || (c =? 5760)
   || ((8192 <=? c) && (c <=? 8202)) || (c =? 8232) || (c =? 8233) || (c =? 8239)
   || (c =? 8287) || (c =? 12288) || (c =? 65279))%N.

(** [[\u0000-\u001F\u007F-\u009F]]. *)
Definition is_control (c : N) : bool :=
  ((c <=? 31) || ((127 <=? c) && (c <=? 159)))%N.

(** [\w]: [[A-Za-z0-9_]]. *)
Definition is_word (c : N) : bool :=
  (((65 <=? c) && (c <=? 90)) || ((97 <=? c) && (c <=? 122))
   || ((48 <=? c) && (c <=? 57)) || (c =? 95))%N.

Fixpoint trimStart (s : jsstring) : jsstring :=
  match s with
  | c :: r => if is_space c then trimStart r else s
  | [] => []
  end.

Definition trimEnd (s : jsstring) : jsstring := rev (trimStart (rev s)).

Definition trim (s : jsstring) : jsstring := trimEnd (trimStart s).

(** [s.substring(0, n)]. *)
Definition substring0 (n : nat) (s : jsstring) : jsstring := firstn n s.

(** [s.replace(/\s+/g, ' ')]: every maximal run of white space becomes one
    space; [in_run] tells that the previous character was white space. *)
Fixpoint collapse_spaces (in_run : bool) (s : jsstring) : jsstring :=
  match s with
  | [] => []
  | c :: r =>
      if is_space c
      then if in_run then collapse_spaces true r else 32%N :: collapse_spaces true r
      else c :: collapse_spaces false r
  end.

(** [x || ''] for a name. *)
Definition or_empty (x : option jsstring) : jsstring := default [] x.

(** ["User"] and [" @"]. *)
Definition User : jsstring := [85; 115; 101; 114]%N.
Definition at_prefix : jsstring := [32; 64]%N.

Definition buildTopicTitleImpl (from : sender) : jsstring :=
  let firstName := substring0 CONFIG.MAX_NAME_LENGTH (trim (or_empty (first_name from))) in
  let lastName := substring0 CONFIG.MAX_NAME_LENGTH (trim (or_empty (last_name from))) in
  let username :=
    match username from with
    | Some (c :: u) => substring0 20 (List.filter is_word (c :: u))
    | _ => []
    end in
  let cleanName :=
    trim (collapse_spaces false
            (List.filter (fun c => negb (is_control c)) (firstName ++ [32%N] ++ lastName))) in
  let name := match cleanName with [] => User | _ => cleanName end in
  let usernameStr := match username with [] => [] | _ => at_prefix ++ username end in
  substring0 CONFIG.MAX_TITLE_LENGTH (name ++ usernameStr).

End TopicTitle.

(** * Facts about the Durable Object *)

Module RateLimitDOFacts.
Import RateLimitDO.

(** ** Primary-key uniqueness of [user_locks] *)


Lemma select_lock_None k t r :
  select_lock k t = None -> In r t -> lock_key r <> k.
Proof.
  unfold select_lock. intros H Hin.
  apply (List.find_none _ _ H) in Hin. now apply String.eqb_neq.
Qed.











(** A second owner cannot take a lease that has not expired: the call is
    refused, told how long to wait, and the store is left as it was. *)
Lemma acquireLock_refuses_other_owner k tok ttl now s r :
  k <> "" -> tok <> "" ->
  select_lock k (user_locks s) = Some r ->
  now < expires_at r -> owner_token r <> tok ->
  acquireLock k tok ttl now s =
    (Returned (AcquireResult false None None (Some (Z.max 50 (expires_at r - now)))), s).
Proof.
  intros Hk Htok Hsel Hexp Hne. unfold acquireLock, falsy_str.
  apply String.eqb_neq in Hk, Htok, Hne. rewrite Hk, Htok, Hsel, Hne. simpl.
  assert ((expires_at r >? now) = true) as -> by lia. reflexivity.
Qed.



(** ** [renewLock] *)




(** ** [check]: the window of one key *)




Lemma cache_hit_lookup k now s c :
  cache_hit k now s = Some c -> cache s !! k = Some c /\ now < c_expiresAt c.
Proof.
  unfold cache_hit. destruct (cache s !! k) as [c'|]; [|discriminate].
  destruct (c_expiresAt c' >? now) eqn:E; [|discriminate].
  intros [= <-]. split; [reflexivity | lia].
Qed.







(** ** [check] against the reference algorithm *)

Lemma select_rate_upsert_incr_update k c exp now t r :
  select_rate k t = Some r ->
  select_rate k (upsert_rate_incr k c exp now t) = select_rate k (update_rate_incr now k t).
Proof.
  unfold select_rate. induction t as [|x t IH]; simpl; [discriminate|].
  destruct (String.eqb (key x) k) eqn:E; simpl; rewrite E; [reflexivity | exact IH].
Qed.

(** While the cache agrees with the table, [check] answers as the reference
    algorithm does and leaves the same record for the key. *)
Lemma check_meets_spec_when_coherent k limit window now s :
  k <> "" -> limit <> 0 -> window <> 0 ->
  cache_coherent k now s ->
  (check k limit window now s).1
  = Returned (check_spec k limit window now (rate_limits s)).1 /\
  select_rate k (rate_limits (check k limit window now s).2)
  = select_rate k (check_spec k limit window now (rate_limits s)).2.
Proof.
  intros Hk Hl Hw Hco. unfold check, falsy_str, check_spec.
  apply String.eqb_neq in Hk. apply Z.eqb_neq in Hl, Hw.
  rewrite Hk, Hl, Hw. simpl.
  destruct (cache_hit k now s) as [ce|] eqn:Hhit.
  - destruct (Hco ce Hhit) as (r & Hsel & Hcnt & Hexp).
    apply cache_hit_lookup in Hhit as [_ Hlt].
    rewrite Hsel.
    assert ((rl_expires_at r >? now) = true) as -> by lia.
    rewrite Hcnt. destruct (c_count ce >=? limit); simpl; [now rewrite Hsel|].
    split; [reflexivity|]. now apply (select_rate_upsert_incr_update _ _ _ _ _ r).
  - unfold check_cold.
    destruct (select_rate k (rate_limits s)) as [r|] eqn:Hsel; [|split; reflexivity].
    destruct (rl_expires_at r >? now); [|split; reflexivity].
    destruct (count r >=? limit); simpl; [now rewrite Hsel | split; reflexivity].
Qed.


End RateLimitDOFacts.

(** * Facts about the user lock *)

Module UserLockFacts.
Import Env UserLock.

Section WithUserLockFacts.
Context {E R : Type}.
Implicit Types (k : call R) (c : wl E R) (steps : list E).

Lemma hb_loop_main k c : wl_main (hb_loop k c) = wl_main c.
Proof. unfold hb_loop. now destruct (wl_stop c). Qed.

Lemma hb_loop_effects k c : wl_effects (hb_loop k c) = wl_effects c.
Proof. unfold hb_loop. now destruct (wl_stop c). Qed.

Lemma hb_loop_stop k c : wl_stop (hb_loop k c) = wl_stop c.
Proof. unfold hb_loop. now destruct (wl_stop c). Qed.

Lemma hb_loop_hbError k c : wl_hbError (hb_loop k c) = wl_hbError c.
Proof. unfold hb_loop. now destruct (wl_stop c). Qed.

Lemma hb_loop_hb k c :
  wl_hb (hb_loop k c) = if wl_stop c then HbFinished else HbSleeping.
Proof. unfold hb_loop. now destruct (wl_stop c). Qed.


Lemma releaseUserLock_has_do fault userId ls w :
  has_do (w_env (releaseUserLock fault userId ls w).2) = has_do (w_env w).
Proof.
  unfold releaseUserLock. destruct ls as [ls|]; [|reflexivity].
  destruct (falsy_str (ls_ownerToken ls)); [reflexivity|].
  destruct (RATE_LIMIT_DO (w_env w)) as [ns|] eqn:Hns, (ls_mode ls).
  - unfold do_call. destruct fault; simpl.
    + unfold has_do. simpl. now rewrite Hns.
    + destruct (RateLimitDO.releaseLock _ _ _) as [[r|err] obj]; simpl;
        unfold has_do; simpl; now rewrite Hns.
  - destruct (kv_is_str _ _); simpl; unfold has_do; simpl; now rewrite Hns.
  - destruct (kv_is_str _ _); simpl; unfold has_do; simpl; now rewrite Hns.
  - destruct (kv_is_str _ _); simpl; unfold has_do; simpl; now rewrite Hns.
Qed.

Lemma apply_event_has_do ev e : has_do (apply_event ev e) = has_do e.
Proof.
  destruct ev; simpl; try reflexivity.
  unfold has_do. destruct (RATE_LIMIT_DO e) eqn:H; simpl; [reflexivity | now rewrite H].
Qed.

(** The invariant holds at the start and is kept by every event. *)
Lemma start_inv k steps w : wl_inv k steps (start k steps w).
Proof.
  unfold start, wl_inv.
  destruct (ls_mode (c_lockState k)), (RATE_LIMIT_DO (w_env w)); simpl;
    (split; [intros H; now contradiction H|reflexivity]).
Qed.

Lemma resume_main_inv k steps c :
  (wl_hbError c <> None ->
     wl_hbError c = Some (lost_error (c_userId k)) /\
     wl_hb c = HbFinished /\ wl_stop c = true) ->
  match wl_main c with
  | InSection todo => wl_effects c ++ todo = steps
  | AwaitingHeartbeat _ => wl_effects c = steps /\ wl_stop c = true
  | Finished _ =>
      wl_effects c = steps /\ wl_stop c = true /\ wl_hb c = HbFinished /\
      release_logged k (wl_world c)
  end ->
  wl_inv k steps (resume_main k c).
Proof.
  intros H1 H2. unfold resume_main, wl_inv.
  destruct (wl_main c) as [todo|body|r] eqn:Hm.
  - split; [exact H1|]. now rewrite Hm.
  - destruct (wl_hb c) eqn:Hhb in |- *.
    + split; [exact H1|]. rewrite Hm. destruct H2. repeat split; auto. congruence.
    + split; [exact H1|]. rewrite Hm. destruct H2. repeat split; auto. congruence.
    + simpl. split; [exact H1|].
      destruct H2. repeat split; auto.
      exists (wl_world c). split; [|reflexivity].
      symmetry. apply releaseUserLock_has_do.
  - split; [exact H1|]. now rewrite Hm.
Qed.

Lemma wl_step_inv k steps ev c :
  wl_inv k steps c -> wl_inv k steps (wl_step k ev c).
Proof.
  unfold wl_inv at 1. intros [H1 H2]. destruct ev as [|now fault| |ev]; simpl.
  - (* the critical section *)
    destruct (wl_main c) as [[|e todo]|body|r] eqn:Hm.
    + apply resume_main_inv; simpl; [|split; [|reflexivity]].
      * intros H. destruct (H1 H) as (-> & -> & _). auto.
      * now rewrite app_nil_r in H2.
    + split; simpl; [exact H1|]. now rewrite <- app_assoc.
    + split; [exact H1|]. now rewrite Hm.
    + split; [exact H1|]. now rewrite Hm.
  - (* the timer *)
    destruct (wl_hb c) eqn:Hhb in |- *; try (split; [exact H1 | exact H2]).
    assert (Hnone : wl_hbError c = None).
    { destruct (wl_hbError c) eqn:He; [|reflexivity].
      destruct H1 as (_ & Hf & _); congruence. }
    destruct (wl_stop c) eqn:Hs.
    + apply resume_main_inv; simpl.
      * rewrite Hnone. intros H. now contradiction H.
      * destruct (wl_main c); intuition congruence.
    + destruct (RATE_LIMIT_DO (w_env (wl_world c))) as [ns|].
      * destruct (do_call _ _ _ _ _) as [reply w]. split; simpl.
        -- rewrite Hnone. intros H. now contradiction H.
        -- destruct (wl_main c); intuition congruence.
      * split; simpl.
        -- rewrite Hnone. intros H. now contradiction H.
        -- destruct (wl_main c); intuition congruence.
  - (* the reply *)
    destruct (wl_hb c) as [|[r|err]|] eqn:Hhb in |- *; try (split; [exact H1 | exact H2]).
    + assert (Hnone : wl_hbError c = None).
      { destruct (wl_hbError c) eqn:He; [|reflexivity].
        destruct H1 as (_ & Hf & _); congruence. }
      destruct (RateLimitDO.renewed r).
      * apply resume_main_inv.
        -- rewrite hb_loop_hbError, Hnone. intros H. now contradiction H.
        -- rewrite hb_loop_main, hb_loop_effects, hb_loop_stop, hb_loop_hb.
           destruct (wl_main c); [exact H2 | tauto |].
           destruct H2 as (? & Hs & Hf & ?). congruence.
      * apply resume_main_inv; simpl; [auto|].
        destruct (wl_main c); [exact H2 | tauto |].
        destruct H2 as (? & Hs & Hf & ?). congruence.
    + assert (Hnone : wl_hbError c = None).
      { destruct (wl_hbError c) eqn:He; [|reflexivity].
        destruct H1 as (_ & Hf & _); congruence. }
      apply resume_main_inv.
      * rewrite hb_loop_hbError. simpl. rewrite Hnone. intros H. now contradiction H.
      * rewrite hb_loop_main, hb_loop_effects, hb_loop_stop, hb_loop_hb. simpl.
        destruct (wl_main c); [exact H2 | tauto |].
        destruct H2 as (? & Hs & Hf & ?). congruence.
  - (* another request *)
    split; simpl; [exact H1|].
    destruct (wl_main c); try exact H2.
    destruct H2 as (He & Hs & Hf & w0 & Hd & Hl).
    repeat split; auto. exists w0. simpl.
    rewrite apply_event_has_do. auto.
Qed.

Lemma wl_run_inv k steps sched c :
  wl_inv k steps c -> wl_inv k steps (wl_run k sched c).
Proof.
  revert c. induction sched as [|ev sched IH]; intros c Hc; simpl; [exact Hc|].
  apply IH. now apply wl_step_inv.
Qed.

(** ** After a lost lease *)

Lemma wl_step_after_loss k ev c :
  after_loss k c -> after_loss k (wl_step k ev c).
Proof.
  unfold after_loss at 1. intros (He & Hf & Hm).
  destruct ev as [|now fault| |ev]; simpl.
  - destruct (wl_main c) as [[|e todo]|body|r] eqn:Hmain.
    + unfold resume_main. simpl. rewrite Hf. unfold after_loss. simpl.
      repeat split; auto.
      exists (release_of k
                (WL (wl_world c) true (wl_hbError c) HbFinished
                    (AwaitingHeartbeat (try_result k c)) (wl_effects c))).1.
      unfold lost_failure, try_result. rewrite He.
      destruct (release_of _ _).1; [|reflexivity].
      now destruct (c_fn_result k).
    + unfold after_loss. simpl. auto.
    + contradiction.
    + unfold after_loss. rewrite Hmain. auto.
  - rewrite Hf. unfold after_loss. auto.
  - rewrite Hf. unfold after_loss. auto.
  - unfold after_loss. simpl. auto.
Qed.

Lemma wl_run_after_loss k sched c :
  after_loss k c -> after_loss k (wl_run k sched c).
Proof.
  revert c. induction sched as [|ev sched IH]; intros c Hc; simpl; [exact Hc|].
  apply IH. now apply wl_step_after_loss.
Qed.

Lemma lost_failure_thrown k rel : is_thrown (lost_failure k rel) = true.
Proof. unfold lost_failure. destruct rel; [|reflexivity]. now destruct (c_fn_result k). Qed.

(** ** Every call settles *)

Lemma resume_main_finished k c r :
  wl_main c = Finished r -> resume_main k c = c.
Proof. unfold resume_main. now intros ->. Qed.

Lemma wl_step_finished k ev c r :
  wl_main c = Finished r -> wl_main (wl_step k ev c) = Finished r.
Proof.
  intros Hm. destruct ev as [|now fault| |ev]; simpl.
  - now rewrite Hm.
  - destruct (wl_hb c); auto.
    destruct (wl_stop c).
    + now rewrite (resume_main_finished _ _ r).
    + destruct (RATE_LIMIT_DO _); [|exact Hm].
      now destruct (do_call _ _ _ _ _).
  - destruct (wl_hb c) as [|[res|err]|]; auto.
    + destruct (RateLimitDO.renewed res).
      * rewrite (resume_main_finished _ _ r); now rewrite hb_loop_main.
      * now rewrite (resume_main_finished _ _ r).
    + rewrite (resume_main_finished _ _ r); now rewrite hb_loop_main.
  - exact Hm.
Qed.

Lemma wl_run_finished k sched c r :
  wl_main c = Finished r -> wl_main (wl_run k sched c) = Finished r.
Proof.
  revert c. induction sched as [|ev sched IH]; intros c Hc; simpl; [exact Hc|].
  apply IH. now apply wl_step_finished.
Qed.

Lemma run_section_leaves k steps n c :
  wl_inv k steps c ->
  (forall todo, wl_main c = InSection todo -> (length todo <= n)%nat) ->
  in_section (wl_run k (repeat EvSection (S n)) c) = false.
Proof.
  revert c. induction n as [|n IH]; intros c Hinv Hlen.
  - simpl. unfold in_section. destruct (wl_main c) as [[|e todo]|body|r] eqn:Hm.
    + unfold resume_main. simpl. now destruct (wl_hb c).
    + specialize (Hlen _ eq_refl). simpl in Hlen. lia.
    + now rewrite Hm.
    + now rewrite Hm.
  - change (repeat EvSection (S (S n))) with (EvSection :: repeat (@EvSection) (S n)).
    cbn [wl_run fold_left]. apply IH.
    + now apply wl_step_inv.
    + intros todo. simpl. destruct (wl_main c) as [[|e todo']|body|r] eqn:Hm.
      * unfold resume_main. simpl. now destruct (wl_hb c).
      * simpl. intros [= <-]. specialize (Hlen _ eq_refl). simpl in Hlen. lia.
      * rewrite Hm. discriminate.
      * rewrite Hm. discriminate.
Qed.

Lemma wl_run_app k s1 s2 c :
  wl_run k (s1 ++ s2) c = wl_run k s2 (wl_run k s1 c).
Proof. unfold wl_run. apply fold_left_app. Qed.

(** From any state of a call, letting the critical section run to its end and
    the heartbeat wake once more settles the call. *)
Lemma settle_finishes k steps n now c :
  wl_inv k steps c ->
  (forall todo, wl_main c = InSection todo -> (length todo <= n)%nat) ->
  exists r, wl_result (wl_run k (settle n now) c) = Some r.
Proof.
  intros Hinv Hlen. unfold settle. rewrite wl_run_app.
  pose proof (run_section_leaves k steps n c Hinv Hlen) as Hout.
  pose proof (wl_run_inv k steps (repeat EvSection (S n)) c Hinv) as Hinv1.
  set (c1 := wl_run k (repeat EvSection (S n)) c) in *.
  unfold in_section in Hout. unfold wl_result.
  destruct (wl_main c1) as [todo|body|r] eqn:Hm; [discriminate| |].
  - destruct Hinv1 as [_ Hi]. rewrite Hm in Hi. destruct Hi as (_ & Hs & Hnf).
    cbn [wl_run fold_left]. destruct (wl_hb c1) as [|[r|err]|] eqn:Hhb.
    + (* asleep: the timer finds [stopHeartbeat] set *)
      simpl. rewrite Hhb. simpl. rewrite Hhb, Hs. unfold resume_main. simpl.
      rewrite Hm. eauto.
    + (* a reply is pending *)
      simpl. rewrite Hhb. destruct (RateLimitDO.renewed r).
      * unfold hb_loop. rewrite Hs. unfold resume_main at 2. simpl. rewrite Hm.
        simpl. eauto.
      * unfold resume_main at 2. simpl. rewrite Hm. simpl. eauto.
    + simpl. rewrite Hhb. unfold hb_loop. simpl. rewrite Hs.
      unfold resume_main at 2. simpl. rewrite Hm. simpl. eauto.
    + congruence.
  - rewrite (wl_run_finished k _ c1 r Hm). eauto.
Qed.

Lemma start_todo k steps w todo :
  wl_main (start k steps w) = InSection todo -> todo = steps.
Proof.
  unfold start.
  destruct (ls_mode (c_lockState k)), (RATE_LIMIT_DO (w_env w)); simpl;
    try rewrite hb_loop_main; simpl; congruence.
Qed.

Lemma inv_todo_length k steps c todo :
  wl_inv k steps c -> wl_main c = InSection todo -> (length todo <= length steps)%nat.
Proof.
  intros [_ H] Hm. rewrite Hm in H. rewrite <- H, length_app. lia.
Qed.

(** C5 (amended).  When the heartbeat records a refused renewal while the
    critical section is still running, the critical section is not interrupted:
    the call goes on, performs the remaining side effects of the section, and
    only then fails, with the error of the release if the release fails, else
    with the section's own error if it threw, else with [UserLockLostError];
    it never returns the section's result.  And the call does settle. *)
Theorem withUserLock_lost_lease_fails_after_section :
  forall (k : call R) (steps : list E) (w : world) (sched1 sched2 : list event) (now : Z),
    lost_in_section (wl_run k sched1 (start k steps w)) ->
    (forall r,
        wl_result (wl_run k (sched1 ++ sched2) (start k steps w)) = Some r ->
        (exists rel, r = lost_failure k rel) /\
        is_thrown r = true /\
        wl_effects (wl_run k (sched1 ++ sched2) (start k steps w)) = steps) /\
    (exists r,
        wl_result (wl_run k (sched1 ++ sched2 ++ settle (length steps) now)
                     (start k steps w)) = Some r /\
        is_thrown r = true).
Proof.
  intros k steps w sched1 sched2 now [Herr [todo Hm]].
  pose proof (wl_run_inv k steps sched1 _ (start_inv k steps w)) as Hinv.
  set (c := wl_run k sched1 (start k steps w)) in *.
  assert (Hloss : after_loss k c).
  { destruct Hinv as [H1 _]. destruct (H1 Herr) as (He & Hf & _).
    unfold after_loss. rewrite Hm. auto. }
  assert (Hloss2 : forall s, after_loss k (wl_run k s c))
    by (intros s; now apply wl_run_after_loss).
  assert (Hfail : forall s r, wl_result (wl_run k s c) = Some r ->
            (exists rel, r = lost_failure k rel) /\ is_thrown r = true).
  { intros s r Hr. destruct (Hloss2 s) as (_ & _ & Hmain).
    unfold wl_result in Hr. destruct (wl_main (wl_run k s c)); try discriminate.
    injection Hr as <-. destruct Hmain as [rel ->].
    split; [eauto | apply lost_failure_thrown]. }
  split.
  - intros r. rewrite wl_run_app. fold c. intros Hr.
    destruct (Hfail _ _ Hr) as [H1 H2]. repeat split; auto.
    pose proof (wl_run_inv k steps sched2 c Hinv) as [_ Hi].
    unfold wl_result in Hr.
    destruct (wl_main (wl_run k sched2 c)); try discriminate. tauto.
  - rewrite wl_run_app. fold c. rewrite wl_run_app.
    pose proof (wl_run_inv k steps sched2 c Hinv) as Hinv2.
    destruct (settle_finishes k steps (length steps) now _ Hinv2) as [r Hr].
    { intros t Ht. now apply (inv_todo_length k steps _ t Hinv2). }
    exists r. split; [exact Hr|].
    rewrite <- wl_run_app in Hr. now destruct (Hfail _ _ Hr).
Qed.

(** ** Acquire and release *)


Lemma normalizeLockConfig_lockKey config : lockKey (normalizeLockConfig config) <> "".
Proof.
  simpl. unfold str_or. destruct (rc_lockKey config) as [s|]; [|discriminate].
  destruct (falsy_str s) eqn:Es; [discriminate|].
  now apply String.eqb_neq in Es.
Qed.

Lemma with_env_log f w : w_log (with_env f w) = w_log w.
Proof. reflexivity. Qed.



Lemma getByName_insert ns name obj : getByName (<[name := obj]> ns) name = obj.
Proof. unfold getByName. now rewrite lookup_insert_eq. Qed.









End WithUserLockFacts.

(** ** Concrete runs *)

(** The lock is held since clock 0 with the default lease of 15 s.  The
    critical section copies the message; the heartbeat's timer fires late, at
    20 s, and [renewLock] is refused; the critical section goes on and records
    the message mapping. *)
Lemma withUserLock_continues_after_lost_lease :
  let k : call Z :=
    Call 42 (normalizeLockConfig (RawConfig None None None None None))
         (LockState "tok" "private_flow" 1 ModeDO) (Returned 7) None in
  let held :=
    World (MkEnv (Some {[ "42" := RateLimitDO.State
                            [RateLimitDO.LockRow "private_flow" "tok" 15000 0 0] [] ∅ ]})
                 ∅ None (-100123)) [] in
  let c := wl_run k [EvSection; EvTimer 20000 None; EvReply]
             (start k ["copyMessage"; "dbMessageMapPut"] held) in
  lost_in_section c /\
  wl_effects c = ["copyMessage"] /\
  wl_effects (wl_step k EvSection c) = ["copyMessage"; "dbMessageMapPut"] /\
  ~ no_effect_after_loss k c.
Proof.
  intros k held c.
  assert (Hlost : lost_in_section c).
  { split; [vm_compute; discriminate | eexists; vm_compute; reflexivity]. }
  split; [exact Hlost|]. split; [vm_compute; reflexivity|].
  split; [vm_compute; reflexivity|].
  intros H. specialize (H Hlost EvSection). vm_compute in H. discriminate.
Qed.

Lemma withUserLock_lost_lease_fails_after_section_witness :
  let k : call Z :=
    Call 42 (normalizeLockConfig (RawConfig None None None None None))
         (LockState "tok" "private_flow" 1 ModeDO) (Returned 7) None in
  let held :=
    World (MkEnv (Some {[ "42" := RateLimitDO.State
                            [RateLimitDO.LockRow "private_flow" "tok" 15000 0 0] [] ∅ ]})
                 ∅ None (-100123)) [] in
  exists r,
    wl_result (wl_run k ([EvSection; EvTimer 20000 None; EvReply] ++ [EvSection]
                           ++ settle 2 30000)
                 (start k ["copyMessage"; "dbMessageMapPut"] held)) = Some r /\
    is_thrown r = true.
Proof.
  intros k held.
  destruct (withUserLock_lost_lease_fails_after_section k
              ["copyMessage"; "dbMessageMapPut"] held
              [EvSection; EvTimer 20000 None; EvReply] [EvSection] 30000) as [_ H].
  - split; [vm_compute; discriminate | eexists; vm_compute; reflexivity].
  - exact H.
Defined.


End UserLockFacts.

(** * Facts about the rate-limit front end *)

Module RateLimitFacts.
Import Env Worker RateLimit.

Lemma now_trace s : st_trace (now s).2 = st_trace s /\ st_env (now s).2 = st_env s.
Proof. unfold now. now destruct (st_clock s). Qed.

Lemma next_fault_trace s :
  st_trace (next_fault s).2 = st_trace s /\ st_env (next_fault s).2 = st_env s.
Proof. unfold next_fault. now destruct (st_do_faults s). Qed.

Lemma doCall_trace {A} name (f : RateLimitDO.state -> outcome A * RateLimitDO.state) s :
  st_trace (doCall name f s).2 = st_trace s.
Proof.
  unfold doCall, bind. pose proof (next_fault_trace s) as [Ht _].
  destruct (next_fault s) as [[[err|]|err] s1]; simpl in *; auto.
  unfold get_env. destruct (RATE_LIMIT_DO (st_env s1)) as [ns|]; simpl; auto.
  destruct (f (getByName ns name)) as [[a|err] obj]; simpl; auto.
Qed.

Lemma stub_check_trace userId action limit window s :
  st_trace (stub_check userId action limit window s).2 = st_trace s.
Proof.
  unfold stub_check, bind. pose proof (now_trace s) as [Ht _].
  destruct (now s) as [[t|err] s1]; simpl in *; [|exact Ht].
  now rewrite doCall_trace.
Qed.

(** C9.  With the Durable Object configured, when the [check] call throws,
    whether the object is unreachable or the object itself raised,
    [checkRateLimit] returns [allowed = true] with [remaining = limit], and
    adds one line about the failure to the log, a warning for a retryable or
    overloaded object and an error otherwise. *)
Theorem checkRateLimit_fails_open :
  forall (userId : Z) (action : string) (limit window : Z) (s s1 : state) (e : js_error),
    RATE_LIMIT_DO (st_env s) <> None ->
    stub_check userId action limit window s = (Thrown e, s1) ->
    (checkRateLimit userId action limit window s).1
    = Returned (RateLimitDO.CheckResult true limit) /\
    st_trace (checkRateLimit userId action limit window s).2
    = st_trace s ++ [degradation_log e] /\
    (degradation_log e = Log LWarn "rate_limit_do_retryable_error" \/
     degradation_log e = Log LWarn "rate_limit_do_overloaded" \/
     degradation_log e = Log LError "rate_limit_do_call_failed").
Proof.
  intros userId action limit window s s1 e Hdo Hthrow.
  pose proof (stub_check_trace userId action limit window s) as Htr.
  rewrite Hthrow in Htr. simpl in Htr.
  unfold checkRateLimit, bind, get_env, try_catch, emit, ret. simpl.
  destruct (RATE_LIMIT_DO (st_env s)) as [ns|]; [|congruence].
  rewrite Hthrow. simpl.
  split; [reflexivity|]. split; [now rewrite Htr|].
  destruct e as [m|m|m|[] [] m]; simpl; auto.
Qed.

Lemma checkRateLimit_fails_open_witness :
  let s := St (MkEnv (Some ∅) ∅ None (-100123)) ∅ [] [] [1000]
              [Some (RpcError true false "Network connection lost")] [] in
  (checkRateLimit 42 "message" 45 60 s).1 = Returned (RateLimitDO.CheckResult true 45).
Proof.
  intros s.
  refine (proj1 (checkRateLimit_fails_open 42 "message" 45 60 s
                   (stub_check 42 "message" 45 60 s).2
                   (RpcError true false "Network connection lost") _ _)).
  - discriminate.
  - reflexivity.
Defined.

End RateLimitFacts.

(** * Facts about the thread probe *)

Module TopicUtilsFacts.
Import Env Worker TopicUtils.

Lemma probe_status_eqb_eq a b : probe_status_eqb a b = true <-> a = b.
Proof. destruct a, b; simpl; split; congruence. Qed.

(** One attempt sends one probe, retracts it when it got a message id, and
    classifies the answer to the probe. *)
Lemma attemptOnce_spec expected s :
  (attemptOnce expected s).1 = Returned (classify expected (next_reply s)) /\
  st_env (attemptOnce expected s).2 = st_env s /\
  exists tail,
    st_trace (attemptOnce expected s).2
    = st_trace s ++ Tg (probe_call (st_env s) expected) (next_reply s) :: tail /\
    probe_sends (st_env s) expected tail = 0%nat.
Proof.
  unfold attemptOnce, bind, get_env, tgCall, try_catch, ret. simpl.
  destruct (ok (next_reply s) && truthy_num (res_message_id (next_reply s))).
  - destruct (res_message_id (next_reply s)) as [mid|]; simpl.
    + split; [reflexivity|]. split; [reflexivity|].
      eexists. rewrite <- app_assoc. simpl. split; reflexivity.
    + split; [reflexivity|]. split; [reflexivity|]. exists []. now split.
  - simpl. split; [reflexivity|]. split; [reflexivity|]. exists []. now split.
Qed.

Lemma probe_sends_app e expected t1 t2 :
  probe_sends e expected (t1 ++ t2)
  = (probe_sends e expected t1 + probe_sends e expected t2)%nat.
Proof. unfold probe_sends. now rewrite List.filter_app, length_app. Qed.

Lemma probe_sends_probe e expected r tail :
  probe_sends e expected (Tg (probe_call e expected) r :: tail)
  = S (probe_sends e expected tail).
Proof.
  unfold probe_sends, probe_call. simpl. now rewrite !Z.eqb_refl.
Qed.

(** C7.  An acknowledged probe whose answer carries a thread id other than the
    expected one is classified [redirected], never [ok]; the probe returns the
    classification of its deciding answer; and with double-checking on, an
    acknowledged first answer without a thread id makes the probe send a
    second time, so that [missing_thread_id] is returned only when the second
    answer omits the thread id too. *)
Theorem probeForumThread_classification :
  forall (expected : Z) (doubleCheck : bool) (s : state),
    (forall ack a,
        ok ack = true -> res_thread ack = Some a -> a <> expected ->
        classify expected ack = ProbeResult StRedirected None (Some a)) /\
    (probeForumThread expected doubleCheck s).1
    = Returned (classify expected (decisive_ack expected doubleCheck s)) /\
    (doubleCheck = true ->
     ok (next_reply s) = true -> res_thread (next_reply s) = None ->
     probe_sends (st_env s) expected (st_trace (probeForumThread expected true s).2)
     = (probe_sends (st_env s) expected (st_trace s) + 2)%nat /\
     (forall res, (probeForumThread expected true s).1 = Returned res ->
        status res = StMissingThreadId ->
        ok (next_reply (attemptOnce expected s).2) = true /\
        res_thread (next_reply (attemptOnce expected s).2) = None)).
Proof.
  intros expected dbl s. split; [|split].
  - intros ack a Hok Hth Hne. unfold classify. rewrite Hok, Hth. simpl.
    assert ((a =? expected) = false) as -> by lia. reflexivity.
  - unfold probeForumThread, decisive_ack, bind.
    pose proof (attemptOnce_spec expected s) as (H1 & _ & _).
    destruct (attemptOnce expected s) as [o1 s1]. simpl in H1. subst o1.
    destruct (probe_status_eqb (status (classify expected (next_reply s))) StMissingThreadId);
      simpl; [|reflexivity].
    destruct dbl; simpl; [|reflexivity].
    pose proof (attemptOnce_spec expected s1) as (H2 & _ & _).
    destruct (attemptOnce expected s1) as [o2 s2]. simpl in H2. subst o2.
    now destruct (probe_status_eqb (status (classify expected (next_reply s1))) StMissingThreadId).
  - intros -> Hok Hth.
    assert (Hfirst : classify expected (next_reply s) = ProbeResult StMissingThreadId None None).
    { unfold classify. now rewrite Hok, Hth. }
    unfold probeForumThread, bind.
    pose proof (attemptOnce_spec expected s) as (H1 & He1 & tail1 & Ht1 & Hp1).
    destruct (attemptOnce expected s) as [o1 s1]. simpl in H1, He1, Ht1 |- *. subst o1.
    rewrite Hfirst. simpl.
    pose proof (attemptOnce_spec expected s1) as (H2 & He2 & tail2 & Ht2 & Hp2).
    destruct (attemptOnce expected s1) as [o2 s2]. simpl in H2, He2, Ht2. subst o2.
    rewrite He1 in Ht2, Hp2.
    split.
    + assert (Htr : exists extra,
                st_trace (((if probe_status_eqb (status (classify expected (next_reply s1)))
                                StMissingThreadId
                            then Logger LWarn "probe_missing_thread_id_confirmed"
                            else ret tt) ;; ret (classify expected (next_reply s1))) s2).2
                = st_trace s2 ++ extra /\ probe_sends (st_env s) expected extra = 0%nat).
      { unfold bind. destruct (probe_status_eqb _ _); simpl.
        - eexists. split; [reflexivity | reflexivity].
        - exists []. now rewrite app_nil_r. }
      destruct Htr as (extra & Hx & Hpx).
      match goal with |- probe_sends _ _ (st_trace ?t) = _ =>
        replace (st_trace t) with (st_trace s2 ++ extra) by (symmetry; exact Hx) end.
      rewrite Ht2, Ht1, !probe_sends_app, !probe_sends_probe, Hp1, Hp2, Hpx. lia.
    + intros res Hres Hst.
      unfold bind in Hres.
      destruct (probe_status_eqb (status (classify expected (next_reply s1))) StMissingThreadId);
        simpl in Hres; injection Hres as <-;
        unfold classify in Hst;
        destruct (ok (next_reply s1)); simpl in Hst;
        repeat match type of Hst with
               | context [if ?b then _ else _] => destruct b; simpl in Hst
               end; try discriminate;
        destruct (res_thread (next_reply s1)); try discriminate; auto;
        destruct (negb _); discriminate.
Qed.

Lemma probeForumThread_classification_witness :
  let noThread := TgResponse true (Some (TgResult (Some 900) None)) None in
  let deleted := TgResponse true None None in
  let s := St (MkEnv None ∅ None (-1001234)) ∅ []
              [noThread; deleted; noThread; deleted] [] [] [] in
  classify 77 (TgResponse true (Some (TgResult (Some 900) (Some 1))) None)
  = ProbeResult StRedirected None (Some 1) /\
  (probeForumThread 77 true s).1 = Returned (ProbeResult StMissingThreadId None None) /\
  probe_sends (st_env s) 77 (st_trace (probeForumThread 77 true s).2) = 2%nat.
Proof.
  intros noThread deleted s.
  destruct (probeForumThread_classification 77 true s) as (H1 & H2 & H3).
  split; [|split].
  - apply H1; [reflexivity | reflexivity | discriminate].
  - exact H2.
  - destruct H3 as [H _]; [reflexivity | reflexivity | reflexivity | exact H].
Defined.

End TopicUtilsFacts.

(** * Facts about the verification subsystem *)

Module VerificationFacts.
Import Env Worker RateLimit Verification.

(** ** Frames *)

Lemma frame_refl P s : frame P s s.
Proof. repeat split. Qed.

Lemma frame_trans P s1 s2 s3 : frame P s1 s2 -> frame P s2 s3 -> frame P s1 s3.
Proof.
  intros (A1 & A2 & A3 & A4 & A5) (B1 & B2 & B3 & B4 & B5).
  split; [congruence|]. split; [congruence|]. split; [congruence|]. split.
  - intros k Hk. now rewrite B4, A4.
  - intros uid mid. now rewrite B5, A5.
Qed.

Lemma forwards_snoc uid mid tr ev :
  not_forwarded ev -> forwards uid mid (tr ++ [ev]) = forwards uid mid tr.
Proof.
  intros Hev. unfold forwards. rewrite List.filter_app, length_app.
  destruct ev; simpl; try lia. contradiction.
Qed.

Lemma framed_ret {A} P (a : A) : framed P (ret a).
Proof. intros s. split; [apply frame_refl | now exists a]. Qed.

Lemma framed_bind {A B} P (m : M A) (f : A -> M B) :
  framed P m -> (forall a, framed P (f a)) -> framed P (bind m f).
Proof.
  intros Hm Hf s. unfold bind. destruct (Hm s) as [Hfr [a Ha]].
  destruct (m s) as [o s1]. simpl in *. subst o.
  destruct (Hf a s1) as [Hfr2 Hret]. split; [|exact Hret].
  now apply (frame_trans P s s1).
Qed.

Lemma framed_try_catch {A} P (m : M A) (h : js_error -> M A) :
  (forall s, frame P s (m s).2) -> (forall e, framed P (h e)) -> framed P (try_catch m h).
Proof.
  intros Hm Hh s. unfold try_catch. pose proof (Hm s) as Hfr.
  destruct (m s) as [[a|e] s1]; simpl in *.
  - split; [exact Hfr | now exists a].
  - destruct (Hh e s1) as [Hfr2 Hret]. split; [|exact Hret].
    now apply (frame_trans P s s1).
Qed.

Lemma framed_emit P ev : not_forwarded ev -> framed P (emit ev).
Proof.
  intros Hev s. split; [|now exists tt]. repeat split.
  intros uid mid. simpl. now apply forwards_snoc.
Qed.

Lemma framed_Logger P l ev : framed P (Logger l ev).
Proof. now apply framed_emit. Qed.

Lemma framed_tgCall P c : framed P (tgCall c).
Proof.
  intros s. split; [|now eexists]. repeat split.
  intros uid mid. simpl. now apply forwards_snoc.
Qed.

Lemma framed_kvGet P k : framed P (kvGet k).
Proof. intros s. split; [repeat split | now eexists]. Qed.

Lemma framed_get_env P : framed P get_env.
Proof. intros s. split; [repeat split | now eexists]. Qed.

Lemma framed_now P : framed P now.
Proof.
  intros s. unfold now. destruct (st_clock s); (split; [repeat split | now eexists]).
Qed.

Lemma framed_next_draw P : framed P next_draw.
Proof.
  intros s. unfold next_draw. destruct (st_draws s); (split; [repeat split | now eexists]).
Qed.

Lemma framed_kvPut (P : string -> bool) k v : P k = true -> framed P (kvPut k v).
Proof.
  intros Hk s. split; [|now exists tt]. repeat split. simpl.
  intros k' Hk'. apply lookup_insert_ne. congruence.
Qed.

Lemma framed_kvDelete (P : string -> bool) k : P k = true -> framed P (kvDelete k).
Proof.
  intros Hk s. split; [|now exists tt]. repeat split. simpl.
  intros k' Hk'. apply lookup_delete_ne. congruence.
Qed.

(** A call of the Durable Object moves nothing inside any frame, but it may
    throw. *)
Lemma doCall_frame {A} P name (f : RateLimitDO.state -> outcome A * RateLimitDO.state) s :
  frame P s (doCall name f s).2.
Proof.
  unfold doCall, bind, next_fault, get_env, throw, ret, with_env.
  destruct (st_do_faults s) as [|[err|] rest]; simpl.
  - destruct (RATE_LIMIT_DO (st_env s)) as [ns|]; simpl; [|apply frame_refl].
    destruct (f (getByName ns name)) as [[a|err] obj]; simpl; now repeat split.
  - now repeat split.
  - destruct (RATE_LIMIT_DO (st_env s)) as [ns|]; simpl; [|now repeat split].
    destruct (f (getByName ns name)) as [[a|err] obj]; simpl; now repeat split.
Qed.

Lemma stub_check_frame P userId action limit window s :
  frame P s (stub_check userId action limit window s).2.
Proof.
  unfold stub_check, bind. destruct (framed_now P s) as [Hn [t Ht]].
  destruct (now s) as [o s1]. simpl in *. subst o.
  apply (frame_trans P s s1); [exact Hn | apply doCall_frame].
Qed.

Lemma ratelimit_family action userId :
  challenge_family ("ratelimit:" +:+ action +:+ ":" +:+ String_of userId) = true.
Proof. reflexivity. Qed.

(** [checkRateLimit] never throws and stays inside the frame. *)
Lemma framed_checkRateLimit userId action limit window :
  framed challenge_family (checkRateLimit userId action limit window).
Proof.
  unfold checkRateLimit. apply framed_bind; [apply framed_get_env|]. intros e.
  destruct (RATE_LIMIT_DO e).
  - apply framed_try_catch.
    + intros s. unfold bind.
      pose proof (stub_check_frame challenge_family userId action limit window s) as H.
      now destruct (stub_check userId action limit window s) as [[r|err] s1].
    + intros err. apply framed_bind; [|intros _; apply framed_ret].
      apply framed_emit. unfold degradation_log. now destruct err as [| | |[] []].
  - apply framed_bind; [apply framed_Logger|]. intros _.
    apply framed_bind; [apply framed_kvGet|]. intros v.
    destruct (kv_count v >=? limit); [apply framed_ret|].
    apply framed_bind; [apply framed_kvPut, ratelimit_family|]. intros _.
    apply framed_ret.
Qed.

Lemma chal_family verifyId : challenge_family (chal_key verifyId) = true.
Proof. reflexivity. Qed.

Lemma user_challenge_family userId : challenge_family (user_challenge_key userId) = true.
Proof. reflexivity. Qed.

Lemma framed_safeGetJSON P k : framed P (safeGetJSON k).
Proof.
  unfold safeGetJSON. apply framed_bind; [apply framed_kvGet|].
  intros [[]|]; try apply framed_ret;
    (apply framed_bind; [apply framed_Logger | intros _; apply framed_ret]).
Qed.

Lemma framed_queue_on_existing userId pendingMsgId existing :
  framed challenge_family (queue_on_existing userId pendingMsgId existing).
Proof.
  unfold queue_on_existing.
  destruct existing as [[verifyId| | | |]|]; try apply framed_ret;
    try (apply framed_bind; [apply framed_kvDelete, user_challenge_family|];
         intros _; apply framed_ret).
  destruct (falsy_str verifyId); [apply framed_ret|].
  apply framed_bind; [apply framed_safeGetJSON|]. intros stored.
  destruct (as_challenge stored) as [st|].
  - destruct (match ch_userId st with Some u => u =? userId | None => false end).
    + apply framed_bind.
      * destruct (truthy_num pendingMsgId); [|apply framed_ret].
        destruct (includes_id _ _); [apply framed_ret|].
        apply framed_kvPut, chal_family.
      * intros _. apply framed_bind; [apply framed_Logger|]. intros _. apply framed_ret.
    + apply framed_bind; [apply framed_kvDelete, user_challenge_family|].
      intros _. apply framed_ret.
  - apply framed_bind; [apply framed_kvDelete, user_challenge_family|].
    intros _. apply framed_ret.
Qed.

(** [sendVerificationChallenge] never throws and writes only its own key
    families. *)
Lemma framed_sendVerificationChallenge userId pendingMsgId :
  framed challenge_family (sendVerificationChallenge userId pendingMsgId).
Proof.
  unfold sendVerificationChallenge, sendVerificationChallengeImpl.
  apply framed_bind; [apply framed_kvGet|]. intros existing.
  apply framed_bind; [apply framed_queue_on_existing|]. intros [|]; [apply framed_ret|].
  apply framed_bind; [apply framed_checkRateLimit|]. intros lim.
  destruct (negb (RateLimitDO.allowed lim)).
  - apply framed_bind; [apply framed_tgCall|]. intros _. apply framed_ret.
  - apply framed_bind; [apply framed_next_draw|]. intros d.
    apply framed_bind; [apply framed_kvPut, chal_family|]. intros _.
    apply framed_bind; [apply framed_kvPut, user_challenge_family|]. intros _.
    apply framed_bind; [apply framed_Logger|]. intros _.
    apply framed_bind; [apply framed_tgCall|]. intros _. apply framed_ret.
Qed.

(** ** Invariants of computations *)


Lemma hoare_ret {A} (P : A -> state -> Prop) X (a : A) : hoare (P a) (ret a) P X.
Proof. intros s Hs. exact Hs. Qed.

Lemma hoare_weaken {A} (P P' : state -> Prop) (m : M A) (Q Q' : A -> state -> Prop) X :
  hoare P' m Q' X -> (forall s, P s -> P' s) -> (forall a s, Q' a s -> Q a s) ->
  hoare P m Q X.
Proof.
  intros H HP HQ s Hs. specialize (H s (HP s Hs)).
  destruct (m s) as [[a|e] s1]; auto.
Qed.

Lemma hoare_try_catch {A} P (m : M A) Q X' (h : js_error -> M A) X :
  hoare P m Q X' -> (forall e, hoare X' (h e) Q X) -> hoare P (try_catch m h) Q X.
Proof.
  intros Hm Hh s Hs. unfold try_catch. specialize (Hm s Hs).
  destruct (m s) as [[a|e] s1]; [exact Hm|]. now apply Hh.
Qed.





Lemma preserves_throw {A} I e : preserves I (@throw A e).
Proof. intros s Hs. exact Hs. Qed.

(** A computation that leaves the store alone keeps every invariant of the
    store. *)
Lemma preserves_store_same {A} J (m : M A) :
  (forall s, TOPIC_MAP (st_env (m s).2) = TOPIC_MAP (st_env s)) ->
  preserves (on_store J) m.
Proof. intros H s Hs. unfold on_store. now rewrite H. Qed.



(** ** The pending set *)













Lemma preserves_now_ok : preserves (on_store store_ok) now.
Proof. apply preserves_store_same. intros s. unfold now. now destruct (st_clock s). Qed.







(** ** The replay *)










(** ** What a challenge request leaves behind *)

Lemma framed_no_throw {A} P (m : M A) :
  framed P m -> hoare (fun _ => True) m (fun _ _ => True) (fun _ => False).
Proof.
  intros H s _. destruct (H s) as [_ [a Ha]].
  destruct (m s) as [[a'|e] s1]; simpl in *; [exact I | discriminate].
Qed.






End VerificationFacts.

(** * Facts about the router *)

Module MessageFlowFacts.
Import Env Worker RateLimit StorageD1 TopicUtils Verification MessageFlow.
Import VerificationFacts.


Lemma family_user_key userId : challenge_family (user_key userId) = false.
Proof. reflexivity. Qed.

Lemma family_thread_ok_key threadId : challenge_family (thread_ok_key threadId) = false.
Proof. reflexivity. Qed.

Lemma family_needs_verify_key userId : challenge_family (needs_verify_key userId) = false.
Proof. reflexivity. Qed.

Lemma bind_run {A B} (m : M A) (f : A -> M B) s a s1 :
  m s = (Returned a, s1) -> bind m f s = f a s1.
Proof. unfold bind. now intros ->. Qed.

Lemma dbUserUpdate_run userId data s db :
  TG_BOT_DB (st_env s) = Some db -> has_fields data = true ->
  dbUserUpdate userId data s
  = (Returned tt,
     set_db (D1 (alter (apply_update data) (String_of userId) (ensured userId db))
                (threads db) (messages db)) s).
Proof.
  intros Hdb Hf. unfold dbUserUpdate, bind, get_env, hasD1, ensureUserRow, with_db,
    Worker.with_env, ret, ensured. simpl. rewrite Hdb, Hf. simpl. rewrite Hdb. simpl.
  unfold set_db, set_TG_BOT_DB. simpl.
  destruct (users db !! String_of userId); reflexivity.
Qed.


Lemma kvPut_run k v s :
  kvPut k v s = (Returned tt, set_kv (<[k := v]> (TOPIC_MAP (st_env s))) s).
Proof. reflexivity. Qed.

Lemma kvDelete_run k s :
  kvDelete k s = (Returned tt, set_kv (delete k (TOPIC_MAP (st_env s))) s).
Proof. reflexivity. Qed.

Lemma alter_ensured_lookup userId data db :
  alter (apply_update data) (String_of userId) (ensured userId db) !! String_of userId
  = Some (apply_update data (default empty_row (users db !! String_of userId))).
Proof.
  rewrite lookup_alter_eq. unfold ensured.
  destruct (users db !! String_of userId) as [row|] eqn:Hrow; simpl.
  - now rewrite Hrow.
  - now rewrite lookup_insert_eq.
Qed.










(** ** The router leaves the [forwarded:] markers alone *)









































(** ** The replay with the router itself *)

(** User 42 is verified and bound to thread 77, whose health was checked a
    second ago.  The challenge just completed holds the pending messages 555
    and 556.  The first replay copies both into the thread; the second one, as
    for a retried callback, finds both markers and forwards nothing. *)
Example replay_twice_forwards_once :
  let from := TgUser 42 (Some "Ann") None None in
  let forwardToTopic :=
    forwardToTopicImpl (fun _ _ _ => ret None) (fun _ _ _ => ret tt)
                       (fun _ _ => ret tt) (fun _ => ret None) in
  let st := Challenge 1 ["3"; "4"] (Some [555; 556]) None (Some 42) in
  let s := St (MkEnv None
                 (<["user:42" := VTopicRec (TopicRec (Some 77) (Some "Ann") false)]>
                    (<["verified:42" := VStr "1"]> ∅))
                 None (-1001234))
              (<[77 := (1000, true)]> ∅) []
              [TgResponse true (Some (TgResult (Some 900) (Some 77))) None;
               TgResponse true (Some (TgResult (Some 901) (Some 77))) None;
               TgResponse true None None]
              [2000; 2001; 2002; 2003] [] [] in
  let s1 := (replay forwardToTopic from 42 st s).2 in
  let s2 := (replay forwardToTopic from 42 st s1).2 in
  forwards 42 555 (st_trace s1) = 1%nat /\ forwards 42 556 (st_trace s1) = 1%nat /\
  forwards 42 555 (st_trace s2) = 1%nat /\ forwards 42 556 (st_trace s2) = 1%nat /\
  List.filter (fun ev => match ev with Tg (CopyMessage _ _ _ _) _ => true | _ => false end)
    (st_trace s2)
  = [Tg (CopyMessage (-1001234) 42 (Some 555) (Some 77))
        (TgResponse true (Some (TgResult (Some 900) (Some 77))) None);
     Tg (CopyMessage (-1001234) 42 (Some 556) (Some 77))
        (TgResponse true (Some (TgResult (Some 901) (Some 77))) None)].
Proof. vm_compute. repeat split. Qed.


End MessageFlowFacts.

(** * The Durable Object: leases, clean-up, reset, isolation of a key *)

Module RateLimitDOProps.
Import RateLimitDO RateLimitDOFacts.








(** ** Rows found through a [DELETE] *)




(** ** [rate_limits] keeps its primary key *)












(** ** [cleanupExpired] *)







(** ** [reset] *)






(** ** A key among the other traffic *)










End RateLimitDOProps.

(** * The user lock: what a returned lock state stands for *)

Module UserLockProps.
Import Env UserLock UserLockFacts.






(** X7.  While another owner's lease on the user's lock stays unexpired and
    nobody else touches the environment, [acquireUserLock] never returns a
    lock state.  It only calls [acquireLock] and sleeps, between 40 ms and
    the retry interval each time, leaves the holder's row and the key-value
    store as they were, and throws [UserLockTimeoutError] at the first
    attempt that begins at or after the deadline. *)
Theorem acquireUserLock_waits_then_times_out :
  forall userId config tok startedAt atts w ns r,
    tok <> "" ->
    RATE_LIMIT_DO (w_env w) = Some ns ->
    let cfg := normalizeLockConfig config in
    RateLimitDO.select_lock (lockKey cfg)
      (RateLimitDO.user_locks (getByName ns (String_of userId))) = Some r ->
    RateLimitDO.owner_token r <> tok ->
    Forall (quiet_before (RateLimitDO.expires_at r)) atts ->
    let res := acquireUserLock userId config tok startedAt atts w in
    (forall ls, res.1 <> Some (Returned ls)) /\
    (Exists (fun a => startedAt + acquireTimeoutMs cfg <= at_now a) atts ->
     res.1 = Some (Thrown (UserLockTimeoutError
                             ("获取用户锁超时: userId=" +:+ String_of userId)))) /\
    (exists ns', RATE_LIMIT_DO (w_env res.2) = Some ns' /\
                 getByName ns' (String_of userId) = getByName ns (String_of userId)) /\
    TOPIC_MAP (w_env res.2) = TOPIC_MAP (w_env w) /\
    (exists added, w_log res.2 = w_log w ++ added /\
                   Forall (waiting_action cfg userId tok) added).
Proof.
  intros userId config tok startedAt atts w ns r Htok Hns cfg Hr Hother Hquiet res.
  subst res. unfold acquireUserLock. fold cfg.
  set (deadline := startedAt + acquireTimeoutMs cfg).
  assert (Hkey : lockKey cfg <> "") by apply normalizeLockConfig_lockKey.
  clearbody deadline. revert w ns Hns Hr.
  induction Hquiet as [|a atts [Hbefore [Hfault Hlive]] Hquiet IH];
    intros w ns Hns Hr; cbn [acquire_loop].
  - simpl. split; [discriminate|]. split; [intros HE; inversion HE|].
    split; [eauto|]. split; [reflexivity|]. exists []. now rewrite app_nil_r.
  - rewrite Hbefore. unfold apply_events. simpl fold_left.
    replace (with_env (fun e => e) w) with w by now destruct w.
    destruct (at_now a <? deadline) eqn:Hnow.
    + rewrite Hns. unfold do_call. rewrite Hfault. cbn [w_env log].
      rewrite (RateLimitDOFacts.acquireLock_refuses_other_owner
                 (lockKey cfg) tok (ttlMs cfg) (at_do_now a) _ r Hkey Htok Hr Hlive Hother).
      cbn [RateLimitDO.acquired RateLimitDO.retryAfterMs].
      match goal with |- context [acquire_loop cfg userId tok deadline atts ?w'] =>
        specialize (IH w' (<[String_of userId := getByName ns (String_of userId)]> ns)) end.
      destruct IH as (I1 & I2 & (ns' & I3 & I3') & I4 & (added & I5 & I6)).
      { reflexivity. }
      { rewrite getByName_insert. exact Hr. }
      split; [exact I1|]. split.
      { intros HE. apply I2. inversion HE as [? ? Hhd|? ? Htl]; [lia | exact Htl]. }
      split.
      { exists ns'. split; [exact I3|]. rewrite I3', getByName_insert. reflexivity. }
      split; [exact I4|].
      eexists. split.
      { rewrite I5. cbn [w_log log with_env]. rewrite <- !app_assoc. reflexivity. }
      cbn [app]. constructor; [now left|]. constructor; [|exact I6].
      right. eexists. split; [reflexivity|].
      unfold num_or. destruct (Z.max 50 (RateLimitDO.expires_at r - at_do_now a) =? 0); lia.
    + simpl. split; [discriminate|]. split; [reflexivity|].
      split; [eauto|]. split; [reflexivity|]. exists []. now rewrite app_nil_r.
Qed.

Lemma acquireUserLock_waits_then_times_out_witness :
  let holder := RateLimitDO.State [RateLimitDO.LockRow "private_flow" "tokA" 20000 0 0] [] ∅ in
  let w := World (MkEnv (Some (<["42" := holder]> ∅)) ∅ None (-1001234)) [] in
  let res := acquireUserLock 42 (RawConfig None None None None None) "tokB" 1000
               [Attempt [] 1000 1001 None [] 0; Attempt [] 4000 4001 None [] 0;
                Attempt [] 7000 7001 None [] 0] w in
  res.1 = Some (Thrown (UserLockTimeoutError ("获取用户锁超时: userId=" +:+ String_of 42))) /\
  w_log res.2
  = [ActAcquireLock "42" "private_flow" "tokB" 15000; ActSleep 120;
     ActAcquireLock "42" "private_flow" "tokB" 15000; ActSleep 120].
Proof.
  intros holder w res. split; [|reflexivity].
  apply (acquireUserLock_waits_then_times_out 42 (RawConfig None None None None None) "tokB"
           1000 _ w (<["42" := holder]> ∅)
           (RateLimitDO.LockRow "private_flow" "tokA" 20000 0 0)).
  - discriminate.
  - reflexivity.
  - reflexivity.
  - discriminate.
  - repeat constructor; simpl; lia.
  - right. right. left. simpl. lia.
Defined.

Lemma filter_matches_deleted k tok t :
  List.filter (RateLimitDO.lock_matches k tok) (RateLimitDO.delete_lock k tok t) = [].
Proof.
  unfold RateLimitDO.delete_lock. induction t as [|x t IH]; [reflexivity|]. simpl.
  destruct (RateLimitDO.lock_matches k tok x) eqn:E; simpl; [exact IH|].
  now rewrite E.
Qed.



End UserLockProps.

(** * [checkRateLimit]: the fallback counter and the Durable Object *)

Module RateLimitProps.
Import Env Worker RateLimit.

Lemma checkRateLimit_kv_step userId action limit window s :
  RATE_LIMIT_DO (st_env s) = None ->
  let c := kv_count (TOPIC_MAP (st_env s) !! kv_rate_key userId action) in
  checkRateLimit userId action limit window s
  = if c >=? limit
    then (Returned (RateLimitDO.CheckResult false 0), kv_logged s)
    else (Returned (RateLimitDO.CheckResult true (limit - c - 1)),
          (kvPut (kv_rate_key userId action) (VNum (c + 1)) (kv_logged s)).2).
Proof.
  intros Hdo c. subst c.
  unfold checkRateLimit, bind, get_env, Logger, emit, kvGet, ret. simpl. rewrite Hdo.
  simpl. fold (kv_rate_key userId action).
  now destruct (kv_count (TOPIC_MAP (st_env s) !! kv_rate_key userId action) >=? limit).
Qed.

(** The results of [n] calls when [c] calls were counted before: admitted
    while the count is below the limit. *)
Lemma checkRateLimit_n_kv n userId action limit window :
  forall c s,
    RATE_LIMIT_DO (st_env s) = None ->
    (TOPIC_MAP (st_env s) !! kv_rate_key userId action = None /\ c = 0) \/
    TOPIC_MAP (st_env s) !! kv_rate_key userId action = Some (VNum c) ->
    exists s',
      checkRateLimit_n n userId action limit window s
      = (Returned (List.map (fun i => if c + Z.of_nat i <? limit
                                      then RateLimitDO.CheckResult true
                                             (limit - (c + Z.of_nat i) - 1)
                                      else RateLimitDO.CheckResult false 0)
                            (List.seq 0 n)), s') /\
      RATE_LIMIT_DO (st_env s') = None /\
      (n <> 0%nat -> c < limit ->
       TOPIC_MAP (st_env s') !! kv_rate_key userId action
       = Some (VNum (Z.min limit (c + Z.of_nat n)))) /\
      (limit <= c -> st_env s' = st_env s).
Proof.
  induction n as [|n IH]; intros c s Hdo Hkv.
  - exists s. simpl. split; [reflexivity|]. split; [exact Hdo|].
    split; [congruence | reflexivity].
  - assert (Hcount : kv_count (TOPIC_MAP (st_env s) !! kv_rate_key userId action) = c).
    { destruct Hkv as [[-> ->]| ->]; reflexivity. }
    cbn [checkRateLimit_n List.map List.seq]. rewrite <- seq_shift, List.map_map.
    unfold bind at 1. rewrite (checkRateLimit_kv_step userId action limit window s Hdo), Hcount.
    replace (c + Z.of_nat 0) with c by lia.
    destruct (c >=? limit) eqn:Hge.
    + assert ((c <? limit) = false) as -> by lia.
      destruct (IH c (kv_logged s)) as (s' & Heq & Hdo' & _ & Henv);
        [exact Hdo | exact Hkv |].
      exists s'. unfold bind. rewrite Heq. unfold ret. split.
      { f_equal. f_equal. f_equal. apply List.map_ext_in. intros i _.
        assert (Hle : limit <= c) by lia.
        assert ((c + Z.of_nat i <? limit) = false) as -> by (apply Z.ltb_ge; lia).
        assert ((c + Z.of_nat (S i) <? limit) = false) as -> by (apply Z.ltb_ge; lia).
        reflexivity. }
      split; [exact Hdo'|]. split; [intros _ Hlt; lia|]. intros Hle. now rewrite Henv by lia.
    + assert ((c <? limit) = true) as -> by lia.
      assert (Hlt0 : c < limit) by lia. clear Hge.
      destruct (IH (c + 1) (kvPut (kv_rate_key userId action) (VNum (c + 1)) (kv_logged s)).2)
        as (s' & Heq & Hdo' & Hkv' & Henv).
      { exact Hdo. }
      { right. simpl. apply lookup_insert_eq. }
      exists s'. unfold bind. rewrite Heq. unfold ret. split.
      { f_equal. f_equal. f_equal. apply List.map_ext_in. intros i _.
        replace (c + 1 + Z.of_nat i) with (c + Z.of_nat (S i)) by lia. reflexivity. }
      split; [exact Hdo'|]. split; [|lia].
      intros _ _. destruct n as [|n'].
      * simpl in Heq. injection Heq as <-. simpl. rewrite lookup_insert_eq. f_equal. f_equal. lia.
      * destruct (Z.lt_ge_cases (c + 1) limit) as [Hlt|Hfull].
        -- rewrite Hkv' by (try discriminate; lia). f_equal. f_equal. lia.
        -- rewrite Henv by lia. simpl. rewrite lookup_insert_eq. f_equal. f_equal. lia.
Qed.

(** X9.  Without the Durable Object, [checkRateLimit] counts in the key
    [ratelimit:<action>:<userId>].  From a missing counter, calls in a row are
    admitted until [limit] of them were, each with the number of calls left as
    [remaining]; the calls after that are refused with [remaining = 0] and no
    longer touch the counter, which stays at [limit]. *)
Theorem checkRateLimit_fallback_counts_to_limit :
  forall userId action limit window n s,
    RATE_LIMIT_DO (st_env s) = None ->
    TOPIC_MAP (st_env s) !! kv_rate_key userId action = None ->
    0 < limit ->
    let run := checkRateLimit_n n userId action limit window s in
    run.1 = Returned (List.map (fun i => if Z.of_nat i <? limit
                                         then RateLimitDO.CheckResult true
                                                (limit - Z.of_nat i - 1)
                                         else RateLimitDO.CheckResult false 0)
                               (List.seq 0 n)) /\
    (n <> 0%nat ->
     TOPIC_MAP (st_env run.2) !! kv_rate_key userId action
     = Some (VNum (Z.min limit (Z.of_nat n)))).
Proof.
  intros userId action limit window n s Hdo Hkv Hl run.
  destruct (checkRateLimit_n_kv n userId action limit window 0 s Hdo (or_introl (conj Hkv eq_refl)))
    as (s' & Heq & _ & Hkv' & _).
  subst run. rewrite Heq. cbn [fst snd]. split.
  - reflexivity.
  - intros Hn. now apply Hkv'.
Qed.

Lemma checkRateLimit_fallback_counts_to_limit_witness :
  let s := St (MkEnv None ∅ None (-1001234)) ∅ [] [] [] [] [] in
  (checkRateLimit_n 5 42 "verify" 3 300 s).1
  = Returned [RateLimitDO.CheckResult true 2; RateLimitDO.CheckResult true 1;
              RateLimitDO.CheckResult true 0; RateLimitDO.CheckResult false 0;
              RateLimitDO.CheckResult false 0].
Proof.
  intros s.
  exact (proj1 (checkRateLimit_fallback_counts_to_limit 42 "verify" 3 300 5 s
                  eq_refl eq_refl eq_refl)).
Defined.

(** ** Through the Durable Object *)







End RateLimitProps.

(** * [probeForumThread]: what a probe leaves behind *)

Module TopicUtilsProps.
Import Env Worker TopicUtils TopicUtilsFacts.

(** One attempt: what it adds to the trace, and that it changes nothing
    else but the answers consumed. *)
Lemma attemptOnce_added expected s :
  exists added,
    st_trace (attemptOnce expected s).2 = st_trace s ++ added /\
    st_env (attemptOnce expected s).2 = st_env s /\
    st_threadHealthCache (attemptOnce expected s).2 = st_threadHealthCache s /\
    probe_sends (st_env s) expected added = 1%nat /\
    retracted (st_env s) expected added /\
    only_probe_traffic (st_env s) expected added.
Proof.
  unfold attemptOnce, bind, get_env, tgCall, try_catch, ret. simpl.
  set (ack := next_reply s).
  assert (Hone : probe_sends (st_env s) expected [Tg (probe_call (st_env s) expected) ack] = 1%nat).
  { unfold probe_sends, probe_call. simpl. now rewrite !Z.eqb_refl. }
  destruct (ok ack && truthy_num (res_message_id ack)) eqn:Hdel.
  - destruct (res_message_id ack) as [mid|] eqn:Hmid; simpl.
    + eexists. rewrite <- app_assoc. simpl. split; [reflexivity|].
      split; [reflexivity|]. split; [reflexivity|]. split.
      { unfold probe_sends, probe_call. simpl. now rewrite !Z.eqb_refl. }
      split.
      * intros ack' mid' [H|[H|[]]] Hok Hm Hne; [|discriminate H].
        injection H as <-. rewrite Hm in Hmid. injection Hmid as <-.
        eexists. right. now left.
      * intros ev [<-|[<-|[]]]; [now left | right; eauto].
    + apply andb_true_iff in Hdel as [_ Hd]. discriminate Hd.
  - simpl. exists [Tg (probe_call (st_env s) expected) ack].
    split; [reflexivity|]. split; [reflexivity|]. split; [reflexivity|].
    split; [exact Hone|]. split.
    + intros ack' mid' [H|[]] Hok Hm Hne. injection H as <-.
      rewrite Hok, Hm in Hdel. simpl in Hdel.
      apply negb_false_iff, Z.eqb_eq in Hdel. contradiction.
    + intros ev [<-|[]]. now left.
Qed.

Lemma maybe_log_run (b : bool) ev s :
  exists s',
    (if b then Logger LWarn ev else ret tt) s = (Returned tt, s') /\
    st_env s' = st_env s /\
    st_threadHealthCache s' = st_threadHealthCache s /\
    st_trace s' = st_trace s ++ (if b then [Log LWarn ev] else []).
Proof.
  destruct b; eexists; (split; [reflexivity|]); simpl; rewrite ?app_nil_r; auto.
Qed.

Lemma retracted_app e expected l1 l2 :
  retracted e expected l1 -> retracted e expected l2 -> retracted e expected (l1 ++ l2).
Proof.
  intros H1 H2 ack mid Hin Hok Hm Hne. apply in_app_or in Hin as [Hin|Hin].
  - destruct (H1 ack mid Hin Hok Hm Hne) as [a Ha]. exists a. apply in_or_app. now left.
  - destruct (H2 ack mid Hin Hok Hm Hne) as [a Ha]. exists a. apply in_or_app. now right.
Qed.

Lemma only_probe_traffic_app e expected l1 l2 :
  only_probe_traffic e expected l1 -> only_probe_traffic e expected l2 ->
  only_probe_traffic e expected (l1 ++ l2).
Proof.
  intros H1 H2 ev Hin. apply in_app_or in Hin as [Hin|Hin]; [now apply H1 | now apply H2].
Qed.

(** X11.  A probe leaves nothing behind.  [probeForumThread] always returns;
    it changes neither the bindings nor the health cache; the only Telegram
    calls it makes are probe messages to the expected thread and deletions in
    the supergroup; it sends one probe, or two when double-checking is on and
    the first answer carried no thread id; and every probe that Telegram
    acknowledged with a message id is deleted again. *)
Theorem probeForumThread_leaves_nothing_behind :
  forall expected doubleCheck s,
    let run := probeForumThread expected doubleCheck s in
    (exists res, run.1 = Returned res) /\
    st_env run.2 = st_env s /\
    st_threadHealthCache run.2 = st_threadHealthCache s /\
    exists added,
      st_trace run.2 = st_trace s ++ added /\
      (1 <= probe_sends (st_env s) expected added <= 2)%nat /\
      (probe_sends (st_env s) expected added = 2%nat ->
       doubleCheck = true /\
       status (classify expected (next_reply s)) = StMissingThreadId) /\
      retracted (st_env s) expected added /\
      only_probe_traffic (st_env s) expected added.
Proof.
  intros expected dbl s run. subst run. unfold probeForumThread, bind.
  pose proof (attemptOnce_spec expected s) as (Hres1 & _).
  destruct (attemptOnce_added expected s) as (add1 & Ht1 & He1 & Hc1 & Hp1 & Hr1 & Ho1).
  destruct (attemptOnce expected s) as [o1 s1]. simpl in Hres1, Ht1, He1, Hc1. subst o1.
  destruct (negb (probe_status_eqb (status (classify expected (next_reply s))) StMissingThreadId)
            || negb dbl) eqn:Hfirst; simpl.
  - split; [eauto|]. split; [exact He1|]. split; [exact Hc1|].
    exists add1. split; [exact Ht1|]. split; [lia|]. split; [|split; assumption].
    rewrite Hp1. discriminate.
  - apply orb_false_iff in Hfirst as [Hst Hdbl].
    apply negb_false_iff in Hst, Hdbl. apply probe_status_eqb_eq in Hst. subst dbl.
    pose proof (attemptOnce_spec expected s1) as (Hres2 & _).
    destruct (attemptOnce_added expected s1) as (add2 & Ht2 & He2 & Hc2 & Hp2 & Hr2 & Ho2).
    destruct (attemptOnce expected s1) as [o2 s2]. simpl in Hres2, Ht2, He2, Hc2. subst o2.
    rewrite He1 in Hp2, Hr2, Ho2.
    destruct (maybe_log_run
                (probe_status_eqb (status (classify expected (next_reply s1))) StMissingThreadId)
                "probe_missing_thread_id_confirmed" s2) as (s3 & -> & L2 & L3 & L4).
    set (extra := if probe_status_eqb (status (classify expected (next_reply s1)))
                       StMissingThreadId
                  then [Log LWarn "probe_missing_thread_id_confirmed"] else []) in *.
    assert (L5 : probe_sends (st_env s) expected extra = 0%nat)
      by (subst extra; now destruct (probe_status_eqb _ _)).
    assert (L6 : retracted (st_env s) expected extra).
    { subst extra. intros ack mid Hin.
      destruct (probe_status_eqb _ _); [destruct Hin as [H|[]]; discriminate H | destruct Hin]. }
    assert (L7 : only_probe_traffic (st_env s) expected extra).
    { subst extra. intros ev Hin.
      destruct (probe_status_eqb _ _); [destruct Hin as [<-|[]]; exact I | destruct Hin]. }
    simpl.
    split; [eauto|]. split; [congruence|]. split; [congruence|].
    exists (add1 ++ add2 ++ extra). split.
    { rewrite L4, Ht2, Ht1, <- !app_assoc. reflexivity. }
    rewrite !probe_sends_app, Hp1, Hp2, L5. split; [lia|]. split; [now split|].
    split.
    + apply retracted_app; [exact Hr1 | apply retracted_app; assumption].
    + apply only_probe_traffic_app; [exact Ho1 | apply only_probe_traffic_app; assumption].
Qed.

End TopicUtilsProps.

(** * The D1 adapter: reading back what was written *)

Module StorageD1Props.
Import Env Worker StorageD1 MessageFlow MessageFlowFacts.

Lemma now_run s :
  now s = (Returned (hd 0 (st_clock s)),
           St (st_env s) (st_threadHealthCache s) (st_trace s) (st_replies s)
              (tl (st_clock s)) (st_do_faults s) (st_draws s)).
Proof. unfold now. destruct s as [e c tr r [|t cl] f d]; reflexivity. Qed.

(** The state after [now]. *)
Lemma dbSetVerifyState_run userId st s db :
  TG_BOT_DB (st_env s) = Some db -> st <> "" -> st <> "trusted" ->
  dbSetVerifyState userId st s
  = dbUserUpdate userId
      (UserUpdate None None None (Some (Some st))
         (Some (Some (hd 0 (st_clock s) + CONFIG.VERIFIED_EXPIRE_SECONDS * 1000))) None)
      (now s).2.
Proof.
  intros Hdb Hst Htr. unfold dbSetVerifyState.
  rewrite (bind_run get_env _ s (st_env s) s eq_refl).
  unfold hasD1. rewrite Hdb. cbn [negb].
  apply String.eqb_neq in Hst, Htr. unfold falsy_str. rewrite Hst.
  rewrite (bind_run now _ s _ _ (now_run s)). rewrite Htr. now rewrite now_run.
Qed.

Lemma dbGetVerifyState_none userId s db :
  TG_BOT_DB (st_env s) = Some db ->
  u_verify_state (row_of userId db) = None ->
  dbGetVerifyState userId s = (Returned None, s).
Proof.
  intros Hdb Hrow. unfold dbGetVerifyState.
  rewrite (bind_run get_env _ s (st_env s) s eq_refl), Hdb.
  unfold row_of in Hrow. destruct (users db !! String_of userId) as [row|]; [|reflexivity].
  simpl in Hrow. now rewrite Hrow.
Qed.

(** X16.  A verification recorded in D1 lasts thirty days.  After
    [dbSetVerifyState(userId, '1')] at clock value [t], [dbGetVerifyState]
    answers ['1'] and changes nothing as long as its clock reading is at most
    [t + 2592000000]; at a later reading it answers [null] and clears the
    state, so that every later call answers [null] too. *)
Theorem verify_state_lasts_thirty_days :
  forall userId s db t t' rest,
    TG_BOT_DB (st_env s) = Some db -> st_clock s = t :: t' :: rest -> 0 <= t ->
    let s1 := (dbSetVerifyState userId "1" s).2 in
    let get := dbGetVerifyState userId s1 in
    (t' <= t + 2592000000 ->
     get.1 = Returned (Some "1") /\ st_env get.2 = st_env s1) /\
    (t + 2592000000 < t' ->
     get.1 = Returned None /\
     forall s2, st_env s2 = st_env get.2 ->
       (dbGetVerifyState userId s2).1 = Returned None).
Proof.
  intros userId s db t t' rest Hdb Hclock Ht s1 get.
  assert (Hs1 : s1 = set_db (D1 (alter (apply_update
                  (UserUpdate None None None (Some (Some "1"))
                     (Some (Some (t + 2592000000))) None))
                  (String_of userId) (ensured userId db)) (threads db) (messages db))
                  (now s).2).
  { subst s1. rewrite (dbSetVerifyState_run userId "1" s db Hdb) by discriminate.
    rewrite (dbUserUpdate_run userId _ (now s).2 db) by (try reflexivity; now rewrite now_run).
    rewrite Hclock. reflexivity. }
  subst get. clearbody s1. 
  assert (Hdb1 : TG_BOT_DB (st_env s1)
                 = Some (D1 (alter (apply_update
                      (UserUpdate None None None (Some (Some "1"))
                         (Some (Some (t + 2592000000))) None))
                      (String_of userId) (ensured userId db)) (threads db) (messages db)))
    by (rewrite Hs1; reflexivity).
  assert (Hclock1 : hd 0 (st_clock s1) = t')
    by (rewrite Hs1, now_run; cbn; now rewrite Hclock).
  clear Hs1.
  assert (Hget : dbGetVerifyState userId s1 =
    if negb (t + 2592000000 =? 0) && (t + 2592000000 <? t')
    then ((dbUserUpdate userId (UserUpdate None None None (Some None) (Some None) None) ;;
           ret None) (now s1).2)
    else (Returned (Some "1"), (now s1).2)).
  { unfold dbGetVerifyState.
    rewrite (bind_run get_env _ s1 (st_env s1) s1 eq_refl), Hdb1.
    cbn [users]. rewrite alter_ensured_lookup.
    cbn [apply_update u_verify_state u_verify_expires_at default up_verify_state
         up_verify_expires_at id from_option].
    change (falsy_str "1") with false. change (String.eqb "1" "trusted") with false.
    cbv zeta. cbn iota.
    rewrite (bind_run now _ s1 _ _ (now_run s1)), Hclock1.
    rewrite now_run. cbv beta.
    now destruct (negb (t + 2592000000 =? 0) && (t + 2592000000 <? t')). }
  rewrite Hget. split.
  - intros Hle.
    assert ((t + 2592000000 <? t') = false) as -> by lia. rewrite andb_false_r.
    split; [reflexivity|]. now rewrite now_run.
  - intros Hgt.
    assert ((t + 2592000000 <? t') = true) as -> by lia.
    assert ((t + 2592000000 =? 0) = false) as -> by lia. cbn [negb andb].
    assert (Hdb2 : TG_BOT_DB (st_env (now s1).2) = TG_BOT_DB (st_env s1))
      by now rewrite now_run.
    rewrite Hdb1 in Hdb2.
    unfold bind.
    rewrite (dbUserUpdate_run userId (UserUpdate None None None (Some None) (Some None) None)
               (now s1).2 _ Hdb2 eq_refl).
    unfold ret.
    split; [reflexivity|]. cbn [snd].
    intros s2 Hs2. erewrite dbGetVerifyState_none; [reflexivity | rewrite Hs2; reflexivity |].
    unfold row_of. cbn [users]. rewrite alter_ensured_lookup. reflexivity.
Qed.

Lemma verify_state_lasts_thirty_days_witness :
  let s := St (MkEnv None ∅ (Some (D1 ∅ ∅ ∅)) (-1001234)) ∅ [] [] [1000; 2592001000; 0] [] [] in
  (dbGetVerifyState 42 (dbSetVerifyState 42 "1" s).2).1 = Returned (Some "1").
Proof.
  intros s.
  destruct (verify_state_lasts_thirty_days 42 s (D1 ∅ ∅ ∅) 1000 2592001000 [0])
    as [H _]; [reflexivity | reflexivity | lia |].
  apply H. lia.
Defined.

(** ** The thread index *)

Lemma dbThreadPut_run threadId uid s db :
  TG_BOT_DB (st_env s) = Some db ->
  dbThreadPut threadId uid s
  = (Returned tt, set_db (D1 (users db) (<[threadId := uid]> (threads db)) (messages db)) s).
Proof.
  intros Hdb. unfold dbThreadPut, with_db, Worker.with_env. now rewrite Hdb.
Qed.

(** X17.  The thread index reads back and repairs itself.  After
    [dbThreadPut(threadId, userId)], [dbThreadGetUserId(threadId)] answers
    that user without writing.  Whenever [dbThreadGetUserId] answers a user,
    from the index or from the fallback on [users], the index holds that user
    for the thread afterwards, and asking again gives the same answer and
    leaves the database as it is. *)
Theorem thread_index_reads_back_and_heals :
  forall threadId s db,
    TG_BOT_DB (st_env s) = Some db ->
    (forall uid, uid <> "" ->
       dbThreadGetUserId threadId (dbThreadPut threadId uid s).2
       = (Returned (Some uid), (dbThreadPut threadId uid s).2)) /\
    (forall uid s1,
       dbThreadGetUserId threadId s = (Returned (Some uid), s1) ->
       (exists db1, TG_BOT_DB (st_env s1) = Some db1 /\ threads db1 !! threadId = Some uid /\
                    users db1 = users db /\
                    forall t, t <> threadId -> threads db1 !! t = threads db !! t) /\
       dbThreadGetUserId threadId s1 = (Returned (Some uid), s1)).
Proof.
  intros threadId s db Hdb.
  assert (Hhit : forall s0 db0 uid,
            TG_BOT_DB (st_env s0) = Some db0 -> threads db0 !! threadId = Some uid ->
            uid <> "" -> dbThreadGetUserId threadId s0 = (Returned (Some uid), s0)).
  { intros s0 db0 uid H0 Hth Hne. unfold dbThreadGetUserId.
    rewrite (bind_run get_env _ s0 (st_env s0) s0 eq_refl), H0, Hth.
    apply String.eqb_neq in Hne. unfold falsy_str. now rewrite Hne. }
  split.
  - intros uid Hne. rewrite (dbThreadPut_run threadId uid s db Hdb). cbn [snd].
    apply (Hhit _ (D1 (users db) (<[threadId := uid]> (threads db)) (messages db)));
      [reflexivity | apply lookup_insert_eq | exact Hne].
  - intros uid s1 Hrun.
    assert (Hpost : exists db1,
              TG_BOT_DB (st_env s1) = Some db1 /\ threads db1 !! threadId = Some uid /\
              users db1 = users db /\
              (forall t, t <> threadId -> threads db1 !! t = threads db !! t) /\ uid <> "").
    { revert Hrun. unfold dbThreadGetUserId.
      rewrite (bind_run get_env _ s (st_env s) s eq_refl), Hdb.
      destruct (threads db !! threadId) as [u|] eqn:Hth.
      - destruct (falsy_str u) eqn:Hf; [discriminate|]. intros [= <- <-].
        exists db. repeat (split; [auto|]). now apply String.eqb_neq.
      - destruct (user_of_thread threadId db) as [u|]; [|discriminate].
        destruct (falsy_str u) eqn:Hf; [discriminate|].
        unfold bind. rewrite (dbThreadPut_run threadId u s db Hdb). unfold ret.
        intros [= <- <-].
        eexists. split; [reflexivity|]. cbn [threads users]. split; [apply lookup_insert_eq|].
        split; [reflexivity|]. split; [|now apply String.eqb_neq].
        intros t Ht. now apply lookup_insert_ne. }
    destruct Hpost as (db1 & H1 & H2 & H3 & H4 & Hne).
    split; [exists db1; auto|]. now apply (Hhit s1 db1).
Qed.

Lemma thread_index_reads_back_and_heals_witness :
  let db := D1 (<["42" := UserRow (Some 77) (Some "Ann") false None None false]> ∅) ∅ ∅ in
  let s := St (MkEnv None ∅ (Some db) (-1001234)) ∅ [] [] [] [] [] in
  exists db1,
    TG_BOT_DB (st_env (dbThreadGetUserId 77 s).2) = Some db1 /\
    threads db1 !! 77 = Some "42".
Proof.
  intros db s.
  destruct (thread_index_reads_back_and_heals 77 s db eq_refl) as [_ H].
  destruct (H "42" (dbThreadGetUserId 77 s).2) as [(db1 & H1 & H2 & _) _]; [reflexivity|].
  exists db1. split; [exact H1 | exact H2].
Defined.

(** ** The user row *)

Lemma dbUserGet_run userId s db :
  TG_BOT_DB (st_env s) = Some db ->
  dbUserGet userId s
  = (Returned (match users db !! String_of userId with
               | Some row => Some (TopicRec (u_thread_id row) (u_title row) (u_closed row))
               | None => None
               end), s).
Proof.
  intros Hdb. unfold dbUserGet.
  now rewrite (bind_run get_env _ s (st_env s) s eq_refl), Hdb.
Qed.

Lemma dbIsBanned_run userId s db :
  TG_BOT_DB (st_env s) = Some db ->
  dbIsBanned userId s
  = (Returned (match users db !! String_of userId with
               | Some row => u_is_blocked row
               | None => false
               end), s).
Proof.
  intros Hdb. unfold dbIsBanned.
  now rewrite (bind_run get_env _ s (st_env s) s eq_refl), Hdb.
Qed.

Lemma dbUserUpdate_run_empty userId s db :
  TG_BOT_DB (st_env s) = Some db ->
  dbUserUpdate userId no_update s
  = (Returned tt, set_db (D1 (ensured userId db) (threads db) (messages db)) s).
Proof.
  intros Hdb. unfold dbUserUpdate, bind, get_env, hasD1, ensureUserRow, with_db,
    Worker.with_env, ret, ensured. simpl. rewrite Hdb. simpl. rewrite Hdb.
  unfold set_db, set_TG_BOT_DB.
  destruct (users db !! String_of userId); [now destruct db | reflexivity].
Qed.

(** X18.  [dbUserUpdate] writes what it is given and nothing else.  After an
    update, [dbUserGet] and [dbIsBanned] answer the values of the fields that
    were passed and the old values of the others, taking a missing row as the
    empty one; the row exists afterwards even when no field was passed; the
    rows of the other users and the thread index are untouched.  In
    particular [dbIsBanned] after [dbSetBanned(userId, b)] answers [b]. *)
Theorem dbUserUpdate_reads_back :
  forall userId data s db,
    TG_BOT_DB (st_env s) = Some db ->
    let s1 := (dbUserUpdate userId data s).2 in
    let old := row_of userId db in
    (dbUserGet userId s1).1
    = Returned (Some (TopicRec (default (u_thread_id old) (up_thread_id data))
                               (default (u_title old) (up_title data))
                               (default (u_closed old) (up_closed data)))) /\
    (dbIsBanned userId s1).1 = Returned (default (u_is_blocked old) (up_is_blocked data)) /\
    (forall b, (dbIsBanned userId (dbSetBanned userId b s).2).1 = Returned b) /\
    (exists db1, TG_BOT_DB (st_env s1) = Some db1 /\
       threads db1 = threads db /\
       forall other, other <> String_of userId -> users db1 !! other = users db !! other).
Proof.
  intros userId data s db Hdb s1 old.
  assert (Hupd : forall d s0, TG_BOT_DB (st_env s0) = Some db ->
    exists db1, TG_BOT_DB (st_env (dbUserUpdate userId d s0).2) = Some db1 /\
      users db1 !! String_of userId = Some (apply_update d (row_of userId db)) /\
      threads db1 = threads db /\
      forall other, other <> String_of userId -> users db1 !! other = users db !! other).
  { intros d s0 H0. destruct (has_fields d) eqn:Hf.
    - rewrite (dbUserUpdate_run userId d s0 db H0 Hf). eexists. split; [reflexivity|].
      cbn [users threads]. split; [apply alter_ensured_lookup|]. split; [reflexivity|].
      intros other Hne. rewrite lookup_alter_ne by congruence. unfold ensured.
      destruct (users db !! String_of userId); [reflexivity|].
      apply lookup_insert_ne. congruence.
    - assert (d = no_update) as -> by (destruct d as [[] [] [] [] [] []]; now try discriminate).
      rewrite (dbUserUpdate_run_empty userId s0 db H0). eexists. split; [reflexivity|].
      cbn [users threads]. unfold ensured, row_of. split; [|split; [reflexivity|]].
      + destruct (users db !! String_of userId) as [row|] eqn:Hrow.
        * rewrite Hrow. now destruct row.
        * now rewrite lookup_insert_eq.
      + intros other Hne. destruct (users db !! String_of userId); [reflexivity|].
        apply lookup_insert_ne. congruence. }
  destruct (Hupd data s Hdb) as (db1 & Hdb1 & Hrow & Hth & Hothers). fold s1 in Hdb1.
  split; [|split; [|split]].
  - rewrite (dbUserGet_run userId s1 db1 Hdb1), Hrow. reflexivity.
  - rewrite (dbIsBanned_run userId s1 db1 Hdb1), Hrow. reflexivity.
  - intros b. unfold dbSetBanned.
    rewrite (bind_run get_env _ s (st_env s) s eq_refl). unfold hasD1. rewrite Hdb. cbn [negb].
    destruct (Hupd (UserUpdate None None None None None (Some b)) s Hdb)
      as (db2 & Hdb2 & Hrow2 & _).
    rewrite (dbIsBanned_run userId _ db2 Hdb2), Hrow2. reflexivity.
  - exists db1. auto.
Qed.

Lemma dbUserUpdate_reads_back_witness :
  let s := St (MkEnv None ∅ (Some (D1 ∅ ∅ ∅)) (-1001234)) ∅ [] [] [] [] [] in
  (dbUserGet 42 (dbUserUpdate 42 no_update s).2).1 = Returned (Some (TopicRec None None false)).
Proof.
  intros s.
  exact (proj1 (dbUserUpdate_reads_back 42 no_update s (D1 ∅ ∅ ∅) eq_refl)).
Defined.

End StorageD1Props.

(** * Verification: callback data, answers, the open challenge *)

Module VerificationProps.
Import Env Worker RateLimit StorageD1 Verification VerificationFacts.
Import MessageFlow MessageFlowFacts StorageD1Props.

(** ** Decimal text *)

Lemma digit_of_pretty_N_char d :
  (d < 10)%N -> digit_of (pretty_N_char d) = Some (Z.of_N d).
Proof.
  intros Hd.
  assert (d = 0 \/ d = 1 \/ d = 2 \/ d = 3 \/ d = 4 \/ d = 5 \/ d = 6 \/ d = 7 \/ d = 8
          \/ d = 9)%N as H by lia.
  repeat (destruct H as [->|H]; [reflexivity|]). now subst.
Qed.

Lemma pretty_N_char_no_colon d : Ascii.eqb (pretty_N_char d) ":"%char = false.
Proof. unfold pretty_N_char. now repeat case_match. Qed.

Lemma digits_pretty_N_go x :
  forall s acc, (0 < x)%N -> default 0 acc = 0 ->
    digits (pretty_N_go x s) acc = digits s (Some (Z.of_N x)).
Proof.
  induction (N.lt_wf_0 x) as [x _ IH]. intros s acc Hx Hacc.
  rewrite pretty_N_go_step by exact Hx.
  assert (Hmod : (x `mod` 10 < 10)%N) by (apply N.mod_lt; lia).
  destruct (decide (x `div` 10 = 0)%N) as [Hz|Hnz].
  - rewrite Hz, pretty_N_go_0. simpl. rewrite (digit_of_pretty_N_char _ Hmod), Hacc.
    f_equal. f_equal. rewrite N2Z.inj_mod.
    pose proof (N2Z.inj_div x 10) as Hdiv. rewrite Hz in Hdiv.
    change (Z.of_N 10) with 10 in *. change (Z.of_N 0) with 0 in Hdiv.
    clear -Hdiv. Z.div_mod_to_equations. lia.
  - assert (Hlt : (x `div` 10 < x)%N) by (apply N.div_lt; [exact Hx | reflexivity]).
    assert (Hpos : (0 < x `div` 10)%N) by (apply N.neq_0_lt_0; exact Hnz).
    rewrite (IH (x `div` 10)%N Hlt _ _ Hpos Hacc).
    simpl. rewrite (digit_of_pretty_N_char _ Hmod). simpl.
    f_equal. f_equal. rewrite N2Z.inj_mod, N2Z.inj_div.
    change (Z.of_N 10) with 10. clear. Z.div_mod_to_equations. lia.
Qed.

Lemma no_colon_pretty_N_go x :
  forall s, no_colon s = true -> no_colon (pretty_N_go x s) = true.
Proof.
  induction (N.lt_wf_0 x) as [x _ IH]. intros s Hs.
  destruct (decide (x = 0)%N) as [->|Hx]; [now rewrite pretty_N_go_0|].
  rewrite pretty_N_go_step by lia. apply IH; [apply N.div_lt; lia|].
  simpl. now rewrite pretty_N_char_no_colon.
Qed.

Lemma digits_parseInt s v : digits s None = Some v -> parseInt s = Some v.
Proof.
  destruct s as [|c s]; [discriminate|]. intros H. unfold parseInt.
  destruct (Ascii.eqb c "-"%char) eqn:E1.
  { apply Ascii.eqb_eq in E1. subst c. discriminate H. }
  destruct (Ascii.eqb c "+"%char) eqn:E2.
  { apply Ascii.eqb_eq in E2. subst c. discriminate H. }
  destruct c as [[] [] [] [] [] [] [] []]; try exact H; discriminate.
Qed.

(** [parseInt(String(i)) === i] for an index. *)
Lemma parseInt_String_of i : 0 <= i -> parseInt (String_of i) = Some i.
Proof.
  intros Hi. destruct i as [|p|p]; [reflexivity| |lia].
  apply digits_parseInt. unfold String_of, pretty, pretty_Z, pretty, pretty_positive,
    pretty, pretty_N.
  rewrite decide_False by discriminate.
  rewrite digits_pretty_N_go by (try reflexivity; lia). reflexivity.
Qed.

Lemma no_colon_String_of i : 0 <= i -> no_colon (String_of i) = true.
Proof.
  intros Hi. destruct i as [|p|p]; [reflexivity| |lia].
  unfold String_of, pretty, pretty_Z, pretty, pretty_positive, pretty, pretty_N.
  rewrite decide_False by discriminate. now apply no_colon_pretty_N_go.
Qed.

(** ** [split(':')] *)

Lemma append_cons c s t : String c s +:+ t = String c (s +:+ t).
Proof. reflexivity. Qed.

Lemma append_String_assoc cur c s : (cur +:+ String c "") +:+ s = cur +:+ String c s.
Proof.
  induction cur as [|a cur IH]; [reflexivity|]. rewrite !append_cons. now rewrite IH.
Qed.

Lemma append_empty_r s : s +:+ "" = s.
Proof. induction s as [|a s IH]; [reflexivity|]. rewrite append_cons. now rewrite IH. Qed.

Lemma split_colon_no_colon a :
  forall cur rest, no_colon a = true ->
    split_colon (a +:+ String ":"%char rest) cur = (cur +:+ a) :: split_colon rest "".
Proof.
  induction a as [|c a IH]; intros cur rest Ha.
  - change ("" +:+ String ":"%char rest) with (String ":"%char rest). simpl.
    now rewrite append_empty_r.
  - simpl in Ha. apply andb_true_iff in Ha as [Hc Ha]. apply negb_true_iff in Hc.
    rewrite append_cons. simpl. rewrite Hc, IH by exact Ha.
    now rewrite append_String_assoc.
Qed.

Lemma split_colon_last a : forall cur, no_colon a = true -> split_colon a cur = [cur +:+ a].
Proof.
  induction a as [|c a IH]; intros cur Ha; simpl.
  - now rewrite append_empty_r.
  - simpl in Ha. apply andb_true_iff in Ha as [Hc Ha]. apply negb_true_iff in Hc.
    rewrite Hc, IH by exact Ha. now rewrite append_String_assoc.
Qed.

Lemma split_callback_data verifyId i :
  no_colon verifyId = true -> 0 <= i ->
  split_colon (callback_data verifyId i) "" = ["verify"; verifyId; String_of i].
Proof.
  intros Hid Hi. unfold callback_data.
  change ("verify:" +:+ verifyId +:+ ":" +:+ String_of i)
    with ("verify" +:+ String ":"%char (verifyId +:+ String ":"%char (String_of i))).
  rewrite split_colon_no_colon by reflexivity.
  rewrite split_colon_no_colon by exact Hid.
  rewrite split_colon_last by now apply no_colon_String_of.
  reflexivity.
Qed.

(** ** Random ids *)

Lemma id_char_no_colon b : Ascii.eqb (id_char b) ":"%char = false.
Proof.
  unfold id_char.
  assert (Hlt : (N.to_nat (b mod 36) < 36)%nat).
  { pose proof (N.mod_lt b 36 ltac:(discriminate)). lia. }
  revert Hlt. generalize (N.to_nat (b mod 36)). intros k Hk.
  do 36 (destruct k as [|k]; [reflexivity|]). lia.
Qed.

Lemma secureRandomId_spec bytes :
  String.length (secureRandomId bytes) = length bytes /\
  no_colon (secureRandomId bytes) = true.
Proof.
  induction bytes as [|b bytes [IH1 IH2]]; [now split|]. simpl.
  rewrite IH1, id_char_no_colon, IH2. now split.
Qed.

(** ** The buttons of a challenge *)

Lemma split_verify verifyId idx :
  no_colon verifyId = true -> no_colon idx = true ->
  split_colon ("verify:" +:+ verifyId +:+ ":" +:+ idx) "" = ["verify"; verifyId; idx].
Proof.
  intros Hid Hidx.
  change ("verify:" +:+ verifyId +:+ ":" +:+ idx)
    with ("verify" +:+ String ":"%char (verifyId +:+ String ":"%char idx)).
  rewrite split_colon_no_colon by reflexivity.
  rewrite split_colon_no_colon by exact Hid.
  rewrite split_colon_last by exact Hidx.
  reflexivity.
Qed.

Lemma buttons_of_In verifyId opts :
  forall base opt data,
    In (opt, data) (buttons_of verifyId opts base) ->
    exists n, nth_error opts n = Some opt /\ data = callback_data verifyId (base + Z.of_nat n).
Proof.
  induction opts as [|o opts IH]; intros base opt data Hin; [destruct Hin|].
  simpl in Hin. destruct Hin as [Heq|Hin].
  - injection Heq as <- <-. exists 0%nat. split; [reflexivity|].
    unfold callback_data. now rewrite Z.add_0_r.
  - destruct (IH _ _ _ Hin) as (n & Hn & ->). exists (S n). split; [exact Hn|].
    f_equal. lia.
Qed.

(** X12.  Callback data round-trips.  Every button that
    [sendVerificationChallenge] builds for a verify id drawn by
    [secureRandomId] carries data that [handleCallbackQuery] takes apart
    again: it starts with [verify:], splits at the colons into exactly three
    parts, the second the verify id, and [parseInt] of the third is the
    position of the button's option in the list of options. *)
Theorem button_data_decodes_to_its_option :
  forall bytes opts opt data,
    let verifyId := secureRandomId bytes in
    In (opt, data) (buttons_of verifyId opts 0) ->
    exists n idx,
      nth_error opts n = Some opt /\
      startsWith data "verify:" = true /\
      split_colon data "" = ["verify"; verifyId; idx] /\
      parseInt idx = Some (Z.of_nat n).
Proof.
  intros bytes opts opt data verifyId Hin.
  destruct (buttons_of_In verifyId opts 0 opt data Hin) as (n & Hn & ->).
  exists n, (String_of (Z.of_nat n)). split; [exact Hn|]. split; [reflexivity|].
  split.
  - apply split_verify; [apply secureRandomId_spec | apply no_colon_String_of; lia].
  - apply parseInt_String_of. lia.
Qed.

Lemma button_data_decodes_to_its_option_witness :
  exists n idx,
    nth_error ["3"; "4"; "5"] n = Some "5" /\
    startsWith "verify:hc8:2" "verify:" = true /\
    split_colon "verify:hc8:2" "" = ["verify"; "hc8"; idx] /\
    parseInt idx = Some (Z.of_nat n).
Proof.
  apply (button_data_decodes_to_its_option [7; 2; 34]%N ["3"; "4"; "5"] "5" "verify:hc8:2").
  right. right. left. reflexivity.
Defined.

(** ** Callbacks *)

(** The state after one Telegram call. *)
Lemma tgCall_run c s :
  tgCall c s
  = (Returned (next_reply s),
     St (st_env s) (st_threadHealthCache s) (st_trace s ++ [Tg c (next_reply s)])
        (tl (st_replies s)) (st_clock s) (st_do_faults s) (st_draws s)).
Proof. reflexivity. Qed.

(** X13.  A callback for a challenge that is not stored (expired, or
    completed before) only answers the query with the "expired" alert: the
    bindings and the cache stay as they are, [forwardToTopic] is not called,
    nothing is replayed. *)
Theorem callback_without_challenge_only_alerts :
  forall forwardToTopic query verifyId idx s,
    q_data query = "verify:" +:+ verifyId +:+ ":" +:+ idx ->
    no_colon verifyId = true -> no_colon idx = true ->
    kv_truthy (TOPIC_MAP (st_env s) !! chal_key verifyId) = false ->
    handleCallbackQueryImpl forwardToTopic query s
    = (Returned tt,
       St (st_env s) (st_threadHealthCache s)
          (st_trace s ++ [Tg (AnswerCallbackQuery (q_id query) "❌ 验证已过期，请重发消息" true)
                             (next_reply s)])
          (tl (st_replies s)) (st_clock s) (st_do_faults s) (st_draws s)).
Proof.
  intros fwd query verifyId idx s Hdata Hid Hidx Hgone.
  unfold handleCallbackQueryImpl. rewrite Hdata.
  assert (startsWith ("verify:" +:+ verifyId +:+ ":" +:+ idx) "verify:" = true) as ->
    by reflexivity.
  rewrite (split_verify verifyId idx Hid Hidx).
  unfold alert, try_catch, bind, kvGet. cbn [negb fst snd]. rewrite Hgone.
  cbn [negb]. rewrite tgCall_run. reflexivity.
Qed.

Lemma callback_without_challenge_only_alerts_witness :
  let q := CallbackQuery "q1" "verify:abc123:1" (TgUser 42 None None None) 900 in
  let s := St (MkEnv None ∅ None (-1001234)) ∅ [] [TgResponse true None None] [] [] [] in
  st_env (handleCallbackQueryImpl (fun _ => throw (Error "unused")) q s).2 = st_env s.
Proof.
  intros q s.
  rewrite (callback_without_challenge_only_alerts _ q "abc123" "1" s);
    reflexivity.
Defined.

Lemma owner_check st userId :
  match ch_userId st with
  | Some u => negb (u =? 0) && negb (u =? userId)
  | None => false
  end = negb (owner_ok st userId).
Proof.
  unfold owner_ok. destruct (ch_userId st) as [u|]; [|reflexivity].
  now rewrite negb_orb.
Qed.

(** X14.  A wrong button, or a button of somebody else's challenge, changes
    nothing.  For callback data as the buttons carry it, when the sender is
    not the owner of the stored challenge or the index is not its answer, the
    query is answered with one alert, after at most the log line of a failed
    attempt; the bindings, the challenge among them, and the cache stay as
    they are, so the user is not verified and can try again;
    [forwardToTopic] is not called. *)
Theorem callback_wrong_button_changes_nothing :
  forall forwardToTopic query verifyId i st s,
    q_data query = callback_data verifyId i ->
    no_colon verifyId = true -> 0 <= i ->
    TOPIC_MAP (st_env s) !! chal_key verifyId = Some (VChallenge st) ->
    owner_ok st (tu_id (q_from query)) = false \/ i <> answerIndex st ->
    exists text pre,
      handleCallbackQueryImpl forwardToTopic query s
      = (Returned tt,
         St (st_env s) (st_threadHealthCache s)
            (st_trace s ++ pre ++ [Tg (AnswerCallbackQuery (q_id query) text true)
                                      (next_reply s)])
            (tl (st_replies s)) (st_clock s) (st_do_faults s) (st_draws s)) /\
      (pre = [] \/ pre = [Log LInfo "verification_failed"]).
Proof.
  intros fwd query verifyId i st s Hdata Hid Hi Hst Hwrong.
  unfold handleCallbackQueryImpl. rewrite Hdata.
  assert (startsWith (callback_data verifyId i) "verify:" = true) as -> by reflexivity.
  unfold callback_data.
  rewrite (split_verify verifyId (String_of i) Hid (no_colon_String_of i Hi)).
  rewrite (parseInt_String_of i Hi).
  unfold alert, try_catch, bind, kvGet, Logger, emit. cbn [negb fst snd]. rewrite Hst.
  cbn [kv_truthy negb as_challenge]. rewrite owner_check.
  destruct (owner_ok st (tu_id (q_from query))) eqn:Hown; cbn [negb].
  - destruct Hwrong as [Hw|Hne]; [discriminate|].
    destruct ((i <? 0) || (i >=? Z.of_nat (length (options st)))).
    + rewrite tgCall_run. exists "❌ 无效选项", []. split; [reflexivity | now left].
    + assert ((i =? answerIndex st) = false) as -> by lia.
      cbn [fst snd]. rewrite tgCall_run. cbn [st_env st_trace st_replies next_reply].
      exists "❌ 答案错误", [Log LInfo "verification_failed"].
      split; [|now right]. unfold next_reply. cbn [st_replies].
      now rewrite <- app_assoc.
  - rewrite tgCall_run. exists "❌ 无效的验证", []. split; [reflexivity | now left].
Qed.

Lemma callback_wrong_button_changes_nothing_witness :
  let st := Challenge 1 ["3"; "4"] (Some [555]) None (Some 42) in
  let q := CallbackQuery "q1" "verify:abc123:0" (TgUser 42 None None None) 900 in
  let s := St (MkEnv None (<["chal:abc123" := VChallenge st]> ∅) None (-1001234)) ∅ []
              [TgResponse true None None] [] [] [] in
  st_env (handleCallbackQueryImpl (fun _ => throw (Error "unused")) q s).2 = st_env s.
Proof.
  intros st q s.
  destruct (callback_wrong_button_changes_nothing (fun _ => throw (Error "unused"))
              q "abc123" 0 st s) as (text & pre & -> & _).
  - reflexivity.
  - reflexivity.
  - lia.
  - reflexivity.
  - right. discriminate.
  - reflexivity.
Defined.

Lemma replay_returns forwardToTopic from userId st s :
  (replay forwardToTopic from userId st s).1 = Returned tt.
Proof.
  unfold replay. destruct (has_pending st); [|reflexivity].
  unfold try_catch.
  match goal with |- context [match ?m s with _ => _ end] =>
    destruct (m s) as [[[]|e] s1] end; [reflexivity|].
  unfold bind, Logger, emit, ret. cbn [fst snd]. rewrite tgCall_run. reflexivity.
Qed.

(** The run of a callback that carries the answer. *)
Lemma right_button_run :
  forall forwardToTopic query verifyId st s,
    q_data query = callback_data verifyId (answerIndex st) ->
    no_colon verifyId = true ->
    0 <= answerIndex st < Z.of_nat (length (options st)) ->
    TOPIC_MAP (st_env s) !! chal_key verifyId = Some (VChallenge st) ->
    owner_ok st (tu_id (q_from query)) = true ->
    let userId := tu_id (q_from query) in
    let run := handleCallbackQueryImpl forwardToTopic query s in
    exists s1,
      run.1 = Returned tt /\
      run.2 = (replay forwardToTopic (q_from query) userId st s1).2 /\
      verified_until userId
        (Some (hd 0 (st_clock s) + CONFIG.VERIFIED_EXPIRE_SECONDS * 1000)) (st_env s1) /\
      TOPIC_MAP (st_env s1) !! ("needs_verify:" +:+ String_of userId) = None /\
      TOPIC_MAP (st_env s1) !! chal_key verifyId = None /\
      TOPIC_MAP (st_env s1) !! user_challenge_key userId = None /\
      forall uid mid, forwards uid mid (st_trace s1) = forwards uid mid (st_trace s).
Proof.
  intros fwd query verifyId st s Hdata Hid Hi Hst Hown userId run.
  subst run. unfold handleCallbackQueryImpl. rewrite Hdata.
  assert (startsWith (callback_data verifyId (answerIndex st)) "verify:" = true) as ->
    by reflexivity.
  unfold callback_data.
  rewrite (split_verify verifyId (String_of (answerIndex st)) Hid
             (no_colon_String_of _ (proj1 Hi))).
  rewrite (parseInt_String_of _ (proj1 Hi)).
  fold userId. cbn [negb]. unfold try_catch.
  erewrite bind_run by (unfold kvGet; rewrite Hst; reflexivity).
  cbn [kv_truthy negb as_challenge]. rewrite owner_check. fold userId in Hown |- *.
  rewrite Hown. cbn [negb].
  assert (((answerIndex st <? 0) || (answerIndex st >=? Z.of_nat (length (options st))))
          = false) as -> by lia.
  rewrite Z.eqb_refl.
  erewrite bind_run by apply tgCall_run.
  erewrite bind_run by reflexivity.
  erewrite bind_run by reflexivity.
  cbn [st_env st_threadHealthCache st_trace st_replies st_clock st_do_faults st_draws].
  match goal with |- context [bind (if hasD1 (st_env s) then _ else _) _ ?sx] =>
    set (s0 := sx) end.
  assert (Hmark : exists s0',
    (if hasD1 (st_env s) then StorageD1.dbSetVerifyState userId "1"
     else kvPut ("verified:" +:+ String_of userId) (VStr "1")) s0 = (Returned tt, s0') /\
    verified_until userId
      (Some (hd 0 (st_clock s) + CONFIG.VERIFIED_EXPIRE_SECONDS * 1000)) (st_env s0') /\
    st_trace s0' = st_trace s0 /\ st_replies s0' = st_replies s0).
  { unfold hasD1. destruct (TG_BOT_DB (st_env s)) as [db|] eqn:Hdb.
    - assert (Hdb0 : TG_BOT_DB (st_env s0) = Some db) by exact Hdb.
      rewrite (dbSetVerifyState_run userId "1" s0 db Hdb0) by discriminate.
      rewrite (dbUserUpdate_run userId _ (now s0).2 db)
        by (try reflexivity; rewrite now_run; exact Hdb).
      eexists. split; [reflexivity|]. rewrite now_run. split; [|now split].
      unfold verified_until. cbn [st_env set_db TG_BOT_DB set_TG_BOT_DB users].
      eexists. split; [apply alter_ensured_lookup|]. now split.
    - eexists. split; [reflexivity|]. subst s0. cbn. split; [|now split].
      unfold verified_until. cbn. rewrite Hdb. apply lookup_insert_eq. }
  destruct Hmark as (s0' & Hrun & Hver & Htr & Hrep).
  erewrite bind_run by exact Hrun.
  erewrite bind_run by apply kvDelete_run.
  erewrite bind_run by apply kvDelete_run.
  erewrite bind_run by apply kvDelete_run.
  erewrite bind_run by apply tgCall_run.
  match goal with |- context [replay fwd (q_from query) userId st ?sx] => set (s1 := sx) end.
  exists s1.
  pose proof (replay_returns fwd (q_from query) userId st s1) as Hret.
  destruct (replay fwd (q_from query) userId st s1) as [o s2] eqn:Hreplay.
  cbn [fst] in Hret. subst o. cbv beta iota. cbn [fst snd].
  split; [reflexivity|]. split; [reflexivity|].
  subst s1. unfold set_kv. cbn [st_env st_trace TOPIC_MAP set_TOPIC_MAP].
  assert (Hne1 : user_challenge_key userId <> "verified:" +:+ String_of userId)
    by (unfold user_challenge_key; intros H; discriminate H).
  assert (Hne2 : chal_key verifyId <> "verified:" +:+ String_of userId)
    by (unfold chal_key; intros H; discriminate H).
  assert (Hne3 : "needs_verify:" +:+ String_of userId <> "verified:" +:+ String_of userId)
    by (intros H; discriminate H).
  assert (Hne4 : user_challenge_key userId <> "needs_verify:" +:+ String_of userId)
    by (unfold user_challenge_key; intros H; discriminate H).
  assert (Hne5 : chal_key verifyId <> "needs_verify:" +:+ String_of userId)
    by (unfold chal_key; intros H; discriminate H).
  assert (Hne6 : user_challenge_key userId <> chal_key verifyId)
    by (unfold user_challenge_key, chal_key; intros H; discriminate H).
  split.
  { unfold verified_until in *. cbn [TG_BOT_DB set_TOPIC_MAP TOPIC_MAP].
    destruct (TG_BOT_DB (st_env s0')); [exact Hver|].
    rewrite (lookup_delete_ne _ _ _ Hne1), (lookup_delete_ne _ _ _ Hne2),
      (lookup_delete_ne _ _ _ Hne3). exact Hver. }
  split.
  { rewrite (lookup_delete_ne _ _ _ Hne4), (lookup_delete_ne _ _ _ Hne5).
    apply lookup_delete_eq. }
  split.
  { rewrite (lookup_delete_ne _ _ _ Hne6). apply lookup_delete_eq. }
  split; [apply lookup_delete_eq|].
  intros uid mid. rewrite forwards_snoc by exact I. rewrite Htr. subst s0. cbn [st_trace].
  rewrite !forwards_snoc; [reflexivity|exact I|exact I].
Qed.

(** X15.  The right button verifies the user before anything is replayed.
    For the callback data of the answer's button, sent by the owner of the
    stored challenge, [handleCallbackQuery] returns, and the replay of the
    pending messages starts from a state in which the user is verified (the
    row of [users] with the expiry 30 days after the clock reading, or the key
    [verified:<userId>]), the marker [needs_verify] is deleted, and the
    challenge and the user's pointer to it are deleted, so that the same
    callback sent again finds no challenge. *)
Theorem callback_right_button_verifies :
  forall forwardToTopic query verifyId st s,
    q_data query = callback_data verifyId (answerIndex st) ->
    no_colon verifyId = true ->
    0 <= answerIndex st < Z.of_nat (length (options st)) ->
    TOPIC_MAP (st_env s) !! chal_key verifyId = Some (VChallenge st) ->
    owner_ok st (tu_id (q_from query)) = true ->
    let userId := tu_id (q_from query) in
    let run := handleCallbackQueryImpl forwardToTopic query s in
    exists s1,
      run.1 = Returned tt /\
      run.2 = (replay forwardToTopic (q_from query) userId st s1).2 /\
      verified_until userId
        (Some (hd 0 (st_clock s) + CONFIG.VERIFIED_EXPIRE_SECONDS * 1000)) (st_env s1) /\
      TOPIC_MAP (st_env s1) !! ("needs_verify:" +:+ String_of userId) = None /\
      TOPIC_MAP (st_env s1) !! chal_key verifyId = None /\
      TOPIC_MAP (st_env s1) !! user_challenge_key userId = None /\
      forall uid mid, forwards uid mid (st_trace s1) = forwards uid mid (st_trace s).
Proof.
  intros forwardToTopic query verifyId st s Hdata Hid Hrange Hst Hown.
  exact (right_button_run forwardToTopic query verifyId st s Hdata Hid Hrange Hst Hown).
Qed.

Lemma callback_right_button_verifies_witness :
  let st := Challenge 1 ["3"; "4"] (Some []) None (Some 42) in
  let q := CallbackQuery "q1" "verify:abc123:1" (TgUser 42 None None None) 900 in
  let s := St (MkEnv None (<["chal:abc123" := VChallenge st]>
                             (<["user_challenge:42" := VStr "abc123"]> ∅)) None (-1001234))
              ∅ [] [TgResponse true None None; TgResponse true None None] [] [] [] in
  exists s1,
    (handleCallbackQueryImpl (fun _ => ret tt) q s).2
    = (replay (fun _ => ret tt) (q_from q) 42 st s1).2 /\
    verified_until 42 (Some 2592000000) (st_env s1) /\
    TOPIC_MAP (st_env s1) !! "chal:abc123" = None.
Proof.
  intros st q s.
  destruct (callback_right_button_verifies (fun _ => ret tt) q "abc123" st s)
    as (s1 & _ & H2 & H3 & _ & H5 & _).
  - reflexivity.
  - reflexivity.
  - simpl. lia.
  - reflexivity.
  - reflexivity.
  - exists s1. split; [exact H2|]. split; [exact H3 | exact H5].
Defined.

(** X19.  One open challenge per user.  While the user's own challenge is
    stored, [sendVerificationChallenge] issues nothing new: it makes no
    Telegram call, draws no question and does not consult the rate limit.  It
    only appends the message, when there is one and it is not pending yet, to
    the challenge's pending list (trimmed to the last ten), and logs that the
    request was a duplicate. *)
Theorem open_challenge_is_reused :
  forall userId p verifyId st s,
    TOPIC_MAP (st_env s) !! user_challenge_key userId = Some (VStr verifyId) ->
    verifyId <> "" ->
    TOPIC_MAP (st_env s) !! chal_key verifyId = Some (VChallenge st) ->
    ch_userId st = Some userId ->
    let m := default 0 p in
    let queued := truthy_num p && negb (includes_id (current_pending st) m) in
    sendVerificationChallenge userId p s
    = (Returned tt,
       St (if queued
           then kv_put (chal_key verifyId)
                  (VChallenge (Challenge (answerIndex st) (options st)
                                 (Some (push_pending (current_pending st) m)) None
                                 (ch_userId st)))
                  (st_env s)
           else st_env s)
          (st_threadHealthCache s)
          (st_trace s ++ [Log LDebug "verification_duplicate_skipped"])
          (st_replies s) (st_clock s) (st_do_faults s) (st_draws s)).
Proof.
  intros userId p verifyId st s Huc Hne Hchal Hown m queued.
  unfold sendVerificationChallenge, sendVerificationChallengeImpl.
  erewrite bind_run by (unfold kvGet; rewrite Huc; reflexivity).
  assert (Hq : queue_on_existing userId p (Some (VStr verifyId)) s
               = (Returned true,
                  St (if queued
                      then kv_put (chal_key verifyId)
                             (VChallenge (Challenge (answerIndex st) (options st)
                                            (Some (push_pending (current_pending st) m)) None
                                            (ch_userId st)))
                             (st_env s)
                      else st_env s)
                     (st_threadHealthCache s)
                     (st_trace s ++ [Log LDebug "verification_duplicate_skipped"])
                     (st_replies s) (st_clock s) (st_do_faults s) (st_draws s))).
  { unfold queue_on_existing. apply String.eqb_neq in Hne. unfold falsy_str. rewrite Hne.
    erewrite bind_run
      by (unfold safeGetJSON; erewrite bind_run
            by (unfold kvGet; rewrite Hchal; reflexivity); reflexivity).
    cbn [as_challenge]. rewrite Hown, Z.eqb_refl.
    subst queued m. destruct (truthy_num p); cbn [andb].
    - destruct (includes_id (current_pending st) (default 0 p)); cbn [negb]; reflexivity.
    - reflexivity. }
  erewrite bind_run by exact Hq. reflexivity.
Qed.

Lemma open_challenge_is_reused_witness :
  let st := Challenge 1 ["3"; "4"] (Some [555]) None (Some 42) in
  let s := St (MkEnv None (<["chal:abc123" := VChallenge st]>
                             (<["user_challenge:42" := VStr "abc123"]> ∅)) None (-1001234))
              ∅ [] [] [] [] [] in
  TOPIC_MAP (st_env (sendVerificationChallenge 42 (Some 556) s).2) !! "chal:abc123"
  = Some (VChallenge (Challenge 1 ["3"; "4"] (Some [555; 556]) None (Some 42))) /\
  st_trace (sendVerificationChallenge 42 (Some 556) s).2
  = [Log LDebug "verification_duplicate_skipped"].
Proof.
  intros st s.
  rewrite (open_challenge_is_reused 42 (Some 556) "abc123" st s);
    [split; reflexivity | reflexivity | discriminate | reflexivity | reflexivity].
Defined.

(** ** From the challenge to the verified user *)

Lemma indexOf_In l x :
  forall base, In x l ->
    exists n, indexOf l x base = base + Z.of_nat n /\ nth_error l n = Some x /\
              (n < length l)%nat.
Proof.
  induction l as [|y l IH]; intros base Hin; [destruct Hin|]. simpl.
  destruct (String.eqb y x) eqn:E.
  - apply String.eqb_eq in E. subst y. exists 0%nat. simpl. split; [lia|]. split; [reflexivity|lia].
  - destruct Hin as [->|Hin]; [now rewrite String.eqb_refl in E|].
    destruct (IH (base + 1) Hin) as (n & H1 & H2 & H3). exists (S n). simpl.
    split; [lia|]. split; [exact H2 | lia].
Qed.

Lemma buttons_of_nth verifyId opts :
  forall base n opt, nth_error opts n = Some opt ->
    In (opt, callback_data verifyId (base + Z.of_nat n)) (buttons_of verifyId opts base).
Proof.
  induction opts as [|o opts IH]; intros base n opt Hn; [now destruct n|].
  destruct n as [|n]; cbn [nth_error buttons_of In] in *.
  - injection Hn as ->. left. unfold callback_data. now rewrite Z.add_0_r.
  - right. replace (base + Z.of_nat (S n)) with (base + 1 + Z.of_nat n) by lia.
    now apply IH.
Qed.

Lemma chunk_rows_concat {A} (cols : nat) :
  (0 < cols)%nat ->
  forall fuel (l : list A), (length l <= fuel)%nat ->
    concat (chunk_rows fuel cols l) = l.
Proof.
  intros Hc. induction fuel as [|fuel IH]; intros l Hl.
  - destruct l; [reflexivity | simpl in Hl; lia].
  - destruct l as [|x l]; [reflexivity|]. cbn [chunk_rows concat].
    rewrite IH; [apply take_drop|].
    rewrite length_drop. simpl in *. lia.
Qed.

(** The run of [sendVerificationChallenge] that issues a challenge, on the
    fallback counter. *)
Lemma fresh_challenge_run userId p d draws s :
  RATE_LIMIT_DO (st_env s) = None ->
  TOPIC_MAP (st_env s) !! user_challenge_key userId = None ->
  TOPIC_MAP (st_env s) !! kv_rate_key userId "verify" = None ->
  st_draws s = d :: draws ->
  let st := Challenge (indexOf (d_options d) (d_correct d) 0) (d_options d)
              (Some (if truthy_num p then [default 0 p] else [])) None (Some userId) in
  let keyboard := chunk_rows (length (buttons_of (d_verifyId d) (d_options d) 0))
                    CONFIG.BUTTON_COLUMNS (buttons_of (d_verifyId d) (d_options d) 0) in
  exists s1,
    sendVerificationChallenge userId p s = (Returned tt, s1) /\
    TOPIC_MAP (st_env s1) !! chal_key (d_verifyId d) = Some (VChallenge st) /\
    (d_verifyId d <> "" ->
     TOPIC_MAP (st_env s1) !! user_challenge_key userId = Some (VStr (d_verifyId d))) /\
    TG_BOT_DB (st_env s1) = TG_BOT_DB (st_env s) /\
    st_clock s1 = st_clock s /\
    st_trace s1 = st_trace s ++ [Log LWarn "rate_limit_do_not_configured";
                                 Log LInfo "verification_sent";
                                 Tg (SendKeyboard userId (d_question d) keyboard)
                                    (next_reply s)].
Proof.
  intros Hdo Huc Hrl Hdraw st keyboard.
  unfold sendVerificationChallenge, sendVerificationChallengeImpl.
  erewrite bind_run by (unfold kvGet; rewrite Huc; reflexivity).
  erewrite bind_run by reflexivity. cbv iota.
  erewrite bind_run
    by (rewrite (RateLimitProps.checkRateLimit_kv_step userId "verify" _ _ s Hdo), Hrl;
        reflexivity).
  cbn [RateLimitDO.allowed negb].
  erewrite bind_run
    by (unfold next_draw; cbn [st_draws kvPut Worker.with_env kv_logged snd]; rewrite Hdraw;
        reflexivity).
  erewrite bind_run by apply kvPut_run.
  erewrite bind_run by apply kvPut_run.
  erewrite bind_run by reflexivity.
  erewrite bind_run by apply tgCall_run.
  eexists. split; [reflexivity|].
  unfold set_kv. cbn [st_env st_trace st_clock TOPIC_MAP set_TOPIC_MAP kv_put kvPut
    Worker.with_env kv_logged snd TG_BOT_DB next_reply st_replies].
  split.
  { destruct (decide (user_challenge_key userId = chal_key (d_verifyId d))) as [Heq|Hne].
    - unfold user_challenge_key, chal_key in Heq. discriminate Heq.
    - rewrite (lookup_insert_ne _ _ _ _ Hne). apply lookup_insert_eq. }
  split; [intros _; apply lookup_insert_eq|].
  split; [reflexivity|]. split; [reflexivity|].
  rewrite <- !app_assoc. reflexivity.
Qed.

(** X20.  From the challenge to the verified user.  When no challenge is
    open and the fallback counter admits one, [sendVerificationChallenge]
    stores a challenge and sends a keyboard on which the button of the
    correct option carries the data [verify:<verifyId>:<answerIndex>]; a
    callback with that data from the same user then marks the user verified
    and consumes the challenge before the pending messages are replayed. *)
Theorem issued_challenge_can_be_passed :
  forall forwardToTopic userId p d draws s query,
    RATE_LIMIT_DO (st_env s) = None ->
    TOPIC_MAP (st_env s) !! user_challenge_key userId = None ->
    TOPIC_MAP (st_env s) !! kv_rate_key userId "verify" = None ->
    st_draws s = d :: draws ->
    In (d_correct d) (d_options d) ->
    no_colon (d_verifyId d) = true ->
    let s1 := (sendVerificationChallenge userId p s).2 in
    let answer := indexOf (d_options d) (d_correct d) 0 in
    let data := callback_data (d_verifyId d) answer in
    tu_id (q_from query) = userId -> q_data query = data ->
    (exists keyboard r,
        In (Tg (SendKeyboard userId (d_question d) keyboard) r) (st_trace s1) /\
        In (d_correct d, data) (concat keyboard)) /\
    (exists st s2,
        TOPIC_MAP (st_env s1) !! chal_key (d_verifyId d) = Some (VChallenge st) /\
        (handleCallbackQueryImpl forwardToTopic query s1).1 = Returned tt /\
        (handleCallbackQueryImpl forwardToTopic query s1).2
        = (replay forwardToTopic (q_from query) userId st s2).2 /\
        verified_until userId
          (Some (hd 0 (st_clock s) + CONFIG.VERIFIED_EXPIRE_SECONDS * 1000)) (st_env s2) /\
        TOPIC_MAP (st_env s2) !! chal_key (d_verifyId d) = None /\
        TOPIC_MAP (st_env s2) !! user_challenge_key userId = None).
Proof.
  intros fwd userId p d draws s query Hdo Huc Hrl Hdraw Hin Hid s1 answer data Hfrom Hdata.
  destruct (fresh_challenge_run userId p d draws s Hdo Huc Hrl Hdraw)
    as (s1' & Hrun & Hchal & _ & Hdb & Hclock & Htrace).
  assert (s1 = s1') as -> by (subst s1; now rewrite Hrun).
  destruct (indexOf_In (d_options d) (d_correct d) 0 Hin) as (n & Hidx & Hnth & Hlt).
  split.
  - eexists _, _. split.
    + rewrite Htrace. apply in_or_app. right. right. right. left. reflexivity.
    + rewrite chunk_rows_concat by (unfold CONFIG.BUTTON_COLUMNS; lia).
      subst data answer. rewrite Hidx. now apply buttons_of_nth.
  - set (st := Challenge (indexOf (d_options d) (d_correct d) 0) (d_options d)
                 (Some (if truthy_num p then [default 0 p] else [])) None (Some userId)) in *.
    destruct (right_button_run fwd query (d_verifyId d) st s1')
      as (s2 & H1 & H2 & H3 & _ & H5 & H6 & _); [| | | | |exists st, s2].
    + exact Hdata.
    + exact Hid.
    + subst st. cbn [answerIndex options]. rewrite Hidx. lia.
    + exact Hchal.
    + subst st. unfold owner_ok. cbn [ch_userId]. rewrite Hfrom, Z.eqb_refl.
      apply orb_true_r.
    + rewrite Hfrom in *. rewrite Hclock in H3.
      split; [exact Hchal|].
      split; [exact H1|]. split; [exact H2|]. split; [exact H3|]. split; [exact H5 | exact H6].
Qed.

Lemma issued_challenge_can_be_passed_witness :
  let d := Draw "2 + 2 = ?" "4" ["3"; "4"] "abc123def456" in
  let s := St (MkEnv None ∅ None (-1001234)) ∅ [] [TgResponse true None None] [5000] [] [d] in
  let q := CallbackQuery "q1" "verify:abc123def456:1" (TgUser 42 None None None) 900 in
  exists keyboard r,
    In (Tg (SendKeyboard 42 "2 + 2 = ?" keyboard) r)
       (st_trace (sendVerificationChallenge 42 (Some 555) s).2) /\
    In ("4", "verify:abc123def456:1") (concat keyboard).
Proof.
  intros d s q.
  refine (proj1 (issued_challenge_can_be_passed (fun _ => ret tt) 42 (Some 555) d [] s q
                   eq_refl eq_refl eq_refl eq_refl _ eq_refl eq_refl eq_refl)).
  right. left. reflexivity.
Defined.

End VerificationProps.

(** * The router: who gets through *)

Module MessageFlowProps.
Import Env Worker RateLimit StorageD1 TopicUtils Verification MessageFlow.
Import RateLimitFacts VerificationFacts MessageFlowFacts StorageD1Props.

(** ** Computations that copy nothing *)

Lemma copies_snoc tr ev : is_copy ev = false -> copies (tr ++ [ev]) = copies tr.
Proof.
  intros H. unfold copies. rewrite List.filter_app. simpl. rewrite H. apply app_nil_r.
Qed.

Lemma copy_free_ret {A} (a : A) : copy_free (ret a).
Proof. intros s. reflexivity. Qed.

Lemma copy_free_throw {A} e : copy_free (@throw A e).
Proof. intros s. reflexivity. Qed.

Lemma copy_free_bind {A B} (m : M A) (f : A -> M B) :
  copy_free m -> (forall a, copy_free (f a)) -> copy_free (bind m f).
Proof.
  intros Hm Hf s. unfold bind. pose proof (Hm s) as H1.
  destruct (m s) as [[a|e] s1]; [|exact H1].
  simpl in H1. now rewrite Hf.
Qed.

Lemma copy_free_try_catch {A} (m : M A) (h : js_error -> M A) :
  copy_free m -> (forall e, copy_free (h e)) -> copy_free (try_catch m h).
Proof.
  intros Hm Hh s. unfold try_catch. pose proof (Hm s) as H1.
  destruct (m s) as [[a|e] s1]; [exact H1|].
  simpl in H1. now rewrite Hh.
Qed.

Lemma copy_free_same {A} (m : M A) :
  (forall s, st_trace (m s).2 = st_trace s) -> copy_free m.
Proof. intros H s. now rewrite H. Qed.

Lemma copy_free_Logger l ev : copy_free (Logger l ev).
Proof. intros s. simpl. now apply copies_snoc. Qed.

Lemma copy_free_tgCall c :
  match c with CopyMessage _ _ _ _ => False | _ => True end -> copy_free (tgCall c).
Proof. intros Hc s. simpl. apply copies_snoc. now destruct c. Qed.

Lemma copy_free_kvGet k : copy_free (kvGet k).
Proof. now apply copy_free_same. Qed.

Lemma copy_free_kvPut k v : copy_free (kvPut k v).
Proof. now apply copy_free_same. Qed.

Lemma copy_free_kvDelete k : copy_free (kvDelete k).
Proof. now apply copy_free_same. Qed.

Lemma copy_free_get_env : copy_free get_env.
Proof. now apply copy_free_same. Qed.

Lemma copy_free_next_draw : copy_free next_draw.
Proof. apply copy_free_same. intros s. unfold next_draw. now destruct (st_draws s). Qed.

Ltac copy_free_step :=
  lazymatch goal with
  | |- copy_free (bind _ _) => apply copy_free_bind; [|intros ?]
  | |- copy_free (try_catch _ _) => apply copy_free_try_catch; [|intros ?]
  | |- copy_free (ret _) => apply copy_free_ret
  | |- copy_free (throw _) => apply copy_free_throw
  | |- copy_free (kvGet _) => apply copy_free_kvGet
  | |- copy_free (kvPut _ _) => apply copy_free_kvPut
  | |- copy_free (kvDelete _) => apply copy_free_kvDelete
  | |- copy_free get_env => apply copy_free_get_env
  | |- copy_free next_draw => apply copy_free_next_draw
  | |- copy_free (Logger _ _) => apply copy_free_Logger
  | |- copy_free (tgCall _) => apply copy_free_tgCall; exact I
  end.

Lemma copy_free_checkRateLimit userId action limit window :
  copy_free (checkRateLimit userId action limit window).
Proof.
  unfold checkRateLimit. copy_free_step; [copy_free_step|].
  destruct (RATE_LIMIT_DO a).
  - copy_free_step.
    + copy_free_step; [|copy_free_step].
      apply copy_free_same. apply stub_check_trace.
    + copy_free_step; [|copy_free_step].
      intros s. simpl. apply copies_snoc. now destruct e as [| | |[] []].
  - copy_free_step; [copy_free_step|]. copy_free_step; [copy_free_step|].
    destruct (kv_count a1 >=? limit); repeat copy_free_step.
Qed.

Lemma copy_free_safeGetJSON k : copy_free (safeGetJSON k).
Proof.
  unfold safeGetJSON. copy_free_step; [copy_free_step|].
  destruct a as [[]|]; repeat copy_free_step.
Qed.

Lemma copy_free_queue_on_existing userId p existing :
  copy_free (queue_on_existing userId p existing).
Proof.
  unfold queue_on_existing. destruct existing as [[verifyId| | | |]|]; repeat copy_free_step.
  destruct (falsy_str verifyId); [copy_free_step|].
  copy_free_step; [apply copy_free_safeGetJSON|].
  destruct (as_challenge a) as [st|]; [|repeat copy_free_step].
  destruct (match ch_userId st with Some u => u =? userId | None => false end);
    [|repeat copy_free_step].
  copy_free_step; [|repeat copy_free_step].
  destruct (truthy_num p); [|copy_free_step].
  destruct (includes_id _ _); copy_free_step.
Qed.

Lemma copy_free_sendVerificationChallenge userId p :
  copy_free (sendVerificationChallenge userId p).
Proof.
  unfold sendVerificationChallenge, sendVerificationChallengeImpl.
  copy_free_step; [copy_free_step|].
  copy_free_step; [apply copy_free_queue_on_existing|].
  destruct a0; [copy_free_step|].
  copy_free_step; [apply copy_free_checkRateLimit|].
  destruct (negb (RateLimitDO.allowed a0)); repeat copy_free_step.
Qed.

(** ** The gates *)

Lemma sendVerificationChallenge_post userId p s :
  (sendVerificationChallenge userId p s).1 = Returned tt /\
  copies (st_trace (sendVerificationChallenge userId p s).2) = copies (st_trace s).
Proof.
  split; [|apply copy_free_sendVerificationChallenge].
  destruct (framed_sendVerificationChallenge userId p s) as [_ [[] H]]. exact H.
Qed.

Lemma banned_step userId s :
  (if hasD1 (st_env s) then dbIsBanned userId
   else let* v := kvGet (banned_key userId) in ret (kv_truthy v)) s
  = (Returned (is_banned userId (st_env s)), s).
Proof.
  unfold hasD1, is_banned. destruct (TG_BOT_DB (st_env s)) as [db|] eqn:Hdb.
  - now rewrite (dbIsBanned_run userId s db Hdb).
  - reflexivity.
Qed.

Lemma dbGetVerifyState_post userId s db :
  TG_BOT_DB (st_env s) = Some db ->
  exists v s1,
    dbGetVerifyState userId s = (Returned v, s1) /\
    st_trace s1 = st_trace s /\
    TOPIC_MAP (st_env s1) = TOPIC_MAP (st_env s) /\
    (never_verified userId (st_env s) = true -> v = None) /\
    (v <> None -> st_env s1 = st_env s).
Proof.
  intros Hdb. unfold never_verified. rewrite Hdb. unfold dbGetVerifyState.
  rewrite (bind_run get_env _ s (st_env s) s eq_refl), Hdb.
  destruct (users db !! String_of userId) as [row|];
    [|eexists _, _; split; [reflexivity|]; now repeat split].
  destruct (u_verify_state row) as [st|];
    [|eexists _, _; split; [reflexivity|]; now repeat split].
  destruct (falsy_str st) eqn:Hf;
    [eexists _, _; split; [reflexivity|]; now repeat split|].
  destruct (String.eqb st "trusted");
    [eexists _, _; split; [reflexivity|]; repeat split; try discriminate; reflexivity|].
  cbv zeta. rewrite (bind_run now _ s _ _ (now_run s)).
  destruct (negb _ && _).
  - assert (Hdb' : TG_BOT_DB (st_env (now s).2) = Some db) by now rewrite now_run.
    rewrite now_run in Hdb'.
    erewrite bind_run
      by (apply (dbUserUpdate_run userId
                   (UserUpdate None None None (Some None) (Some None) None) _ db Hdb' eq_refl)).
    eexists _, _. split; [reflexivity|]. cbn. repeat split; try discriminate.
    intros H. now destruct H.
  - eexists _, _. split; [reflexivity|]. cbn. repeat split; try discriminate.
Qed.

Lemma verified_step userId s :
  exists v s1,
    (if hasD1 (st_env s) then let* v := dbGetVerifyState userId in ret (truthy_str v)
     else let* v := kvGet (verified_key userId) in ret (kv_truthy v)) s
    = (Returned v, s1) /\
    st_trace s1 = st_trace s /\
    TOPIC_MAP (st_env s1) = TOPIC_MAP (st_env s) /\
    (never_verified userId (st_env s) = true -> v = false) /\
    (v = true -> st_env s1 = st_env s).
Proof.
  unfold hasD1. destruct (TG_BOT_DB (st_env s)) as [db|] eqn:Hdb.
  - destruct (dbGetVerifyState_post userId s db Hdb)
      as (v & s1 & Hrun & Htr & Hkv & Hnever & Hsame).
    rewrite (bind_run _ _ s v s1 Hrun). eexists _, _. split; [reflexivity|].
    split; [exact Htr|]. split; [exact Hkv|]. split.
    + intros H. now rewrite (Hnever H).
    + intros H. apply Hsame. intros ->. discriminate H.
  - eexists _, _. split; [reflexivity|]. repeat split.
    unfold never_verified. rewrite Hdb. intros H. now apply negb_true_iff in H.
Qed.



(** X22.  A closed conversation receives nothing.  When the user's record
    is marked closed (the row of [users] in D1 mode, the record under
    [user:<userId>] otherwise) and the keyword matcher only reads,
    [forwardToTopic] returns without copying any message into the supergroup:
    the message is stopped by an earlier gate or answered with the notice that
    the conversation was closed. *)
Theorem closed_conversation_receives_nothing :
  forall getOrCreateUserTopicRec sendWelcomeCard handleMediaGroup matchKeyword msg s,
    let userId := msg_chat_id msg in
    (forall t, read_only (matchKeyword t)) ->
    topic_closed userId (st_env s) = true ->
    let run := forwardToTopicImpl getOrCreateUserTopicRec sendWelcomeCard handleMediaGroup
                 matchKeyword msg s in
    run.1 = Returned tt /\ copies (st_trace run.2) = copies (st_trace s).
Proof.
  intros create welcome hmg mk msg s userId Hmk Hclosed run. subst run.
  unfold forwardToTopicImpl. fold userId.
  destruct (framed_checkRateLimit userId "message" CONFIG.RATE_LIMIT_MESSAGE
              CONFIG.RATE_LIMIT_WINDOW s) as [(Hdb & _ & _ & Hkv & _) [r Hr]].
  pose proof (copy_free_checkRateLimit userId "message" CONFIG.RATE_LIMIT_MESSAGE
                CONFIG.RATE_LIMIT_WINDOW s) as Hc1.
  destruct (checkRateLimit userId "message" CONFIG.RATE_LIMIT_MESSAGE
              CONFIG.RATE_LIMIT_WINDOW s) as [o s1] eqn:Hrl.
  cbn [fst snd] in *. subst o.
  rewrite (bind_run _ _ s r s1 Hrl).
  assert (Hclosed1 : topic_closed userId (st_env s1) = true).
  { unfold topic_closed in *. rewrite Hdb, (Hkv (user_key userId) eq_refl). exact Hclosed. }
  clear Hclosed Hdb Hkv Hrl. rewrite <- Hc1. clear Hc1.
  destruct (negb (RateLimitDO.allowed r)).
  { rewrite (bind_run _ _ s1 _ _ (VerificationProps.tgCall_run _ s1)).
    split; [reflexivity|]. cbn. now apply copies_snoc. }
  destruct (match msg_text msg with
            | Some t => negb (falsy_str t) && startsWith t "/"
                        && negb (String.eqb (trim t) "/start")
            | None => false
            end); [now split|].
  rewrite (bind_run get_env _ s1 (st_env s1) s1 eq_refl).
  rewrite (bind_run _ _ s1 _ _ (banned_step userId s1)).
  destruct (is_banned userId (st_env s1)); [now split|].
  destruct (verified_step userId s1) as (v & s2 & Hv & Htr & _ & _ & Hsame).
  rewrite (bind_run _ _ s1 _ _ Hv). rewrite <- Htr.
  destruct v; cbn [negb]; [|apply sendVerificationChallenge_post].
  specialize (Hsame eq_refl).
  rewrite (bind_run (kvGet _) _ s2 _ s2 eq_refl).
  destruct (kv_truthy _); [apply sendVerificationChallenge_post|].
  cbv zeta.
  assert (Hhit : exists hit s3,
             (if falsy_str (getFilterText msg) then ret None
              else mk (getFilterText msg)) s2 = (Returned hit, s3) /\
             st_env s3 = st_env s2 /\ copies (st_trace s3) = copies (st_trace s2)).
  { destruct (falsy_str (getFilterText msg)).
    - eexists _, _. now split.
    - destruct (Hmk (getFilterText msg) s2) as (He & Hc & a & Ha).
      destruct (mk (getFilterText msg) s2) as [o s3]. cbn [fst snd] in *. subst o.
      eexists _, _. now split. }
  destruct Hhit as (hit & s3 & Hhit & He3 & Hc3).
  rewrite (bind_run _ _ s2 _ _ Hhit). rewrite <- Hc3.
  destruct (truthy_str hit).
  { rewrite (bind_run _ _ s3 _ _ (VerificationProps.tgCall_run _ s3)).
    split; [reflexivity|]. cbn. rewrite !copies_snoc; reflexivity. }
  assert (Hclosed3 : topic_closed userId (st_env s3) = true)
    by now rewrite He3, Hsame.
  assert (Hrec : exists s4,
             (if hasD1 (st_env s1) then dbUserGet userId
              else let* v := safeGetJSON (user_key userId) in
                   ret (match v with Some (VTopicRec r) => Some r | _ => None end)) s3
             = (Returned (Some (TopicRec
                  (match TG_BOT_DB (st_env s3) with
                   | Some db => match users db !! String_of userId with
                                | Some row => u_thread_id row | None => None end
                   | None => match TOPIC_MAP (st_env s3) !! user_key userId with
                             | Some (VTopicRec r) => thread_id r | _ => None end
                   end)
                  (match TG_BOT_DB (st_env s3) with
                   | Some db => match users db !! String_of userId with
                                | Some row => u_title row | None => None end
                   | None => match TOPIC_MAP (st_env s3) !! user_key userId with
                             | Some (VTopicRec r) => title r | _ => None end
                   end) true)), s4) /\
             copies (st_trace s4) = copies (st_trace s3)).
  { rewrite <- Hsame, <- He3. unfold hasD1. unfold topic_closed in Hclosed3.
    destruct (TG_BOT_DB (st_env s3)) as [db|] eqn:Hdb3.
    - rewrite (dbUserGet_run userId s3 db Hdb3).
      destruct (users db !! String_of userId) as [row|]; [|discriminate].
      rewrite Hclosed3. now exists s3.
    - unfold safeGetJSON.
      rewrite (bind_run (bind (kvGet _) _) _ s3
                 (TOPIC_MAP (st_env s3) !! user_key userId) s3).
      + revert Hclosed3.
        destruct (TOPIC_MAP (st_env s3) !! user_key userId) as [[?|?|?|rc|? ? ?]|];
          try discriminate.
        destruct rc as [t ti c]. cbn. intros ->. now exists s3.
      + rewrite (bind_run (kvGet _) _ s3 _ s3 eq_refl). revert Hclosed3.
        destruct (TOPIC_MAP (st_env s3) !! user_key userId) as [[?|?|?|rc|? ? ?]|];
          try discriminate. reflexivity. }
  destruct Hrec as (s4 & Hrec & Hc4).
  rewrite (bind_run _ _ s3 _ _ Hrec). cbn [closed]. rewrite <- Hc4.
  rewrite (bind_run _ _ s4 _ _ (VerificationProps.tgCall_run _ s4)).
  split; [reflexivity|]. cbn. now apply copies_snoc.
Qed.

Lemma closed_conversation_receives_nothing_witness :
  let msg := Message (Some 555) 42 (TgUser 42 (Some "Ann") None None)
               (Some "hello") None None in
  let s := St (MkEnv None
                 (<["user:42" := VTopicRec (TopicRec (Some 77) (Some "Ann") true)]>
                    (<["verified:42" := VStr "1"]> ∅))
                 None (-1001234)) ∅ [] [] [] [] [] in
  copies (st_trace (forwardToTopicImpl (fun _ _ _ => ret None) (fun _ _ _ => ret tt)
                      (fun _ _ => ret tt) (fun _ => ret None) msg s).2) = [].
Proof.
  intros msg s.
  refine (proj2 (closed_conversation_receives_nothing _ _ _ _ msg s _ _)).
  - intros t s0. split; [reflexivity|]. split; [reflexivity|]. now exists None.
  - reflexivity.
Defined.

End MessageFlowProps.

(** * The title of a topic *)

Module TopicTitleProps.
Import Worker TopicTitle.

Lemma trimStart_length s : (length (trimStart s) <= length s)%nat.
Proof. induction s as [|c r IH]; simpl; [lia|]. destruct (is_space c); simpl; lia. Qed.

Lemma trimEnd_length s : (length (trimEnd s) <= length s)%nat.
Proof.
  unfold trimEnd. rewrite length_rev.
  pose proof (trimStart_length (rev s)) as H. now rewrite length_rev in H.
Qed.

Lemma trim_length s : (length (trim s) <= length s)%nat.
Proof.
  unfold trim. pose proof (trimEnd_length (trimStart s)). pose proof (trimStart_length s). lia.
Qed.

Lemma collapse_spaces_length b s : (length (collapse_spaces b s) <= length s)%nat.
Proof.
  revert b. induction s as [|c r IH]; intros b; simpl; [lia|].
  destruct (is_space c); [destruct b|]; simpl;
    [pose proof (IH true)|pose proof (IH true)|pose proof (IH false)]; lia.
Qed.

Lemma filter_length_le {A} (p : A -> bool) l : (length (List.filter p l) <= length l)%nat.
Proof. induction l as [|x l IH]; simpl; [lia|]. destruct (p x); simpl; lia. Qed.

Lemma substring0_length n s : (length (substring0 n s) <= n)%nat.
Proof. unfold substring0. rewrite length_firstn. lia. Qed.

(** What survives [trimStart] is a suffix. *)
Lemma trimStart_suffix s : exists pre, s = pre ++ trimStart s.
Proof.
  induction s as [|c r [pre IH]]; [now exists []|]. simpl.
  destruct (is_space c); [|now exists []].
  exists (c :: pre). simpl. now rewrite <- IH.
Qed.

Lemma trimStart_Forall (P : N -> Prop) s : Forall P s -> Forall P (trimStart s).
Proof.
  intros H. destruct (trimStart_suffix s) as [pre Hs]. rewrite Hs in H.
  now apply Forall_app in H.
Qed.

Lemma trim_Forall (P : N -> Prop) s : Forall P s -> Forall P (trim s).
Proof.
  intros H. unfold trim, trimEnd.
  apply Forall_rev, trimStart_Forall, Forall_rev, trimStart_Forall, H.
Qed.

Lemma trimStart_head s : match trimStart s with c :: _ => is_space c = false | [] => True end.
Proof.
  induction s as [|c r IH]; simpl; [exact I|].
  destruct (is_space c) eqn:Hc; [exact IH|exact Hc].
Qed.

Lemma trimStart_snoc s c :
  is_space c = false -> trimStart (s ++ [c]) = trimStart s ++ [c].
Proof.
  intros Hc. induction s as [|d r IH]; simpl; [now rewrite Hc|].
  destruct (is_space d); [exact IH|reflexivity].
Qed.

(** A string that starts with a visible character keeps it under [trimEnd]. *)
Lemma trimEnd_head c r :
  is_space c = false -> exists r', trimEnd (c :: r) = c :: r'.
Proof.
  intros Hc. unfold trimEnd. simpl. rewrite (trimStart_snoc _ _ Hc), rev_app_distr. simpl.
  now eexists.
Qed.

Lemma trim_head s : match trim s with c :: _ => is_space c = false | [] => True end.
Proof.
  unfold trim. pose proof (trimStart_head s) as H.
  destruct (trimStart s) as [|c r]; [exact I|].
  destruct (trimEnd_head c r H) as [r' ->]. exact H.
Qed.

Lemma collapse_spaces_Forall b s :
  Forall (fun c => is_control c = false) s ->
  Forall (fun c => is_control c = false) (collapse_spaces b s).
Proof.
  intros H. revert b. induction H as [|c r Hc _ IH]; intros b; simpl; [constructor|].
  destruct (is_space c); [destruct b|]; try constructor; auto.
Qed.

Lemma filter_not_control s :
  Forall (fun c => is_control c = false) (List.filter (fun c => negb (is_control c)) s).
Proof.
  induction s as [|c r IH]; simpl; [constructor|].
  destruct (is_control c) eqn:Hc; simpl; [exact IH|now constructor].
Qed.

Lemma is_word_not_control c : is_word c = true -> is_control c = false.
Proof.
  unfold is_word, is_control.
  rewrite !orb_true_iff, !andb_true_iff, orb_false_iff, andb_false_iff,
    !N.leb_le, !N.leb_gt, N.eqb_eq.
  lia.
Qed.

Lemma filter_word_not_control s :
  Forall (fun c => is_control c = false) (List.filter is_word s).
Proof.
  induction s as [|c r IH]; simpl; [constructor|].
  destruct (is_word c) eqn:Hc; [constructor|]; auto using is_word_not_control.
Qed.

Lemma firstn_Forall {A} (P : A -> Prop) n l : Forall P l -> Forall P (firstn n l).
Proof.
  intros H. revert n. induction H as [|x l Hx _ IH]; intros [|n]; simpl; constructor; auto.
Qed.

(** X23.  Topic titles are well formed.  Whatever names the sender carries,
    the title built for the topic is not empty, starts with a visible
    character, holds no control character, and has at most 83 UTF-16 code
    units, so the final cut at [MAX_TITLE_LENGTH] = 128 never removes
    anything. *)
Theorem buildTopicTitle_well_formed :
  forall from,
    let title := buildTopicTitleImpl from in
    (1 <= length title <= 83)%nat /\
    Forall (fun c => is_control c = false) title /\
    match title with c :: _ => is_space c = false | [] => False end.
Proof.
  intros from title. subst title. unfold buildTopicTitleImpl.
  set (firstName := substring0 _ (trim (or_empty (first_name from)))).
  set (lastName := substring0 _ (trim (or_empty (last_name from)))).
  set (uname := match username from with
                | Some (c :: u) => substring0 20 (List.filter is_word (c :: u))
                | _ => []
                end).
  set (cleanName := trim _).
  set (name := match cleanName with [] => User | _ => cleanName end).
  set (usernameStr := match uname with [] => [] | _ => at_prefix ++ uname end).
  assert (Hclean_len : (length cleanName <= 61)%nat).
  { subst cleanName.
    etransitivity; [apply trim_length|].
    etransitivity; [apply collapse_spaces_length|].
    etransitivity; [apply filter_length_le|].
    rewrite !length_app. simpl.
    assert (length firstName <= 30)%nat by apply substring0_length.
    assert (length lastName <= 30)%nat by apply substring0_length.
    lia. }
  assert (Hclean_ok : Forall (fun c => is_control c = false) cleanName)
    by apply trim_Forall, collapse_spaces_Forall, filter_not_control.
  assert (Hclean_head : match cleanName with c :: _ => is_space c = false | [] => True end)
    by apply trim_head.
  assert (Hname : (1 <= length name <= 61)%nat /\
                  Forall (fun c => is_control c = false) name /\
                  exists c r, name = c :: r /\ is_space c = false).
  { subst name. destruct cleanName as [|c r].
    - split; [simpl; lia|]. split; [now repeat constructor|]. now eexists _, _.
    - split; [simpl in *; lia|]. split; [exact Hclean_ok|]. now eexists _, _. }
  assert (Huname : (length uname <= 20)%nat /\ Forall (fun c => is_control c = false) uname).
  { subst uname. destruct (username from) as [[|c u]|]; try (split; [simpl; lia|constructor]).
    split; [apply substring0_length|]. apply firstn_Forall, filter_word_not_control. }
  assert (Hstr : (length usernameStr <= 22)%nat /\
                 Forall (fun c => is_control c = false) usernameStr).
  { subst usernameStr. destruct Huname as [Hl Hf]. destruct uname as [|c u].
    - split; [simpl; lia|constructor].
    - split; [rewrite length_app; simpl in *; lia|].
      apply Forall_app. split; [now repeat constructor|exact Hf]. }
  clearbody name usernameStr.
  destruct Hname as (Hnl & Hnf & c & r & -> & Hc). destruct Hstr as [Hsl Hsf].
  unfold substring0. rewrite firstn_all2
    by (rewrite length_app; unfold CONFIG.MAX_TITLE_LENGTH; lia).
  split; [rewrite length_app; lia|]. split; [|exact Hc].
  apply Forall_app. now split.
Qed.

End TopicTitleProps.
